(** * blpapiComp: a shallow embedding of the Bloomberg wrapper and its properties

    The Python module [blpapiComp.py] wraps the vendor session API in two
    clients: [BLP2] (blocking request/response returning strings and
    tables) and [BLPTS] (the same polling loop, fanning results out to
    registered observers).  The vendor objects (session, events, messages,
    elements, requests) and the pandas tables are modelled by what the
    module can observe of them; the module's own control flow is embedded
    statement by statement in a state-and-exception monad with fuel for
    the unbounded polling loops. *)

From Stdlib Require Import PrimFloat.
From stdpp Require Import gmap strings list fin_maps pretty.

Open Scope string_scope.
Open Scope list_scope.

(** ** Python side: exceptions, outcomes, values *)

Module Py.

(** Exceptions the module can meet.  The first four are the vendor
    library's, the next are Python's own, [UserError] is whatever an
    observer callback raises. *)
Inductive exn : Type :=
| NotFoundException (name : string)
| IndexOutOfRangeException (i : nat)
| InvalidConversionException
| UnsupportedOperationException
| StopIteration
| NameError (name : string)
| KeyError (key : string)
| AttributeError (attr : string)
| TypeError
| ValueError
| IndexError
| UserError (code : nat).

(** What running a piece of code gives: a value, a raised exception, or
    [Pending] when the fuel ran out while the code was still blocked on
    the session's event queue. *)
Inductive outcome (A : Type) : Type :=
| Ok (a : A)
| Raise (e : exn)
| Pending.
Arguments Ok {A} a.
Arguments Raise {A} e.
Arguments Pending {A}.

Definition finished {A} (o : outcome A) : bool :=
  match o with Pending => false | _ => true end.

(** A calendar date as [datetime.date] holds it. *)
Record Date : Type := mkDate { year : nat; month : nat; day : nat }.

(** Decimal digits of [n], left-padded with zeros to [width]. *)
Fixpoint zeros (k : nat) : string :=
  match k with 0 => "" | S k' => "0" +:+ zeros k' end.

Definition zfill (width n : nat) : string :=
  let s := pretty n in zeros (width - String.length s) +:+ s.

(** [d.strftime('%Y%m%d')] *)
Definition strftime_Ymd (d : Date) : string :=
  zfill 4 (year d) +:+ zfill 2 (month d) +:+ zfill 2 (day d).

(** A table cell: a float (NaN is the missing-data marker) or a string. *)
Inductive cell : Type :=
| CFloat (f : float)
| CStr (s : string).

Definition NaN : cell := CFloat nan.

(** Row and column labels. *)
Inductive Label : Type :=
| LDate (d : Date)
| LStr (s : string).

#[global] Instance Date_eq_dec : EqDecision Date.
Proof. solve_decision. Defined.

#[global] Instance Label_eq_dec : EqDecision Label.
Proof. solve_decision. Defined.

(** A [pandas.DataFrame], column-major: [data] has one list per entry of
    [columns], each as long as [index]. *)
Record DataFrame : Type := mkDataFrame {
  index : list Label;
  columns : list string;
  data : list (list cell)
}.

(** An argument value a caller passes in: a string, a boolean or a date
    object.  Its truth value is Python's. *)
Inductive arg : Type :=
| AStr (s : string)
| ABool (b : bool)
| ADate (d : Date).

Definition truthy (a : arg) : bool :=
  match a with
  | AStr s => negb (bool_decide (s = ""))
  | ABool b => b
  | ADate _ => true
  end.

(** A parameter that is either one string or a list of strings. *)
Inductive str_or_list : Type :=
| Str (s : string)
| Lst (l : list string).

(** [len(x)] *)
Definition len (x : str_or_list) : nat :=
  match x with Str s => String.length s | Lst l => length l end.

(** [if type(x) == str: x = [x]] *)
Definition as_list (x : str_or_list) : list string :=
  match x with Str s => [s] | Lst l => l end.

(** The Python values the module returns or hands to observers. *)
Inductive pyval : Type :=
| PNone
| PStr (s : string)
| PCell (c : cell)
| PList (l : list cell)
| PSeries (labels : list Label) (values : list cell)
| PDataFrame (df : DataFrame)
| PFrameOfList (rows : list string).

End Py.
Export Py.

(** ** The vendor library, as the module observes it *)

Module Blpapi.

(** The [blpapi.Name] constants of the module header. *)
Definition DATE : string := "date".
Definition ERROR_INFO : string := "errorInfo".
Definition EVENT_TIME : string := "EVENT_TIME".
Definition FIELD_DATA : string := "fieldData".
Definition FIELD_EXCEPTIONS : string := "fieldExceptions".
Definition FIELD_ID : string := "fieldId".
Definition SECURITY : string := "security".
Definition SECURITY_DATA : string := "securityData".

(** [blpapi.event.Event] types. *)
Inductive EventType : Type :=
| ADMIN | SESSION_STATUS | SUBSCRIPTION_STATUS | REQUEST_STATUS
| RESPONSE | PARTIAL_RESPONSE | SUBSCRIPTION_DATA | SERVICE_STATUS
| TIMEOUT | AUTHORIZATION_STATUS | RESOLUTION_STATUS | TOPIC_STATUS
| TOKEN_STATUS | REQUEST | UNKNOWN.

#[global] Instance EventType_eq_dec : EqDecision EventType.
Proof. solve_decision. Defined.

(** A [blpapi.Element].  The library is closed, so a scalar is described
    by what each of its typed accessors gives ([None]: the accessor
    raises [InvalidConversionException]); arrays and sequences are the
    trees the module walks. *)
#[warnings="-register-all"] Inductive Element : Type :=
| Scalar (as_str : option string) (as_float : option float) (as_date : option Date)
| Array (vs : list Element)
| Sequence (fs : list (string * Element)).

Definition assoc {A} (k : string) (l : list (string * A)) : option A :=
  snd <$> List.find (fun p => bool_decide (fst p = k)) l.

(** [e.getElement(name)] *)
Definition getElement (e : Element) (name : string) : outcome Element :=
  match e with
  | Sequence fs =>
      match assoc name fs with
      | Some x => Ok x
      | None => Raise (NotFoundException name)
      end
  | _ => Raise UnsupportedOperationException
  end.

(** [e.hasElement(name)] *)
Definition hasElement (e : Element) (name : string) : bool :=
  match e with
  | Sequence fs => bool_decide (is_Some (assoc name fs))
  | _ => false
  end.

(** [e.numElements()] and [e.getElement(j)] with an integer position;
    the latter comes with the sub-element's [name()]. *)
Definition numElements (e : Element) : nat :=
  match e with Sequence fs => length fs | _ => 0 end.

Definition getElementAt (e : Element) (j : nat) : outcome (string * Element) :=
  match e with
  | Sequence fs =>
      match fs !! j with
      | Some p => Ok p
      | None => Raise (IndexOutOfRangeException j)
      end
  | _ => Raise UnsupportedOperationException
  end.

(** [e.numValues()]: the length of an array, 1 for anything else. *)
Definition numValues (e : Element) : nat :=
  match e with Array vs => length vs | _ => 1 end.

(** [e.values()]: the values of an array in order; anything else is its
    own single value. *)
Definition values (e : Element) : list Element :=
  match e with Array vs => vs | _ => [e] end.

(** [e.getValueAsElement(i)] *)
Definition getValueAsElement (e : Element) (i : nat) : outcome Element :=
  match e with
  | Array vs =>
      match vs !! i with
      | Some x => Ok x
      | None => Raise (IndexOutOfRangeException i)
      end
  | Sequence _ =>
      match i with 0 => Ok e | _ => Raise (IndexOutOfRangeException i) end
  | Scalar _ _ _ => Raise InvalidConversionException
  end.

Definition conv {A} (o : option A) : outcome A :=
  match o with Some a => Ok a | None => Raise InvalidConversionException end.

(** [e.getValueAsString()], [e.getValueAsFloat()], [e.getValueAsDatetime()] *)
Definition getValueAsString (e : Element) : outcome string :=
  match e with Scalar s _ _ => conv s | _ => Raise InvalidConversionException end.

Definition getValueAsFloat (e : Element) : outcome float :=
  match e with Scalar _ f _ => conv f | _ => Raise InvalidConversionException end.

Definition getValueAsDatetime (e : Element) : outcome Date :=
  match e with Scalar _ _ d => conv d | _ => Raise InvalidConversionException end.

Definition obind {A B} (o : outcome A) (k : A -> outcome B) : outcome B :=
  match o with
  | Ok a => k a
  | Raise e => Raise e
  | Pending => Pending
  end.

(** [e.getElementAsString(name)] and its siblings: find, then convert. *)
Definition getElementAsString (e : Element) (name : string) : outcome string :=
  obind (getElement e name) getValueAsString.

Definition getElementAsFloat (e : Element) (name : string) : outcome float :=
  obind (getElement e name) getValueAsFloat.

Definition getElementAsDatetime (e : Element) (name : string) : outcome Date :=
  obind (getElement e name) getValueAsDatetime.

(** An event: its type and its messages (each message is an element tree). *)
Record Event : Type := mkEvent { eventType : EventType; messages : list Element }.

(** [blpapi.event.MessageIterator(event).next()] *)
Definition first_message (ev : Event) : outcome Element :=
  match messages ev with
  | m :: _ => Ok m
  | [] => Raise StopIteration
  end.

(** A request under construction: the service operation it was created
    for, its array elements ([append]), its scalar elements ([set]) and
    its overrides. *)
Record Request : Type := mkRequest {
  service : string;
  operation : string;
  arrays : list (string * list string);
  scalars : list (string * arg);
  overrides : list (arg * arg)
}.

(** [svc.createRequest(operation)] *)
Definition createRequest (svc operation : string) : Request :=
  mkRequest svc operation [] [] [].

Fixpoint assoc_append (k v : string) (l : list (string * list string)) :=
  match l with
  | [] => [(k, [v])]
  | (k', vs) :: l' =>
      if bool_decide (k' = k) then (k', vs ++ [v]) :: l'
      else (k', vs) :: assoc_append k v l'
  end.

Fixpoint assoc_set {A} (k : string) (v : A) (l : list (string * A)) :=
  match l with
  | [] => [(k, v)]
  | (k', v') :: l' =>
      if bool_decide (k' = k) then (k', v) :: l'
      else (k', v') :: assoc_set k v l'
  end.

(** [request.append(name, value)] *)
Definition append (name value : string) (r : Request) : Request :=
  mkRequest (service r) (operation r) (assoc_append name value (arrays r))
            (scalars r) (overrides r).

(** [request.set(name, value)] *)
Definition set (name : string) (value : arg) (r : Request) : Request :=
  mkRequest (service r) (operation r) (arrays r)
            (assoc_set name value (scalars r)) (overrides r).

(** [o = request.getElement('overrides').appendElement()] followed by
    [o.setElement('fieldId', f)] and [o.setElement('value', v)]. *)
Definition append_override (f v : arg) (r : Request) : Request :=
  mkRequest (service r) (operation r) (arrays r) (scalars r)
            (overrides r ++ [(f, v)]).

End Blpapi.
Export Blpapi.

(** ** pandas, as far as the module uses it *)

Module Pandas.

(** [pandas.DataFrame(index=index, columns=columns)]: every cell NaN. *)
Definition DataFrame_new (idx : list Label) (cols : list string) : DataFrame :=
  mkDataFrame idx cols (map (fun _ => map (fun _ => NaN) idx) cols).

(** [df[label] = values]: a list of the wrong length is a [ValueError];
    every column carrying the label takes the values; an unknown label
    adds a column. *)
Definition set_column (label : string) (values : list cell) (df : DataFrame)
  : outcome DataFrame :=
  if bool_decide (length values = length (index df)) then
    if bool_decide (label ∈ columns df) then
      Ok (mkDataFrame (index df) (columns df)
            (zip_with (fun c old => if bool_decide (c = label) then values else old)
                      (columns df) (data df)))
    else
      Ok (mkDataFrame (index df) (columns df ++ [label]) (data df ++ [values]))
  else Raise ValueError.

(** [df.replace(old, new, inplace=True)] for a string [old]. *)
Definition replace_cell (old : string) (new : cell) (c : cell) : cell :=
  match c with
  | CStr s => if bool_decide (s = old) then new else c
  | CFloat _ => c
  end.

Definition replace (old : string) (new : cell) (df : DataFrame) : DataFrame :=
  mkDataFrame (index df) (columns df) (map (map (replace_cell old new)) (data df)).

(** [df[labels]]: for each label in turn, every column carrying it; a
    label no column carries is a [KeyError]. *)
Definition columns_named (label : string) (df : DataFrame) : list (list cell) :=
  snd <$> filter (fun p => fst p = label) (zip (columns df) (data df)).

Fixpoint select (labels : list string) (df : DataFrame) : outcome (list (list cell)) :=
  match labels with
  | [] => Ok []
  | l :: ls =>
      if bool_decide (l ∈ columns df) then
        match select ls df with
        | Ok cs => Ok (columns_named l df ++ cs)
        | other => other
        end
      else Raise (KeyError l)
  end.

(** [.values.tolist()]: the rows of a block of columns over [n] index
    entries. *)
Definition tolist (n : nat) (cols : list (list cell)) : list (list cell) :=
  map (fun i => map (fun col => nth i col NaN) cols) (seq 0 n).

(** [x[-1]] *)
Definition last_item {A} (x : list A) : outcome A :=
  match last x with
  | Some a => Ok a
  | None => Raise IndexError
  end.

(** [df.loc[row, col] = v], enlarging the table when the row or the
    column is new. *)
Definition loc_set (row : Label) (col : string) (v : cell) (df : DataFrame) : DataFrame :=
  let df1 :=
    if bool_decide (col ∈ columns df) then df
    else mkDataFrame (index df) (columns df ++ [col])
                     (data df ++ [map (fun _ => NaN) (index df)]) in
  let df2 :=
    if bool_decide (row ∈ index df1) then df1
    else mkDataFrame (index df1 ++ [row]) (columns df1)
                     (map (fun c => c ++ [NaN]) (data df1)) in
  mkDataFrame (index df2) (columns df2)
    (zip_with (fun c old =>
                 if bool_decide (c = col)
                 then zip_with (fun r x => if bool_decide (r = row) then v else x)
                               (index df2) old
                 else old)
              (columns df2) (data df2)).

(** [df.loc[row]]: the row as a series over the column labels. *)
Definition loc_row (row : Label) (df : DataFrame) : outcome pyval :=
  match list_find (fun r => r = row) (index df) with
  | Some (i, _) => Ok (PSeries (LStr <$> columns df) (map (fun c => nth i c NaN) (data df)))
  | None => Raise (KeyError (match row with LStr s => s | LDate d => strftime_Ymd d end))
  end.

End Pandas.
Export Pandas.

(** ** The world a call runs in, and the monad of the embedding *)

Module Run.

(** One call of [observer.update(security=.., field=.., data=..)], with the
    table as it was when the call was made. *)
Record Notification : Type := mkNotification {
  n_observer : nat;
  n_security : string;
  n_field : string;
  n_data : pyval
}.

(** The attributes of a [BLPTS] object.  Observers are object references;
    [None] marks an attribute that has not been assigned yet. *)
Record Attrs : Type := mkAttrs {
  observers : list nat;
  kwargs : gmap string arg;
  request : option Request;
  startDate : option arg;
  endDate : option arg;
  periodicity : option arg;
  output : option DataFrame;
  securities : option (list string);
  fields : option (list string)
}.

(** The session's log of sent requests, how many events were taken from
    its queue, what was printed, which observer calls were made, and the
    attributes of the client object. *)
Record World : Type := mkWorld {
  sent : list Request;
  cursor : nat;
  stdout : list string;
  notified : list Notification;
  self : Attrs
}.

Definition M (A : Type) : Type := World -> outcome A * World.

Definition ret {A} (a : A) : M A := fun w => (Ok a, w).

Definition raise {A} (e : exn) : M A := fun w => (Raise e, w).

Definition bind {A B} (m : M A) (k : A -> M B) : M B :=
  fun w =>
    match m w with
    | (Ok a, w') => k a w'
    | (Raise e, w') => (Raise e, w')
    | (Pending, w') => (Pending, w')
    end.

(** A vendor or pandas call that touches no state. *)
Definition lift {A} (o : outcome A) : M A := fun w => (o, w).

(** [try: body  except: handler] with a bare [except]. *)
Definition try_except {A} (body : M A) (handler : M A) : M A :=
  fun w =>
    match body w with
    | (Raise _, w') => handler w'
    | other => other
    end.

(** [print(s)] *)
Definition print (s : string) : M unit :=
  fun w => (Ok tt, mkWorld (sent w) (cursor w) (stdout w ++ [s]) (notified w) (self w)).

(** [session.sendRequest(request)] *)
Definition sendRequest (r : Request) : M unit :=
  fun w => (Ok tt, mkWorld (sent w ++ [r]) (cursor w) (stdout w) (notified w) (self w)).

(** [session.nextEvent()] on a session whose queue delivers [evs 0],
    [evs 1], ... *)
Definition nextEvent (evs : nat -> Event) : M Event :=
  fun w => (Ok (evs (cursor w)),
            mkWorld (sent w) (S (cursor w)) (stdout w) (notified w) (self w)).

Definition get_self : M Attrs := fun w => (Ok (self w), w).

Definition set_self (a : Attrs) : M unit :=
  fun w => (Ok tt, mkWorld (sent w) (cursor w) (stdout w) (notified w) a).

Definition log_call (n : Notification) : M unit :=
  fun w => (Ok tt, mkWorld (sent w) (cursor w) (stdout w) (notified w ++ [n]) (self w)).

(** [for x in l: body(x)] *)
Fixpoint for_each {A} (l : list A) (body : A -> M unit) : M unit :=
  match l with
  | [] => ret tt
  | x :: l' => bind (body x) (fun _ => for_each l' body)
  end.

(** [[f(x) for x in l]] over calls that may raise. *)
Fixpoint map_calls {A B} (f : A -> outcome B) (l : list A) : outcome (list B) :=
  match l with
  | [] => Ok []
  | x :: l' => obind (f x) (fun y => obind (map_calls f l') (fun ys => Ok (y :: ys)))
  end.

End Run.
Export Run.

Notation "x <- m ;; k" := (bind m (fun x => k))
  (at level 20, m at level 99, k at level 200, only parsing).
Notation "x <~ o ;; k" := (obind o (fun x => k))
  (at level 20, o at level 99, k at level 200, only parsing).

(** ** class BLP2 *)

Module BLP2.

(** [__init__]: the two services the client opens. *)
Definition refDataSvc : string := "//BLP/refdata".
Definition refExrSvc : string := "//BLP/exrsvc".

(** The loop every operation blocks on:
    [while True: event = session.nextEvent(); if event.eventType() == RESPONSE: break].
    One unit of fuel is one turn of the loop. *)
Fixpoint poll (evs : nat -> Event) (fuel : nat) : M Event :=
  match fuel with
  | 0 => fun w => (Pending, w)
  | S fuel' =>
      event <- nextEvent evs ;;
      if bool_decide (eventType event = RESPONSE) then ret event
      else poll evs fuel'
  end.

(** The chain of vendor calls inside [bdp]'s [try]. *)
Definition bdp_extract (event : Event) (strData : string) : outcome string :=
  msg <~ first_message event ;;
  sd <~ getElement msg SECURITY_DATA ;;
  s0 <~ getValueAsElement sd 0 ;;
  fd <~ getElement s0 FIELD_DATA ;;
  getElementAsString fd strData.

Definition bdp_request (strSecurity strData strOverrideField strOverrideValue
                        strOverrideField2 strOverrideValue2 : string) : Request :=
  let request := createRequest refDataSvc "ReferenceDataRequest" in
  let request := append "securities" strSecurity request in
  let request := append "fields" strData request in
  let request :=
    if bool_decide (strOverrideField <> "")
    then append_override (AStr strOverrideField) (AStr strOverrideValue) request
    else request in
  if bool_decide (strOverrideField2 <> "")
  then append_override (AStr strOverrideField2) (AStr strOverrideValue2) request
  else request.

Definition bdp (evs : nat -> Event) (fuel : nat)
    (strSecurity strData strOverrideField strOverrideValue
     strOverrideField2 strOverrideValue2 : string) : M pyval :=
  let request := bdp_request strSecurity strData strOverrideField strOverrideValue
                             strOverrideField2 strOverrideValue2 in
  u <- sendRequest request ;;
  event <- poll evs fuel ;;
  output <- try_except
    (output <- lift (bdp_extract event strData) ;;
     ret (if bool_decide (output = "#N/A") then "None" else output))
    (u <- print ("error with " +:+ strSecurity +:+ " " +:+ strData) ;;
     ret "Error with api data field, i.g PX_LAST") ;;
  ret (PStr output).

Definition bdh_request (strSecurity : string) (strData : list string)
    (startdate enddate : Date) (adjustmentSplit periodicity : arg) : Request :=
  let request := createRequest refDataSvc "HistoricalDataRequest" in
  let request := append "securities" strSecurity request in
  let request := fold_left (fun r strD => append "fields" strD r) strData request in
  let request := set "startDate" (AStr (strftime_Ymd startdate)) request in
  let request := set "endDate" (AStr (strftime_Ymd enddate)) request in
  let request := set "adjustmentSplit"
                     (AStr (if truthy adjustmentSplit then "TRUE" else "FALSE")) request in
  set "periodicitySelection" periodicity request.

(** [for strD in strData: output[strD] = [x.getElementAsFloat(strD) for x in fieldDataList]] *)
Fixpoint fill_columns (strData : list string) (fieldDataList : list Element)
    (output : DataFrame) : outcome DataFrame :=
  match strData with
  | [] => Ok output
  | strD :: rest =>
      col <~ map_calls (fun x => getElementAsFloat x strD) fieldDataList ;;
      output <~ set_column strD (map CFloat col) output ;;
      fill_columns rest fieldDataList output
  end.

(** Everything [bdh] does with the terminal event. *)
Definition bdh_table (event : Event) (strData : list string) : outcome DataFrame :=
  msg <~ first_message event ;;
  sd <~ getElement msg SECURITY_DATA ;;
  fieldDataArray <~ getElement sd FIELD_DATA ;;
  fieldDataList <~ map_calls (getValueAsElement fieldDataArray)
                             (seq 0 (numValues fieldDataArray)) ;;
  outDates <~ map_calls (fun x => getElementAsDatetime x DATE) fieldDataList ;;
  let output := DataFrame_new (map LDate outDates) strData in
  output <~ fill_columns strData fieldDataList output ;;
  let output := replace "#N/A History" NaN output in
  (* pandas.to_datetime over date objects keeps every date *)
  Ok output.

Definition bdh (evs : nat -> Event) (fuel : nat)
    (strSecurity : string) (strData : str_or_list) (startdate enddate : Date)
    (adjustmentSplit periodicity : arg) (singleFrame : bool) : M pyval :=
  let strData := as_list strData in
  let request := bdh_request strSecurity strData startdate enddate
                             adjustmentSplit periodicity in
  u <- sendRequest request ;;
  event <- poll evs fuel ;;
  output <- lift (bdh_table event strData) ;;
  if singleFrame then
    cols <- lift (select strData output) ;;
    let x := tolist (length (index output)) cols in
    lastPrice <- lift (last_item x) ;;
    ret (PList lastPrice)
  else ret (PDataFrame output).

(** The three nested loops of [bsrch] over one message. *)
Definition bsrch_message (msg : Element) : outcome (list string) :=
  records <~ getElement msg "DataRecords" ;;
  per_record <~ map_calls
    (fun v =>
       dfields <~ getElement v "DataFields" ;;
       map_calls (fun f => getElementAsString f "StringValue") (values dfields))
    (values records) ;;
  Ok (concat per_record).

Definition bsrch (evs : nat -> Event) (fuel : nat) (domain : arg) : M pyval :=
  let request := createRequest refExrSvc "ExcelGetGridRequest" in
  let request := set "Domain" domain request in
  u <- sendRequest request ;;
  event <- poll evs fuel ;;
  per_message <- lift (map_calls bsrch_message (messages event)) ;;
  let data := concat per_message in
  ret (PFrameOfList data).

(** [bdhOHLC] hands its [periodicity] to [bdh] as the fifth positional
    argument; [bdh]'s own [periodicity] and [singleFrame] keep their
    defaults. *)
Definition bdhOHLC (evs : nat -> Event) (fuel : nat)
    (strSecurity : string) (startdate enddate : Date) (periodicity : arg) : M pyval :=
  bdh evs fuel strSecurity (Lst ["PX_OPEN"; "PX_HIGH"; "PX_LOW"; "PX_LAST"])
      startdate enddate periodicity (AStr "DAILY") false.

End BLP2.

(** ** Module scope *)

Module Globals.

(** The names bound at module level when a method runs: the imports, the
    eight [blpapi.Name] constants, the two classes and [main]; and the
    builtins the module calls. *)
Definition module_globals : list string :=
  ["print_function"; "ABCMeta"; "abstractmethod"; "blpapi"; "datetime";
   "pandas"; "threading";
   "DATE"; "ERROR_INFO"; "EVENT_TIME"; "FIELD_DATA"; "FIELD_EXCEPTIONS";
   "FIELD_ID"; "SECURITY"; "SECURITY_DATA";
   "BLP2"; "BLPTS"; "main"].

Definition builtins : list string :=
  ["print"; "len"; "type"; "str"; "range"; "map"].

(** [name(x)] for a name looked up at module scope and called with one
    element.  An unbound name is a [NameError]; nothing that is bound
    takes an element and gives back a cell value, so such a call is a
    [TypeError]. *)
Definition call_global (name : string) (x : Element) : outcome cell :=
  if bool_decide (name ∈ module_globals ++ builtins) then Raise TypeError
  else Raise (NameError name).

End Globals.
Export Globals.

(** ** class BLPTS *)

Module BLPTS.

Definition refDataSvc : string := "//BLP/refdata".

Definition with_observers (v : list nat) (a : Attrs) : Attrs :=
  mkAttrs v (kwargs a) (request a) (startDate a) (endDate a) (periodicity a)
          (output a) (securities a) (fields a).
Definition with_kwargs (v : gmap string arg) (a : Attrs) : Attrs :=
  mkAttrs (observers a) v (request a) (startDate a) (endDate a) (periodicity a)
          (output a) (securities a) (fields a).
Definition with_request (v : Request) (a : Attrs) : Attrs :=
  mkAttrs (observers a) (kwargs a) (Some v) (startDate a) (endDate a) (periodicity a)
          (output a) (securities a) (fields a).
Definition with_startDate (v : arg) (a : Attrs) : Attrs :=
  mkAttrs (observers a) (kwargs a) (request a) (Some v) (endDate a) (periodicity a)
          (output a) (securities a) (fields a).
Definition with_endDate (v : arg) (a : Attrs) : Attrs :=
  mkAttrs (observers a) (kwargs a) (request a) (startDate a) (Some v) (periodicity a)
          (output a) (securities a) (fields a).
Definition with_periodicity (v : arg) (a : Attrs) : Attrs :=
  mkAttrs (observers a) (kwargs a) (request a) (startDate a) (endDate a) (Some v)
          (output a) (securities a) (fields a).
Definition with_output (v : DataFrame) (a : Attrs) : Attrs :=
  mkAttrs (observers a) (kwargs a) (request a) (startDate a) (endDate a) (periodicity a)
          (Some v) (securities a) (fields a).
Definition with_securities (v : list string) (a : Attrs) : Attrs :=
  mkAttrs (observers a) (kwargs a) (request a) (startDate a) (endDate a) (periodicity a)
          (output a) (Some v) (fields a).
Definition with_fields (v : list string) (a : Attrs) : Attrs :=
  mkAttrs (observers a) (kwargs a) (request a) (startDate a) (endDate a) (periodicity a)
          (output a) (securities a) (Some v).

(** [__init__] before any request is filled: no observers, the keyword
    arguments kept, nothing else assigned. *)
Definition init (kw : gmap string arg) : Attrs :=
  mkAttrs [] kw None None None None None None None.

(** [self.x = v] *)
Definition assign (f : Attrs -> Attrs) : M unit :=
  a <- get_self ;; set_self (f a).

(** Reading [self.x]: an attribute never assigned is an [AttributeError]. *)
Definition attr {A} (name : string) (f : Attrs -> option A) : M A :=
  a <- get_self ;;
  match f a with
  | Some v => ret v
  | None => raise (AttributeError name)
  end.

(** [kwargs[key]] *)
Definition item (kw : gmap string arg) (key : string) : outcome arg :=
  match kw !! key with
  | Some v => Ok v
  | None => Raise (KeyError key)
  end.

(** [x.strftime('%Y%m%d')]: only date objects have the method. *)
Definition strftime (x : arg) : outcome string :=
  match x with
  | ADate d => Ok (strftime_Ymd d)
  | _ => Raise (AttributeError "strftime")
  end.

(** A call on [self.request], which changes the request object in place. *)
Definition on_request (f : Request -> Request) : M unit :=
  r <- attr "request" request ;; assign (with_request (f r)).

Definition fillRequest (securities fields : str_or_list) (kw : gmap string arg) : M unit :=
  u <- assign (with_kwargs kw) ;;
  let securities := as_list securities in
  let fields := as_list fields in
  u <- (if bool_decide (is_Some (kw !! "startDate")) then
          u <- assign (with_request (createRequest refDataSvc "HistoricalDataRequest")) ;;
          sd <- lift (item kw "startDate") ;;
          u <- assign (with_startDate sd) ;;
          ed <- lift (item kw "endDate") ;;
          u <- assign (with_endDate ed) ;;
          u <- (if bool_decide (is_Some (kw !! "periodicity")) then
                  p <- lift (item kw "periodicity") ;; assign (with_periodicity p)
                else assign (with_periodicity (AStr "DAILY"))) ;;
          sd <- attr "startDate" startDate ;;
          s <- lift (strftime sd) ;;
          u <- on_request (set "startDate" (AStr s)) ;;
          ed <- attr "endDate" endDate ;;
          s <- lift (strftime ed) ;;
          u <- on_request (set "endDate" (AStr s)) ;;
          p <- attr "periodicity" periodicity ;;
          on_request (set "periodicitySelection" p)
        else
          u <- assign (with_request (createRequest refDataSvc "ReferenceDataRequest")) ;;
          u <- assign (with_output (DataFrame_new (LStr <$> securities) fields)) ;;
          if bool_decide (is_Some (kw !! "strOverrideField")) then
            f <- lift (item kw "strOverrideField") ;;
            v <- lift (item kw "strOverrideValue") ;;
            on_request (append_override f v)
          else ret tt) ;;
  u <- assign (with_securities securities) ;;
  u <- assign (with_fields fields) ;;
  u <- for_each securities (fun s => on_request (append "securities" s)) ;;
  for_each fields (fun f => on_request (append "fields" f)).

(** [__init__]: a new client on a session of its own, with no observers
    and the keyword arguments kept; the request is filled at once when at
    least one security and one field are given. *)
Definition construct (securities fields : str_or_list) (kw : gmap string arg)
  : outcome unit * World :=
  let w := mkWorld [] 0 [] [] (init kw) in
  (if bool_decide (0 < len securities /\ 0 < len fields)
   then fillRequest securities fields kw else ret tt) w.

(** [register], [unregister], [unregisterAll] on the observer list. *)
Definition register (observer : nat) (a : Attrs) : Attrs :=
  if bool_decide (observer ∉ observers a)
  then with_observers (observers a ++ [observer]) a
  else a.

(** [l.remove(x)]: the first occurrence goes. *)
Fixpoint list_remove (x : nat) (l : list nat) : list nat :=
  match l with
  | [] => []
  | y :: l' => if bool_decide (y = x) then l' else y :: list_remove x l'
  end.

Definition unregister (observer : nat) (a : Attrs) : Attrs :=
  if bool_decide (observer ∈ observers a)
  then with_observers (list_remove observer (observers a)) a
  else a.

Definition unregisterAll (a : Attrs) : Attrs :=
  match observers a with
  | [] => a
  | _ :: _ => with_observers [] a
  end.

(** The statements of [get] before its loop: refill the request when new
    securities or fields are given, then send [self.request]. *)
Definition get_send (newSecurities newFields : str_or_list) (kw : gmap string arg) : M unit :=
  u <- (if bool_decide (0 < len newSecurities \/ 0 < len newFields)
        then fillRequest newSecurities newFields kw else ret tt) ;;
  r <- attr "request" request ;;
  sendRequest r.

Section Callbacks.

(** What the observer objects do when called: [update n] is the
    exception the call [n] ends with, if any. *)
Variable update : Notification -> option exn.

(** [pandas.to_datetime] on a date string ([None]: pandas cannot parse it). *)
Variable parse_datetime : string -> option Date.

(** [for observer in self.observers: observer.update(...)], every call with
    the arguments [updateObservers] was given. *)
Definition updateObservers (security field : string) (data : pyval) : M unit :=
  a <- get_self ;;
  for_each (observers a) (fun observer =>
    let n := mkNotification observer security field data in
    u <- log_call n ;;
    match update n with
    | Some e => raise e
    | None => ret tt
    end).

Definition to_datetime (l : Label) : outcome Label :=
  match l with
  | LDate d => Ok (LDate d)
  | LStr s =>
      match parse_datetime s with
      | Some d => Ok (LDate d)
      | None => Raise ValueError
      end
  end.

(** One column of the historical branch: the row's value where the row
    has the field, NaN where it has not. *)
Definition field_column (field : string) (fieldDataList : list Element) : outcome (list cell) :=
  map_calls (fun row =>
               if hasElement row field then
                 e <~ getElement row field ;;
                 x <~ getValueAsFloat e ;;
                 Ok (CFloat x)
               else Ok NaN)
            fieldDataList.

(** [for field in self.fields: ...] of the historical branch, threading
    the table the observers are shown. *)
Fixpoint historical_fields (security : string) (fieldDataList : list Element)
    (fields : list string) (outDF : DataFrame) : M DataFrame :=
  match fields with
  | [] => ret outDF
  | field :: rest =>
      data <- lift (field_column field fieldDataList) ;;
      outDF <- lift (set_column field data outDF) ;;
      u <- updateObservers security field (PDataFrame outDF) ;;
      historical_fields security fieldDataList rest outDF
  end.

Definition historical (event : Event) : M unit :=
  msg <- lift (first_message event) ;;
  output <- lift (getElement msg SECURITY_DATA) ;;
  sec <- lift (getElement output SECURITY) ;;
  security <- lift (getValueAsString sec) ;;
  fieldDataArray <- lift (getElement output FIELD_DATA) ;;
  fieldDataList <- lift (map_calls (getValueAsElement fieldDataArray)
                                   (seq 0 (numValues fieldDataArray))) ;;
  dates <- lift (map_calls (fun x => d <~ getElement x DATE ;; getValueAsString d)
                           fieldDataList) ;;
  columns0 <- attr "fields" Run.fields ;;
  let outDF := DataFrame_new (LStr <$> dates) columns0 in
  idx <- lift (map_calls to_datetime (index outDF)) ;;
  let outDF := mkDataFrame idx (columns outDF) (data outDF) in
  self_fields <- attr "fields" Run.fields ;;
  outDF <- historical_fields security fieldDataList self_fields outDF ;;
  updateObservers security "ALL" (PDataFrame outDF).

(** [for j in range(0, n_elmts): ...] of the reference branch. *)
Definition reference_field (output : Element) (security : string) (j : nat) : M unit :=
  fd <- lift (getElement output FIELD_DATA) ;;
  data <- lift (getElementAt fd j) ;;
  let field := fst data in
  outData <- lift (call_global "_dict_from_element" (snd data)) ;;
  u <- updateObservers security field (PCell outData) ;;
  out <- attr "output" Run.output ;;
  assign (with_output (loc_set (LStr security) field outData out)).

Definition reference (event : Event) (i : nat) : M unit :=
  msg <- lift (first_message event) ;;
  sd <- lift (getElement msg SECURITY_DATA) ;;
  output <- lift (getValueAsElement sd i) ;;
  fd <- lift (getElement output FIELD_DATA) ;;
  let n_elmts := numElements fd in
  sec <- lift (getElement output SECURITY) ;;
  security <- lift (getValueAsString sec) ;;
  u <- for_each (seq 0 n_elmts) (reference_field output security) ;;
  if bool_decide (0 < n_elmts) then
    out <- attr "output" Run.output ;;
    row <- lift (loc_row (LStr security) out) ;;
    updateObservers security "ALL" row
  else print ("Empty response received for " +:+ security).

(** The body of the [if event.eventType() in [RESPONSE, PARTIAL_RESPONSE]]. *)
Definition process (event : Event) : M unit :=
  msg <- lift (first_message event) ;;
  sd <- lift (getElement msg SECURITY_DATA) ;;
  let responseSize := numValues sd in
  for_each (seq 0 responseSize) (fun i =>
    a <- get_self ;;
    if bool_decide (is_Some (kwargs a !! "startDate")) then historical event
    else reference event i).

(** [while True: ...] of [get]; falling out of the loop, [get] returns
    nothing, that is [None]. *)
Fixpoint get_loop (evs : nat -> Event) (fuel : nat) : M pyval :=
  match fuel with
  | 0 => fun w => (Pending, w)
  | S fuel' =>
      event <- nextEvent evs ;;
      u <- (if bool_decide (eventType event ∈ [RESPONSE; PARTIAL_RESPONSE])
            then process event else ret tt) ;;
      if bool_decide (eventType event = RESPONSE) then ret PNone
      else get_loop evs fuel'
  end.

Definition get (evs : nat -> Event) (fuel : nat)
    (newSecurities newFields : str_or_list) (kw : gmap string arg) : M pyval :=
  u <- get_send newSecurities newFields kw ;;
  get_loop evs fuel.

End Callbacks.

End BLPTS.

(** * Properties *)

(** ** The polling loop *)

(** The world after [k] more events were taken from the queue. *)
Definition advance (k : nat) (w : World) : World :=
  mkWorld (sent w) (cursor w + k) (stdout w) (notified w) (self w).

(** Counting from queue position [c], the [n]-th event is the first one
    of type RESPONSE. *)
Definition first_response_at (evs : nat -> Event) (c n : nat) : Prop :=
  eventType (evs (c + n)) = RESPONSE /\
  forall k, k < n -> eventType (evs (c + k)) <> RESPONSE.

Lemma advance_0 w : advance 0 w = w.
Proof. destruct w; unfold advance; simpl. f_equal. lia. Qed.

Lemma advance_advance j k w : advance j (advance k w) = advance (k + j) w.
Proof. unfold advance; simpl. f_equal. lia. Qed.

Lemma nextEvent_advance evs w : nextEvent evs w = (Ok (evs (cursor w)), advance 1 w).
Proof. unfold nextEvent, advance. do 2 f_equal. lia. Qed.

Lemma first_response_at_shift evs c n :
  eventType (evs c) <> RESPONSE ->
  first_response_at evs (S c) n <-> first_response_at evs c (S n).
Proof.
  intros Hc. unfold first_response_at.
  replace (S c + n) with (c + S n) by lia. split.
  - intros [H1 H2]. split; [exact H1|]. intros [|k] Hk.
    + now replace (c + 0) with c by lia.
    + replace (c + S k) with (S c + k) by lia. apply H2. lia.
  - intros [H1 H2]. split; [exact H1|]. intros k Hk.
    replace (S c + k) with (c + S k) by lia. apply H2. lia.
Qed.

(** The loop either is still waiting after [fuel] turns, none of the
    events so far being a RESPONSE, or has returned the first RESPONSE
    event.  It never raises. *)
Lemma poll_cases evs fuel : forall w,
  (BLP2.poll evs fuel w = (Pending, advance fuel w) /\
   forall k, k < fuel -> eventType (evs (cursor w + k)) <> RESPONSE) \/
  (exists n, n < fuel /\ first_response_at evs (cursor w) n /\
             BLP2.poll evs fuel w = (Ok (evs (cursor w + n)), advance (S n) w)).
Proof.
  induction fuel as [|fuel IH]; intros w.
  - left. split; [|lia]. simpl. now rewrite advance_0.
  - simpl. unfold bind. rewrite nextEvent_advance.
    case_bool_decide as Hty.
    + right. exists 0. split; [lia|]. split.
      * split; [now replace (cursor w + 0) with (cursor w) by lia | lia].
      * unfold ret. now replace (cursor w + 0) with (cursor w) by lia.
    + destruct (IH (advance 1 w)) as [[Hp Hk]|(n & Hn & Hf & Hp)].
      * left. rewrite Hp, advance_advance. split; [reflexivity|].
        intros [|k] Hlt.
        -- now replace (cursor w + 0) with (cursor w) by lia.
        -- specialize (Hk k). simpl in Hk.
           replace (cursor w + S k) with (cursor w + 1 + k) by lia. apply Hk. lia.
      * right. exists (S n). split; [lia|]. simpl in Hf, Hp.
        replace (cursor w + 1) with (S (cursor w)) in Hf, Hp by lia. split.
        -- now apply first_response_at_shift.
        -- rewrite Hp, advance_advance.
           now replace (S (cursor w) + n) with (cursor w + S n) by lia.
Qed.

Lemma first_response_at_unique evs c n m :
  first_response_at evs c n -> first_response_at evs c m -> n = m.
Proof.
  intros [Hn Hn'] [Hm Hm'].
  destruct (lt_eq_lt_dec n m) as [[Hlt|Heq]|Hlt]; [|exact Heq|].
  - exfalso. now apply (Hm' n).
  - exfalso. now apply (Hn' m).
Qed.

Lemma poll_ok evs n fuel w :
  first_response_at evs (cursor w) n -> n < fuel ->
  BLP2.poll evs fuel w = (Ok (evs (cursor w + n)), advance (S n) w).
Proof.
  intros Hf Hlt. destruct (poll_cases evs fuel w) as [[_ Hk]|(m & Hm & Hf' & Hp)].
  - exfalso. destruct Hf as [Hf _]. now apply (Hk n).
  - now rewrite (first_response_at_unique _ _ _ _ Hf Hf').
Qed.

Lemma poll_pending evs fuel w :
  (forall k, k < fuel -> eventType (evs (cursor w + k)) <> RESPONSE) ->
  BLP2.poll evs fuel w = (Pending, advance fuel w).
Proof.
  intros Hk. destruct (poll_cases evs fuel w) as [[Hp _]|(m & Hm & [Hf _] & _)].
  - exact Hp.
  - exfalso. now apply (Hk m).
Qed.

(** ** Requests sent by BLP2 *)

Ltac poll_split evs fuel w :=
  let n := fresh "n" in
  let Hn := fresh "Hn" in
  let Hf := fresh "Hfirst" in
  let Hp := fresh "Hpoll" in
  destruct (poll_cases evs fuel w) as [[Hp _]|(n & Hn & Hf & Hp)];
  rewrite Hp; clear Hp.

Lemma bdp_sent evs fuel sec fld o1 v1 o2 v2 w :
  sent (snd (BLP2.bdp evs fuel sec fld o1 v1 o2 v2 w)) =
  sent w ++ [BLP2.bdp_request sec fld o1 v1 o2 v2].
Proof.
  unfold BLP2.bdp, bind, sendRequest.
  match goal with |- context [BLP2.poll evs fuel ?w1] => poll_split evs fuel w1 end.
  - reflexivity.
  - unfold try_except, lift, ret, print.
    destruct (BLP2.bdp_extract _ _); reflexivity.
Qed.

Lemma bdh_sent evs fuel sec flds sd ed adj per single w :
  sent (snd (BLP2.bdh evs fuel sec flds sd ed adj per single w)) =
  sent w ++ [BLP2.bdh_request sec (as_list flds) sd ed adj per].
Proof.
  unfold BLP2.bdh, bind, sendRequest.
  match goal with |- context [BLP2.poll evs fuel ?w1] => poll_split evs fuel w1 end.
  - reflexivity.
  - unfold lift, ret.
    destruct (BLP2.bdh_table _ _) as [df| |]; try reflexivity.
    destruct single; [|reflexivity].
    destruct (select _ _); try reflexivity.
    destruct (last_item _); reflexivity.
Qed.

Lemma bsrch_sent evs fuel domain w :
  sent (snd (BLP2.bsrch evs fuel domain w)) =
  sent w ++ [set "Domain" domain (createRequest BLP2.refExrSvc "ExcelGetGridRequest")].
Proof.
  unfold BLP2.bsrch, bind, sendRequest.
  match goal with |- context [BLP2.poll evs fuel ?w1] => poll_split evs fuel w1 end.
  - reflexivity.
  - unfold lift, ret. destruct (map_calls _ _); reflexivity.
Qed.

Lemma operation_append k v r : operation (append k v r) = operation r.
Proof. reflexivity. Qed.

Lemma operation_set k v r : operation (set k v r) = operation r.
Proof. reflexivity. Qed.

Lemma operation_fold_append k l : forall r,
  operation (fold_left (fun r x => append k x r) l r) = operation r.
Proof. induction l as [|x l IH]; intros r; simpl; [reflexivity|]. now rewrite IH. Qed.

Lemma bdp_request_operation sec fld o1 v1 o2 v2 :
  operation (BLP2.bdp_request sec fld o1 v1 o2 v2) = "ReferenceDataRequest".
Proof. unfold BLP2.bdp_request. repeat case_bool_decide; reflexivity. Qed.

Lemma bdh_request_operation sec flds sd ed adj per :
  operation (BLP2.bdh_request sec flds sd ed adj per) = "HistoricalDataRequest".
Proof.
  unfold BLP2.bdh_request. rewrite !operation_set, operation_fold_append. reflexivity.
Qed.

(** A call of one of the request-issuing methods of [BLP2], with its
    arguments. *)
Inductive BLP2_call : Type :=
| Call_bdp (strSecurity strData strOverrideField strOverrideValue
            strOverrideField2 strOverrideValue2 : string)
| Call_bdh (strSecurity : string) (strData : str_or_list) (startdate enddate : Date)
           (adjustmentSplit periodicity : arg) (singleFrame : bool)
| Call_bsrch (domain : arg)
| Call_bdhOHLC (strSecurity : string) (startdate enddate : Date) (periodicity : arg).

Definition run_call (evs : nat -> Event) (fuel : nat) (c : BLP2_call) : M pyval :=
  match c with
  | Call_bdp s d o1 v1 o2 v2 => BLP2.bdp evs fuel s d o1 v1 o2 v2
  | Call_bdh s d sd ed adj per single => BLP2.bdh evs fuel s d sd ed adj per single
  | Call_bsrch domain => BLP2.bsrch evs fuel domain
  | Call_bdhOHLC s sd ed per => BLP2.bdhOHLC evs fuel s sd ed per
  end.

(** The vendor operation each method asks for. *)
Definition request_type_of (c : BLP2_call) : string :=
  match c with
  | Call_bdp _ _ _ _ _ _ => "ReferenceDataRequest"
  | Call_bdh _ _ _ _ _ _ _ => "HistoricalDataRequest"
  | Call_bsrch _ => "ExcelGetGridRequest"
  | Call_bdhOHLC _ _ _ _ => "HistoricalDataRequest"
  end.

(** The requests a run added to the session's log. *)
Definition newly_sent (w w' : World) : list Request := drop (length (sent w)) (sent w').

(** The claim of C2 as it is written: every request a call sends is a
    reference-data or a historical-data request. *)
Definition only_two_request_types (evs : nat -> Event) (fuel : nat) (c : BLP2_call)
    (w : World) : Prop :=
  Forall (fun r => operation r = "ReferenceDataRequest" \/
                   operation r = "HistoricalDataRequest")
         (newly_sent w (snd (run_call evs fuel c w))).

Definition empty_world : World := mkWorld [] 0 [] [] (BLPTS.init ∅).

(** A session that answers at once with an empty RESPONSE. *)
Definition bare_response : nat -> Event := fun _ => mkEvent RESPONSE [].

(** C2, counterexample: [bsrch("fi:EX")] sends a request whose type is
    ExcelGetGridRequest, neither of the two types the claim allows. *)
Lemma C2_bsrch_sends_third_type :
  ~ only_two_request_types bare_response 1 (Call_bsrch (AStr "fi:EX")) empty_world.
Proof.
  unfold only_two_request_types. vm_compute.
  intros H. apply Forall_cons in H as [[H|H] _]; discriminate H.
Qed.

(** C2, amended: every call of [bdp], [bdh], [bsrch] or [bdhOHLC] sends
    exactly one request through the session, whatever the event stream
    and however long the call is observed; its type is ReferenceDataRequest
    for [bdp], HistoricalDataRequest for [bdh] and [bdhOHLC], and
    ExcelGetGridRequest for [bsrch]: three vendor request types, not two. *)
Theorem C2_request_types (evs : nat -> Event) (fuel : nat) (c : BLP2_call) (w : World) :
  exists r, newly_sent w (snd (run_call evs fuel c w)) = [r] /\
            operation r = request_type_of c /\
            (operation r = "ReferenceDataRequest" \/
             operation r = "HistoricalDataRequest" \/
             operation r = "ExcelGetGridRequest").
Proof.
  unfold newly_sent.
  destruct c as [s d o1 v1 o2 v2|s d sd ed adj per single|domain|s sd ed per]; simpl.
  - rewrite bdp_sent, drop_app_length. eexists; split; [reflexivity|].
    rewrite bdp_request_operation. auto.
  - rewrite bdh_sent, drop_app_length. eexists; split; [reflexivity|].
    rewrite bdh_request_operation. auto.
  - rewrite bsrch_sent, drop_app_length. eexists; split; [reflexivity|].
    rewrite operation_set. simpl. auto.
  - unfold BLP2.bdhOHLC. rewrite bdh_sent, drop_app_length.
    eexists; split; [reflexivity|]. rewrite bdh_request_operation. auto.
Qed.

(** C9: the request [bdhOHLC] sends is a historical request whose
    periodicitySelection is 'DAILY' whatever [periodicity] is, and whose
    adjustmentSplit is 'TRUE' exactly when [periodicity] is truthy. *)
Theorem C9_bdhOHLC_periodicity_is_adjustmentSplit
    (evs : nat -> Event) (fuel : nat) (strSecurity : string)
    (startdate enddate : Date) (periodicity : arg) (w : World) :
  exists r,
    newly_sent w (snd (BLP2.bdhOHLC evs fuel strSecurity startdate enddate periodicity w)) = [r] /\
    operation r = "HistoricalDataRequest" /\
    assoc "periodicitySelection" (scalars r) = Some (AStr "DAILY") /\
    (assoc "adjustmentSplit" (scalars r) = Some (AStr "TRUE") <-> truthy periodicity = true) /\
    (assoc "adjustmentSplit" (scalars r) = Some (AStr "FALSE") <-> truthy periodicity = false).
Proof.
  unfold newly_sent, BLP2.bdhOHLC. rewrite bdh_sent, drop_app_length.
  eexists; split; [reflexivity|]. split; [apply bdh_request_operation|].
  split; [reflexivity|]. cbn.
  destruct (truthy periodicity); split; split; intros H; try reflexivity; discriminate H.
Qed.

(** ** The observer list of BLPTS *)

(** The operations on the observer list. *)
Inductive observer_op : Type :=
| Register (observer : nat)
| Unregister (observer : nat)
| UnregisterAll.

Definition apply_op (a : Attrs) (op : observer_op) : Attrs :=
  match op with
  | Register o => BLPTS.register o a
  | Unregister o => BLPTS.unregister o a
  | UnregisterAll => BLPTS.unregisterAll a
  end.

(** A client object after construction and any sequence of the three
    operations. *)
Definition after_ops (kw : gmap string arg) (ops : list observer_op) : Attrs :=
  fold_left apply_op ops (BLPTS.init kw).

Lemma filter_ne_absent (x : nat) (l : list nat) :
  x ∉ l -> filter (fun y => y <> x) l = l.
Proof.
  induction l as [|y l IH]; intros Hx; [reflexivity|].
  apply not_elem_of_cons in Hx as [Hxy Hx].
  rewrite filter_cons_True by congruence. now rewrite IH.
Qed.

Lemma list_remove_filter (x : nat) (l : list nat) :
  NoDup l -> BLPTS.list_remove x l = filter (fun y => y <> x) l.
Proof.
  induction l as [|y l IH]; intros Hnd; [reflexivity|].
  apply NoDup_cons in Hnd as [Hy Hnd]. simpl.
  case_bool_decide as Hxy.
  - subst y. rewrite filter_cons_False by auto.
    now rewrite filter_ne_absent.
  - rewrite filter_cons_True by exact Hxy. now rewrite IH.
Qed.

Lemma register_observers o a :
  observers (BLPTS.register o a) =
  if bool_decide (o ∈ observers a) then observers a else observers a ++ [o].
Proof.
  unfold BLPTS.register. repeat case_bool_decide; try reflexivity; tauto.
Qed.

Lemma unregister_observers o a :
  NoDup (observers a) ->
  observers (BLPTS.unregister o a) = filter (fun y => y <> o) (observers a).
Proof.
  intros Hnd. unfold BLPTS.unregister. case_bool_decide as Hin; simpl.
  - now apply list_remove_filter.
  - now rewrite filter_ne_absent.
Qed.

Lemma unregisterAll_observers a : observers (BLPTS.unregisterAll a) = [].
Proof. unfold BLPTS.unregisterAll. destruct (observers a) eqn:E; [exact E|reflexivity]. Qed.

Lemma apply_op_NoDup a op : NoDup (observers a) -> NoDup (observers (apply_op a op)).
Proof.
  intros Hnd. destruct op as [o|o|]; simpl.
  - rewrite register_observers. case_bool_decide as Hin; [exact Hnd|].
    apply NoDup_app. split; [exact Hnd|]. split.
    + intros x Hx Hx'. apply list_elem_of_singleton in Hx'. now subst.
    + apply NoDup_singleton.
  - rewrite unregister_observers by exact Hnd. now apply NoDup_filter.
  - rewrite unregisterAll_observers. apply NoDup_nil_2.
Qed.

Lemma fold_ops_NoDup ops : forall a,
  NoDup (observers a) -> NoDup (observers (fold_left apply_op ops a)).
Proof.
  induction ops as [|op ops IH]; intros a Hnd; simpl; [exact Hnd|].
  apply IH. now apply apply_op_NoDup.
Qed.

Lemma after_ops_NoDup kw ops : NoDup (observers (after_ops kw ops)).
Proof. apply fold_ops_NoDup. simpl. apply NoDup_nil_2. Qed.

(** C10: after construction and any sequence of [register], [unregister]
    and [unregisterAll], the observer list has no duplicates; on such a
    list, registering an observer that is already there changes nothing
    (so [register] is idempotent), [unregister] takes out the given
    observer and nothing else, keeping the order of the others, and
    changes nothing when the observer is absent, and [unregisterAll]
    leaves the list empty. *)
Theorem C10_observer_list_has_no_duplicates
    (kw : gmap string arg) (ops : list observer_op) (o : nat) :
  let a := after_ops kw ops in
  NoDup (observers a) /\
  NoDup (observers (BLPTS.register o a)) /\
  NoDup (observers (BLPTS.unregister o a)) /\
  NoDup (observers (BLPTS.unregisterAll a)) /\
  (o ∈ observers a -> BLPTS.register o a = a) /\
  (o ∉ observers a -> observers (BLPTS.register o a) = observers a ++ [o]) /\
  BLPTS.register o (BLPTS.register o a) = BLPTS.register o a /\
  observers (BLPTS.unregister o a) = filter (fun x => x <> o) (observers a) /\
  (o ∉ observers a -> BLPTS.unregister o a = a) /\
  observers (BLPTS.unregisterAll a) = [].
Proof.
  intros a. pose proof (after_ops_NoDup kw ops) as Hnd. fold a in Hnd.
  split; [exact Hnd|].
  split; [exact (apply_op_NoDup a (Register o) Hnd)|].
  split; [exact (apply_op_NoDup a (Unregister o) Hnd)|].
  split; [exact (apply_op_NoDup a UnregisterAll Hnd)|].
  split; [intros Hin; unfold BLPTS.register; case_bool_decide; [tauto|reflexivity]|].
  split; [intros Hout; rewrite register_observers; case_bool_decide; [tauto|reflexivity]|].
  split.
  { unfold BLPTS.register at 1. case_bool_decide as Hin; [|reflexivity].
    exfalso. apply Hin. rewrite register_observers.
    case_bool_decide as Hin'; [exact Hin'|]. apply elem_of_app. right.
    now apply list_elem_of_singleton. }
  split; [now apply unregister_observers|].
  split; [intros Hout; unfold BLPTS.unregister; case_bool_decide; [tauto|reflexivity]|].
  apply unregisterAll_observers.
Qed.

(** ** Notifying observers *)

(** The world after the observer calls [ns] were made. *)
Definition notify (ns : list Notification) (w : World) : World :=
  mkWorld (sent w) (cursor w) (stdout w) (notified w ++ ns) (self w).

(** The observer calls a run added to the log. *)
Definition newly_notified (w w' : World) : list Notification :=
  drop (length (notified w)) (notified w').

Lemma notify_nil w : notify [] w = w.
Proof. destruct w; unfold notify; simpl. now rewrite app_nil_r. Qed.



Section Fanout.

Variable update : Notification -> option exn.
Variables (security field : string) (data : pyval).

Let call (observer : nat) : Notification := mkNotification observer security field data.

Let body (observer : nat) : M unit :=
  u <- log_call (call observer) ;;
  match update (call observer) with
  | Some e => raise e
  | None => ret tt
  end.

Lemma fanout_all (l : list nat) : forall w,
  (forall o, o ∈ l -> update (call o) = None) ->
  for_each l body w = (Ok tt, notify (call <$> l) w).
Proof.
  induction l as [|o l IH]; intros w Hall; simpl.
  - unfold ret. now rewrite notify_nil.
  - unfold bind at 1. unfold body at 1. unfold bind, log_call.
    rewrite (Hall o) by apply list_elem_of_here. unfold ret.
    rewrite IH by (intros o' Ho'; apply Hall; now apply list_elem_of_further).
    f_equal. unfold notify; simpl. now rewrite <- app_assoc.
Qed.

Lemma fanout_stops (pre post : list nat) (o : nat) (e : exn) : forall w,
  (forall x, x ∈ pre -> update (call x) = None) ->
  update (call o) = Some e ->
  for_each (pre ++ o :: post) body w = (Raise e, notify (call <$> (pre ++ [o])) w).
Proof.
  induction pre as [|x pre IH]; intros w Hpre Ho; simpl.
  - unfold bind at 1. unfold body at 1. unfold bind, log_call. rewrite Ho.
    reflexivity.
  - unfold bind at 1. unfold body at 1. unfold bind, log_call.
    rewrite (Hpre x) by apply list_elem_of_here. unfold ret.
    rewrite IH; [|intros y Hy; apply Hpre; now apply list_elem_of_further|exact Ho].
    f_equal. unfold notify; simpl. now rewrite <- app_assoc.
Qed.

Lemma updateObservers_all w :
  (forall o, o ∈ observers (self w) -> update (call o) = None) ->
  BLPTS.updateObservers update security field data w =
  (Ok tt, notify (call <$> observers (self w)) w).
Proof. intros H. unfold BLPTS.updateObservers, bind, get_self. now apply fanout_all. Qed.

Lemma updateObservers_stops w pre o post e :
  observers (self w) = pre ++ o :: post ->
  (forall x, x ∈ pre -> update (call x) = None) ->
  update (call o) = Some e ->
  BLPTS.updateObservers update security field data w =
  (Raise e, notify (call <$> (pre ++ [o])) w).
Proof.
  intros Hobs Hpre Ho. unfold BLPTS.updateObservers, bind, get_self.
  rewrite Hobs. now apply fanout_stops.
Qed.

End Fanout.

Lemma first_raising (update : Notification -> option exn) (call : nat -> Notification)
    (l : list nat) :
  (forall o, o ∈ l -> update (call o) = None) \/
  (exists pre o post e, l = pre ++ o :: post /\
                        (forall x, x ∈ pre -> update (call x) = None) /\
                        update (call o) = Some e).
Proof.
  induction l as [|x l IH].
  - left. intros o Ho. now apply elem_of_nil in Ho.
  - destruct (update (call x)) as [e|] eqn:Hx.
    + right. exists [], x, l, e. split; [reflexivity|]. split; [|exact Hx].
      intros y Hy. now apply elem_of_nil in Hy.
    + destruct IH as [Hall|(pre & o & post & e & -> & Hpre & Ho)].
      * left. intros o Ho. apply elem_of_cons in Ho as [->|Ho]; auto.
      * right. exists (x :: pre), o, post, e. split; [reflexivity|]. split; [|exact Ho].
        intros y Hy. apply elem_of_cons in Hy as [->|Hy]; auto.
Qed.






(** ** What the BLP2 operations return *)

(** The world after a request was sent, and after a line was printed. *)
Definition sending (r : Request) (w : World) : World :=
  mkWorld (sent w ++ [r]) (cursor w) (stdout w) (notified w) (self w).

Definition printing (s : string) (w : World) : World :=
  mkWorld (sent w) (cursor w) (stdout w ++ [s]) (notified w) (self w).

(** Vendor and pandas calls finish: they give a value or raise. *)
Lemma map_calls_finished {A B} (f : A -> outcome B) (l : list A) :
  (forall x, f x <> Pending) -> map_calls f l <> Pending.
Proof.
  intros Hf. induction l as [|x l IH]; simpl; [discriminate|].
  unfold obind. specialize (Hf x). destruct (f x); try congruence.
  destruct (map_calls f l); congruence.
Qed.

Ltac vendor_finished :=
  unfold getElementAsString, getElementAsFloat, getElementAsDatetime, obind,
         first_message, getElement, getValueAsElement, getValueAsString,
         getValueAsFloat, getValueAsDatetime, getElementAt, conv;
  repeat case_match; congruence.

Lemma getValueAsElement_finished e i : getValueAsElement e i <> Pending.
Proof. vendor_finished. Qed.

Lemma getElementAsDatetime_finished e k : getElementAsDatetime e k <> Pending.
Proof. vendor_finished. Qed.

Lemma getElementAsFloat_finished e k : getElementAsFloat e k <> Pending.
Proof. vendor_finished. Qed.

Lemma getElementAsString_finished e k : getElementAsString e k <> Pending.
Proof. vendor_finished. Qed.

Lemma bdp_extract_finished ev fld : BLP2.bdp_extract ev fld <> Pending.
Proof. unfold BLP2.bdp_extract. vendor_finished. Qed.

Lemma set_column_finished l v df : set_column l v df <> Pending.
Proof. unfold set_column. repeat case_bool_decide; discriminate. Qed.

Lemma fill_columns_finished flds rows : forall df,
  BLP2.fill_columns flds rows df <> Pending.
Proof.
  induction flds as [|f flds IH]; intros df; simpl; [discriminate|].
  unfold obind.
  pose proof (map_calls_finished (fun x => getElementAsFloat x f) rows
                (fun x => getElementAsFloat_finished x f)) as H1.
  destruct (map_calls _ rows) as [col| |]; try congruence.
  pose proof (set_column_finished f (map CFloat col) df) as H2.
  destruct (set_column _ _ _); first [congruence | apply IH].
Qed.

Lemma bdh_table_finished ev flds : BLP2.bdh_table ev flds <> Pending.
Proof.
  unfold BLP2.bdh_table, obind.
  destruct (first_message ev) as [msg| |] eqn:E1; try discriminate.
  2:{ revert E1. vendor_finished. }
  destruct (getElement msg SECURITY_DATA) as [sd| |] eqn:E2; try discriminate.
  2:{ revert E2. vendor_finished. }
  destruct (getElement sd FIELD_DATA) as [arr| |] eqn:E3; try discriminate.
  2:{ revert E3. vendor_finished. }
  pose proof (map_calls_finished (getValueAsElement arr) (seq 0 (numValues arr))
                (getValueAsElement_finished arr)) as H1.
  destruct (map_calls (getValueAsElement arr) _) as [rows| |]; try congruence.
  pose proof (map_calls_finished (fun x => getElementAsDatetime x DATE) rows
                (fun x => getElementAsDatetime_finished x DATE)) as H2.
  destruct (map_calls _ rows) as [dates| |]; try congruence.
  pose proof (fill_columns_finished flds rows (DataFrame_new (map LDate dates) flds)) as H3.
  destruct (BLP2.fill_columns _ _ _); congruence.
Qed.

Lemma bsrch_message_finished msg : BLP2.bsrch_message msg <> Pending.
Proof.
  unfold BLP2.bsrch_message, obind.
  destruct (getElement msg "DataRecords") as [recs| |] eqn:E1; try discriminate.
  2:{ revert E1. vendor_finished. }
  match goal with |- context [map_calls ?f ?l] =>
    assert (map_calls f l <> Pending) as H; [|destruct (map_calls f l); congruence] end.
  apply map_calls_finished. intros v.
  destruct (getElement v "DataFields") as [df| |] eqn:E2; try discriminate.
  2:{ revert E2. vendor_finished. }
  apply map_calls_finished. intros f. apply getElementAsString_finished.
Qed.

(** [bdp] once the first RESPONSE event has arrived. *)
Lemma bdp_returns evs n fuel sec fld o1 v1 o2 v2 w :
  first_response_at evs (cursor w) n -> n < fuel ->
  let w1 := advance (S n) (sending (BLP2.bdp_request sec fld o1 v1 o2 v2) w) in
  BLP2.bdp evs fuel sec fld o1 v1 o2 v2 w =
  match BLP2.bdp_extract (evs (cursor w + n)) fld with
  | Ok s => (Ok (PStr (if bool_decide (s = "#N/A") then "None" else s)), w1)
  | _ => (Ok (PStr "Error with api data field, i.g PX_LAST"),
          printing ("error with " +:+ sec +:+ " " +:+ fld) w1)
  end.
Proof.
  intros Hfirst Hfuel w1. unfold BLP2.bdp, bind at 1, sendRequest.
  fold (sending (BLP2.bdp_request sec fld o1 v1 o2 v2) w).
  unfold bind at 1. rewrite (poll_ok evs n fuel) by assumption. simpl cursor.
  unfold bind, try_except, lift, ret, print. fold w1.
  pose proof (bdp_extract_finished (evs (cursor w + n)) fld) as Hfin.
  destruct (BLP2.bdp_extract _ _); [reflexivity|reflexivity|congruence].
Qed.

(** [bdh] once the first RESPONSE event has arrived. *)
Lemma bdh_returns evs n fuel sec flds sd ed adj per single w :
  first_response_at evs (cursor w) n -> n < fuel ->
  let w1 := advance (S n) (sending (BLP2.bdh_request sec (as_list flds) sd ed adj per) w) in
  BLP2.bdh evs fuel sec flds sd ed adj per single w =
  (match BLP2.bdh_table (evs (cursor w + n)) (as_list flds) with
   | Ok df =>
       if single then
         cols <~ select (as_list flds) df ;;
         row <~ last_item (tolist (length (index df)) cols) ;;
         Ok (PList row)
       else Ok (PDataFrame df)
   | Raise e => Raise e
   | Pending => Pending
   end, w1).
Proof.
  intros Hfirst Hfuel w1. unfold BLP2.bdh, bind at 1, sendRequest.
  fold (sending (BLP2.bdh_request sec (as_list flds) sd ed adj per) w).
  unfold bind at 1. rewrite (poll_ok evs n fuel) by assumption. simpl cursor.
  unfold bind, lift, ret, obind. fold w1.
  destruct (BLP2.bdh_table _ _) as [df| |]; try reflexivity.
  destruct single; [|reflexivity].
  destruct (select _ _); try reflexivity.
  destruct (last_item _); reflexivity.
Qed.

(** [bsrch] once the first RESPONSE event has arrived. *)
Lemma bsrch_returns evs n fuel domain w :
  first_response_at evs (cursor w) n -> n < fuel ->
  let w1 := advance (S n)
              (sending (set "Domain" domain
                            (createRequest BLP2.refExrSvc "ExcelGetGridRequest")) w) in
  BLP2.bsrch evs fuel domain w =
  (match map_calls BLP2.bsrch_message (messages (evs (cursor w + n))) with
   | Ok per_message => Ok (PFrameOfList (concat per_message))
   | Raise e => Raise e
   | Pending => Pending
   end, w1).
Proof.
  intros Hfirst Hfuel w1. unfold BLP2.bsrch, bind at 1, sendRequest.
  match goal with |- context [set "Domain" domain ?r] =>
    fold (sending (set "Domain" domain r) w) end.
  unfold bind at 1. rewrite (poll_ok evs n fuel) by assumption. simpl cursor.
  unfold bind, lift, ret. fold w1.
  destruct (map_calls _ _); reflexivity.
Qed.

(** ** The table [bdh] builds *)

Lemma map_calls_length {A B} (f : A -> outcome B) (l : list A) : forall ys,
  map_calls f l = Ok ys -> length ys = length l.
Proof.
  induction l as [|x l IH]; intros ys; simpl.
  - intros [= <-]. reflexivity.
  - unfold obind. destruct (f x); try discriminate.
    destruct (map_calls f l) as [zs| |]; try discriminate.
    intros [= <-]. simpl. f_equal. now apply IH.
Qed.

Lemma map_calls_lookup {A B} (f : A -> outcome B) (l : list A) : forall ys,
  map_calls f l = Ok ys ->
  forall i x, l !! i = Some x -> exists y, ys !! i = Some y /\ f x = Ok y.
Proof.
  induction l as [|x0 l IH]; intros ys; simpl.
  - intros _ i x Hx. discriminate Hx.
  - unfold obind. destruct (f x0) as [y0| |] eqn:E0; try discriminate.
    destruct (map_calls f l) as [zs| |]; try discriminate.
    intros [= <-] i x Hx. destruct i as [|i]; simpl in *.
    + injection Hx as <-. eauto.
    + now apply IH.
Qed.

Lemma map_calls_ok {A B} (f : A -> outcome B) (l : list A) :
  (forall x, x ∈ l -> exists y, f x = Ok y) -> exists ys, map_calls f l = Ok ys.
Proof.
  induction l as [|x l IH]; intros Hl; simpl; [eauto|].
  destruct (Hl x) as [y Hy]; [apply list_elem_of_here|]. rewrite Hy. simpl.
  destruct IH as [ys Hys]; [intros z Hz; apply Hl; now apply list_elem_of_further|].
  rewrite Hys. simpl. eauto.
Qed.

(** The cell of row [i] and column [j]. *)
Definition cell_at (df : DataFrame) (i j : nat) : option cell :=
  col ← data df !! j; col !! i.

Lemma set_column_present label vals df :
  length vals = length (index df) -> label ∈ columns df ->
  set_column label vals df =
  Ok (mkDataFrame (index df) (columns df)
        (zip_with (fun c old => if bool_decide (c = label) then vals else old)
                  (columns df) (data df))).
Proof.
  intros Hlen Hin. unfold set_column. now rewrite !bool_decide_eq_true_2.
Qed.

Lemma set_column_data label vals df j c :
  length (data df) = length (columns df) ->
  columns df !! j = Some c ->
  zip_with (fun c old => if bool_decide (c = label) then vals else old)
           (columns df) (data df) !! j =
  if bool_decide (c = label) then Some vals else data df !! j.
Proof.
  intros Hlen Hc. rewrite lookup_zip_with, Hc. simpl.
  destruct (data df !! j) as [old|] eqn:Hold; simpl.
  - now case_bool_decide.
  - exfalso. apply lookup_ge_None in Hold. apply lookup_lt_Some in Hc. lia.
Qed.

(** The floats the rows hold for one field. *)
Definition values_of (rows : list Element) (f : string) : outcome (list float) :=
  map_calls (fun x => getElementAsFloat x f) rows.

Lemma fill_columns_spec rows : forall rest df df',
  length (index df) = length rows ->
  length (data df) = length (columns df) ->
  (forall f, f ∈ rest -> f ∈ columns df) ->
  BLP2.fill_columns rest rows df = Ok df' ->
  index df' = index df /\ columns df' = columns df /\
  length (data df') = length (columns df') /\
  forall j f, columns df !! j = Some f ->
    (f ∈ rest -> exists col, values_of rows f = Ok col /\
                             data df' !! j = Some (CFloat <$> col)) /\
    (f ∉ rest -> data df' !! j = data df !! j).
Proof.
  induction rest as [|g rest IH]; intros df df' Hidx Hdat Hin; simpl.
  - intros [= <-]. repeat split; auto. intros Hf. now apply elem_of_nil in Hf.
  - unfold obind. fold (values_of rows g).
    destruct (values_of rows g) as [col| |] eqn:Hcol; try discriminate.
    assert (length (map CFloat col) = length (index df)) as Hlen.
    { rewrite length_map, Hidx. now apply map_calls_length in Hcol. }
    rewrite set_column_present by (auto; apply Hin, list_elem_of_here).
    intros Hfill. apply IH in Hfill; simpl; auto.
    2:{ rewrite length_zip_with. lia. }
    2:{ intros f Hf. apply Hin. now apply list_elem_of_further. }
    simpl in Hfill. destruct Hfill as (H1 & H2 & H3 & H4).
    repeat split; auto.
    + intros Hf. destruct (H4 j f H) as [Hyes Hno].
      destruct (decide (f ∈ rest)) as [Hr|Hr]; [now apply Hyes|].
      apply elem_of_cons in Hf as [->|Hf]; [|contradiction].
      exists col. split; [exact Hcol|]. rewrite (Hno Hr).
      rewrite (set_column_data g (map CFloat col) df j g Hdat H).
      now rewrite bool_decide_eq_true_2.
    + intros Hf. apply not_elem_of_cons in Hf as [Hfg Hf].
      destruct (H4 j f H) as [_ Hno]. rewrite (Hno Hf).
      rewrite (set_column_data g (map CFloat col) df j f Hdat H).
      now rewrite bool_decide_eq_false_2.
Qed.

Lemma fill_columns_ok rows : forall rest df,
  length (index df) = length rows ->
  (forall f, f ∈ rest -> f ∈ columns df) ->
  (forall f, f ∈ rest -> exists col, values_of rows f = Ok col) ->
  exists df', BLP2.fill_columns rest rows df = Ok df'.
Proof.
  induction rest as [|g rest IH]; intros df Hidx Hin Hval; simpl; [eauto|].
  destruct (Hval g) as [col Hcol]; [apply list_elem_of_here|].
  unfold obind. fold (values_of rows g). rewrite Hcol.
  rewrite set_column_present.
  - apply IH; simpl; auto.
    + intros f Hf. apply Hin. now apply list_elem_of_further.
    + intros f Hf. apply Hval. now apply list_elem_of_further.
  - rewrite length_map, Hidx. now apply map_calls_length in Hcol.
  - apply Hin, list_elem_of_here.
Qed.

Lemma replace_floats (col : list float) :
  map (replace_cell "#N/A History" NaN) (CFloat <$> col) = CFloat <$> col.
Proof. induction col as [|x col IH]; simpl; [reflexivity|]. f_equal. apply IH. Qed.

(** The array of rows a historical response carries. *)
Definition field_data_array (ev : Event) : outcome Element :=
  msg <~ first_message ev ;;
  sd <~ getElement msg SECURITY_DATA ;;
  getElement sd FIELD_DATA.

(** A table that is the historical response [ev] laid out for the
    fields [flds]: one row per element of the response's fieldData array,
    indexed by that element's date; one column per requested field;
    every cell the float the row's element holds for the column's
    field. *)
Definition table_of_response (ev : Event) (flds : list string) (df : DataFrame) : Prop :=
  exists arr,
    field_data_array ev = Ok arr /\
    length (index df) = numValues arr /\
    columns df = flds /\
    length (data df) = length flds /\
    (forall i, i < numValues arr ->
       exists row d, getValueAsElement arr i = Ok row /\
                     getElementAsDatetime row DATE = Ok d /\
                     index df !! i = Some (LDate d)) /\
    (forall i j f, i < numValues arr -> flds !! j = Some f ->
       exists row x, getValueAsElement arr i = Ok row /\
                     getElementAsFloat row f = Ok x /\
                     cell_at df i j = Some (CFloat x)).

Lemma bdh_table_unfold ev flds :
  BLP2.bdh_table ev flds =
  (arr <~ field_data_array ev ;;
   rows <~ map_calls (getValueAsElement arr) (seq 0 (numValues arr)) ;;
   dates <~ map_calls (fun x => getElementAsDatetime x DATE) rows ;;
   df <~ BLP2.fill_columns flds rows (DataFrame_new (map LDate dates) flds) ;;
   Ok (replace "#N/A History" NaN df)).
Proof.
  unfold BLP2.bdh_table, field_data_array, obind.
  destruct (first_message ev) as [msg| |]; try reflexivity.
  destruct (getElement msg SECURITY_DATA) as [sd| |]; reflexivity.
Qed.

Lemma rows_lookup arr rows i :
  map_calls (getValueAsElement arr) (seq 0 (numValues arr)) = Ok rows ->
  i < numValues arr ->
  exists row, rows !! i = Some row /\ getValueAsElement arr i = Ok row.
Proof.
  intros Hrows Hi.
  apply (map_calls_lookup _ _ _ Hrows i i). now rewrite lookup_seq_lt.
Qed.

Lemma bdh_table_spec ev flds df :
  BLP2.bdh_table ev flds = Ok df -> table_of_response ev flds df.
Proof.
  rewrite bdh_table_unfold. unfold obind.
  destruct (field_data_array ev) as [arr| |] eqn:Harr; try discriminate.
  destruct (map_calls (getValueAsElement arr) _) as [rows| |] eqn:Hrows; try discriminate.
  destruct (map_calls _ rows) as [dates| |] eqn:Hdates; try discriminate.
  destruct (BLP2.fill_columns _ _ _) as [df'| |] eqn:Hfill; try discriminate.
  intros [= <-].
  pose proof (map_calls_length _ _ _ Hrows) as Lrows. rewrite length_seq in Lrows.
  pose proof (map_calls_length _ _ _ Hdates) as Ldates.
  apply fill_columns_spec in Hfill; simpl.
  2:{ rewrite length_map. exact Ldates. }
  2:{ now rewrite length_map. }
  2:{ auto. }
  simpl in Hfill. destruct Hfill as (Hidx & Hcols & Hlen & Hcells).
  exists arr. split; [exact Harr|]. simpl.
  split; [rewrite Hidx, length_map; lia|].
  split; [exact Hcols|].
  split; [rewrite length_map, Hlen, Hcols; reflexivity|].
  split.
  - intros i Hi. destruct (rows_lookup arr rows i Hrows Hi) as (row & Hrow & Hget).
    destruct (map_calls_lookup _ _ _ Hdates i row Hrow) as (d & Hd & Hdate).
    exists row, d. split; [exact Hget|]. split; [exact Hdate|].
    rewrite Hidx. change (map LDate dates) with (LDate <$> dates).
    now rewrite list_lookup_fmap, Hd.
  - intros i j f Hi Hj.
    destruct (rows_lookup arr rows i Hrows Hi) as (row & Hrow & Hget).
    destruct (Hcells j f Hj) as [Hyes _].
    destruct Hyes as (col & Hcol & Hdata); [now apply list_elem_of_lookup_2 in Hj|].
    destruct (map_calls_lookup _ _ _ Hcol i row Hrow) as (x & Hx & Hfloat).
    exists row, x. split; [exact Hget|]. split; [exact Hfloat|].
    unfold cell_at, replace. simpl data.
    change (map (map (replace_cell "#N/A History" NaN)) (data df'))
      with (map (replace_cell "#N/A History" NaN) <$> data df').
    rewrite list_lookup_fmap, Hdata. simpl. rewrite replace_floats.
    now rewrite list_lookup_fmap, Hx.
Qed.

(** A historical response every row of which holds a date and a float
    for each of the fields [flds]. *)
Definition complete_response (ev : Event) (flds : list string) : Prop :=
  exists arr,
    field_data_array ev = Ok arr /\
    forall i, i < numValues arr ->
      exists row d, getValueAsElement arr i = Ok row /\
                    getElementAsDatetime row DATE = Ok d /\
                    forall f, f ∈ flds -> exists x, getElementAsFloat row f = Ok x.

Lemma bdh_table_ok ev flds :
  complete_response ev flds -> exists df, BLP2.bdh_table ev flds = Ok df.
Proof.
  intros (arr & Harr & Hrows). rewrite bdh_table_unfold, Harr. simpl.
  destruct (map_calls_ok (getValueAsElement arr) (seq 0 (numValues arr))) as [rows Erows].
  { intros i Hi. apply elem_of_seq in Hi. destruct (Hrows i) as (row & _ & Hrow & _); [lia|].
    eauto. }
  rewrite Erows. simpl.
  assert (forall row, row ∈ rows ->
            (exists d, getElementAsDatetime row DATE = Ok d) /\
            forall f, f ∈ flds -> exists x, getElementAsFloat row f = Ok x) as Hrow.
  { intros row Hin. apply list_elem_of_lookup in Hin as [i Hi].
    pose proof (map_calls_length _ _ _ Erows) as L. rewrite length_seq in L.
    assert (i < numValues arr) as Hlt by (apply lookup_lt_Some in Hi; lia).
    destruct (rows_lookup arr rows i Erows Hlt) as (row' & Hrow' & Hget).
    rewrite Hi in Hrow'. injection Hrow' as <-.
    destruct (Hrows i Hlt) as (row2 & d & Hget2 & Hd & Hf).
    rewrite Hget in Hget2. injection Hget2 as <-. eauto. }
  destruct (map_calls_ok (fun x => getElementAsDatetime x DATE) rows) as [dates Edates].
  { intros row Hin. now apply Hrow. }
  rewrite Edates. simpl.
  destruct (fill_columns_ok rows flds (DataFrame_new (map LDate dates) flds)) as [df Edf].
  - simpl. rewrite length_map. now apply map_calls_length in Edates.
  - auto.
  - intros f Hf. apply map_calls_ok. intros row Hin. now apply Hrow.
  - rewrite Edf. simpl. eauto.
Qed.

(** The common shape of [bdp], [bdh] and [bsrch]: send one request, wait
    for the RESPONSE event, then work on that event. *)
Definition after_poll (r : Request) (k : Event -> M pyval)
    (evs : nat -> Event) (fuel : nat) : M pyval :=
  u <- sendRequest r ;; event <- BLP2.poll evs fuel ;; k event.

Lemma after_poll_cases r k evs fuel w :
  ((forall j, j < fuel -> eventType (evs (cursor w + j)) <> RESPONSE) /\
   after_poll r k evs fuel w = (Pending, advance fuel (sending r w))) \/
  (exists n, n < fuel /\ first_response_at evs (cursor w) n /\
             after_poll r k evs fuel w =
             k (evs (cursor w + n)) (advance (S n) (sending r w))).
Proof.
  change (after_poll r k evs fuel w) with (bind (BLP2.poll evs fuel) k (sending r w)).
  unfold bind.
  destruct (poll_cases evs fuel (sending r w)) as [[Hp Hk]|(n & Hn & Hf & Hp)].
  - left. split; [exact Hk|]. now rewrite Hp.
  - right. exists n. split; [exact Hn|]. split; [exact Hf|]. now rewrite Hp.
Qed.

(** [bdh] is still waiting, or has met the first RESPONSE event and
    worked on it. *)
Lemma bdh_cases evs fuel sec flds sd ed adj per single w :
  fst (BLP2.bdh evs fuel sec flds sd ed adj per single w) = Pending \/
  exists n, n < fuel /\ first_response_at evs (cursor w) n /\
    fst (BLP2.bdh evs fuel sec flds sd ed adj per single w) =
    match BLP2.bdh_table (evs (cursor w + n)) (as_list flds) with
    | Ok df =>
        if single then
          cols <~ select (as_list flds) df ;;
          row <~ last_item (tolist (length (index df)) cols) ;;
          Ok (PList row)
        else Ok (PDataFrame df)
    | Raise e => Raise e
    | Pending => Pending
    end.
Proof.
  match goal with |- context [BLP2.bdh evs fuel sec flds sd ed adj per single w] =>
    change (BLP2.bdh evs fuel sec flds sd ed adj per single w)
      with (after_poll (BLP2.bdh_request sec (as_list flds) sd ed adj per)
              (fun event =>
                 output <- lift (BLP2.bdh_table event (as_list flds)) ;;
                 if single then
                   cols <- lift (select (as_list flds) output) ;;
                   lastPrice <- lift (last_item (tolist (length (index output)) cols)) ;;
                   ret (PList lastPrice)
                 else ret (PDataFrame output))
              evs fuel w) end.
  destruct (after_poll_cases (BLP2.bdh_request sec (as_list flds) sd ed adj per)
              (fun event =>
                 output <- lift (BLP2.bdh_table event (as_list flds)) ;;
                 if single then
                   cols <- lift (select (as_list flds) output) ;;
                   lastPrice <- lift (last_item (tolist (length (index output)) cols)) ;;
                   ret (PList lastPrice)
                 else ret (PDataFrame output))
              evs fuel w) as [[_ Hp]|(n & Hn & Hf & Hp)]; rewrite Hp.
  - now left.
  - right. exists n. split; [exact Hn|]. split; [exact Hf|].
    unfold bind, lift, ret, obind.
    destruct (BLP2.bdh_table _ _) as [df| |]; try reflexivity.
    destruct single; [|reflexivity].
    destruct (select _ _); try reflexivity.
    destruct (last_item _); reflexivity.
Qed.


(** [bdp] is still waiting, or has met the first RESPONSE event and
    returned a string: the field's value, 'None' in place of '#N/A', or
    the placeholder. *)
Lemma bdp_cases evs fuel sec fld o1 v1 o2 v2 w :
  fst (BLP2.bdp evs fuel sec fld o1 v1 o2 v2 w) = Pending \/
  exists n s, n < fuel /\ first_response_at evs (cursor w) n /\
    fst (BLP2.bdp evs fuel sec fld o1 v1 o2 v2 w) = Ok (PStr s) /\
    match BLP2.bdp_extract (evs (cursor w + n)) fld with
    | Ok v => s = if bool_decide (v = "#N/A") then "None" else v
    | _ => s = "Error with api data field, i.g PX_LAST"
    end.
Proof.
  destruct (poll_cases evs fuel (sending (BLP2.bdp_request sec fld o1 v1 o2 v2) w))
    as [[Hp _]|(n & Hn & Hf & _)].
  - left.
    change (BLP2.bdp evs fuel sec fld o1 v1 o2 v2 w)
      with (bind (BLP2.poll evs fuel)
              (fun event =>
                 output <- try_except
                   (output <- lift (BLP2.bdp_extract event fld) ;;
                    ret (if bool_decide (output = "#N/A") then "None" else output))
                   (u <- print ("error with " +:+ sec +:+ " " +:+ fld) ;;
                    ret "Error with api data field, i.g PX_LAST") ;;
                 ret (PStr output))
              (sending (BLP2.bdp_request sec fld o1 v1 o2 v2) w)).
    unfold bind at 1. now rewrite Hp.
  - right. simpl in Hf. rewrite (bdp_returns evs n fuel) by assumption.
    exists n.
    destruct (BLP2.bdp_extract _ _) as [v| |]; simpl; eexists;
      (split; [exact Hn|]; split; [exact Hf|]; split; reflexivity).
Qed.


(** A historical response for one security with two daily rows. *)
Definition daily_row (d : nat) (iso : string) (px : float) : Element :=
  Sequence [("date", Scalar (Some iso) None (Some (mkDate 2014 1 d)));
            ("PX_LAST", Scalar None (Some px) None)].

Definition two_day_history : Element :=
  Sequence [("securityData",
             Sequence [("security", Scalar (Some "SPX Index") None None);
                       ("fieldData", Array [daily_row 2 "2014-01-02" 1831.5;
                                 daily_row 3 "2014-01-03" 1832.25])])].

(** A session that delivers a status event, then the RESPONSE. *)
Definition history_session (n : nat) : Event :=
  match n with
  | 0 => mkEvent SESSION_STATUS []
  | _ => mkEvent RESPONSE [two_day_history]
  end.





(** ** The loop of [BLPTS.get] *)

Section GetLoop.

Variable update : Notification -> option exn.
Variable parse_datetime : string -> option Date.
Variable evs : nat -> Event.

Let get_loop := BLPTS.get_loop update parse_datetime evs.
Let process := BLPTS.process update parse_datetime.

(** The events the loop works on. *)
Definition carries_data (ev : Event) : Prop :=
  eventType ev ∈ [RESPONSE; PARTIAL_RESPONSE].

#[global] Instance carries_data_dec ev : Decision (carries_data ev).
Proof. unfold carries_data. apply _. Defined.

Lemma get_loop_step fuel w :
  get_loop (S fuel) w =
  let event := evs (cursor w) in
  match (if bool_decide (carries_data event) then process event else ret tt)
          (advance 1 w) with
  | (Ok _, w') =>
      if bool_decide (eventType event = RESPONSE) then (Ok PNone, w')
      else get_loop fuel w'
  | (Raise e, w') => (Raise e, w')
  | (Pending, w') => (Pending, w')
  end.
Proof.
  unfold get_loop. simpl. unfold bind at 1. rewrite nextEvent_advance.
  unfold bind at 1. unfold process.
  change (bool_decide (eventType (evs (cursor w)) ∈ [RESPONSE; PARTIAL_RESPONSE]))
    with (bool_decide (carries_data (evs (cursor w)))).
  match goal with |- context [(if ?b then ?x else ?y) (advance 1 w)] =>
    destruct ((if b then x else y) (advance 1 w)) as [[u|e|] w'] end; try reflexivity.
  case_bool_decide; reflexivity.
Qed.

Lemma not_carries_data_not_response ev : ~ carries_data ev -> eventType ev <> RESPONSE.
Proof. intros H E. apply H. unfold carries_data. rewrite E. apply list_elem_of_here. Qed.

(** Events that carry no data are passed over. *)
Lemma get_loop_skip m : forall fuel w,
  (forall k, k < m -> ~ carries_data (evs (cursor w + k))) ->
  get_loop (m + fuel) w = get_loop fuel (advance m w).
Proof.
  induction m as [|m IH]; intros fuel w Hskip.
  - now rewrite advance_0.
  - change (S m + fuel) with (S (m + fuel)). rewrite get_loop_step. cbv zeta.
    assert (~ carries_data (evs (cursor w))) as H0.
    { replace (cursor w) with (cursor w + 0) by lia. apply Hskip. lia. }
    rewrite bool_decide_eq_false_2 by exact H0. unfold ret.
    rewrite bool_decide_eq_false_2 by now apply not_carries_data_not_response.
    rewrite IH.
    + rewrite advance_advance. reflexivity.
    + intros k Hk. simpl. replace (cursor w + 1 + k) with (cursor w + S k) by lia.
      apply Hskip. lia.
Qed.


(** [get] is its send step followed by the loop. *)
Lemma get_after_send fuel newS newF kw w w1 :
  BLPTS.get_send newS newF kw w = (Ok tt, w1) ->
  BLPTS.get update parse_datetime evs fuel newS newF kw w = get_loop fuel w1.
Proof. intros H. unfold BLPTS.get, bind. now rewrite H. Qed.

End GetLoop.

(** ** Error handling *)


(** A response that reports an error instead of carrying security data. *)
Definition error_message : Element :=
  Sequence [("responseError",
             Sequence [("message", Scalar (Some "Invalid security") None None)])].


(** A client whose request was filled for a historical lookup. *)
Definition historical_kwargs : gmap string arg :=
  <["startDate" := ADate (mkDate 2014 1 1)]>
    (<["endDate" := ADate (mkDate 2014 1 9)]> ∅).

Definition historical_client : World :=
  snd (BLPTS.fillRequest (Str "SPX Index") (Lst ["PX_LAST"]) historical_kwargs
                         empty_world).

Definition silent : Notification -> option exn := fun _ => None.

Definition no_parser : string -> option Date := fun _ => None.


(** ** Steps that neither block nor touch the event queue *)

(** A computation is [settled] when it never waits (it gives a value or
    raises) and takes no event from the queue. *)
Definition settled {A} (m : M A) : Prop :=
  forall w, fst (m w) <> Pending /\ cursor (snd (m w)) = cursor w.

Lemma settled_ret {A} (a : A) : settled (ret a).
Proof. intros w. split; [discriminate|reflexivity]. Qed.

Lemma settled_raise {A} (e : exn) : settled (raise (A:=A) e).
Proof. intros w. split; [discriminate|reflexivity]. Qed.

Lemma settled_lift {A} (o : outcome A) : o <> Pending -> settled (lift o).
Proof. intros H w. split; [exact H|reflexivity]. Qed.

Lemma settled_bind {A B} (m : M A) (k : A -> M B) :
  settled m -> (forall a, settled (k a)) -> settled (bind m k).
Proof.
  intros Hm Hk w. unfold bind. destruct (Hm w) as [H1 H2].
  destruct (m w) as [[a|e|] w1]; simpl in *.
  - destruct (Hk a w1) as [H3 H4]. split; [exact H3|congruence].
  - split; [discriminate|exact H2].
  - congruence.
Qed.

Lemma settled_for_each {A} (l : list A) (body : A -> M unit) :
  (forall x, settled (body x)) -> settled (for_each l body).
Proof.
  intros Hb. induction l as [|x l IH]; simpl.
  - apply settled_ret.
  - apply settled_bind; [apply Hb|intros _; exact IH].
Qed.

Lemma settled_print s : settled (print s).
Proof. intros w. split; [discriminate|reflexivity]. Qed.

Lemma settled_log_call n : settled (log_call n).
Proof. intros w. split; [discriminate|reflexivity]. Qed.

Lemma settled_get_self : settled get_self.
Proof. intros w. split; [discriminate|reflexivity]. Qed.

Lemma settled_set_self a : settled (set_self a).
Proof. intros w. split; [discriminate|reflexivity]. Qed.

Lemma settled_sendRequest r : settled (sendRequest r).
Proof. intros w. split; [discriminate|reflexivity]. Qed.

Lemma settled_assign f : settled (BLPTS.assign f).
Proof. apply settled_bind; [apply settled_get_self|intros a; apply settled_set_self]. Qed.

Lemma settled_attr {A} name (f : Attrs -> option A) : settled (BLPTS.attr name f).
Proof.
  apply settled_bind; [apply settled_get_self|]. intros a.
  destruct (f a); [apply settled_ret|apply settled_raise].
Qed.

Lemma settled_on_request f : settled (BLPTS.on_request f).
Proof. apply settled_bind; [apply settled_attr|intros r; apply settled_assign]. Qed.

Lemma settled_if {A} (b : bool) (m1 m2 : M A) :
  settled m1 -> settled m2 -> settled (if b then m1 else m2).
Proof. now destruct b. Qed.

Lemma item_finished kw key : BLPTS.item kw key <> Pending.
Proof. unfold BLPTS.item. now destruct (kw !! key). Qed.

Lemma strftime_finished x : BLPTS.strftime x <> Pending.
Proof. now destruct x. Qed.

Lemma first_message_finished ev : first_message ev <> Pending.
Proof. vendor_finished. Qed.

Lemma getElement_finished e k : getElement e k <> Pending.
Proof. vendor_finished. Qed.

Lemma getElementAt_finished e j : getElementAt e j <> Pending.
Proof. vendor_finished. Qed.

Lemma getValueAsString_finished e : getValueAsString e <> Pending.
Proof. vendor_finished. Qed.

Lemma call_global_finished name x : call_global name x <> Pending.
Proof. unfold call_global. now case_bool_decide. Qed.

Lemma loc_row_finished row df : loc_row row df <> Pending.
Proof. unfold loc_row. now destruct (list_find _ _) as [[i r]|]. Qed.

Lemma to_datetime_finished parse l : BLPTS.to_datetime parse l <> Pending.
Proof. unfold BLPTS.to_datetime. destruct l; [discriminate|]. now destruct (parse s). Qed.

Lemma field_column_finished field rows : BLPTS.field_column field rows <> Pending.
Proof.
  apply map_calls_finished. intros row. destruct (hasElement row field); [|discriminate].
  vendor_finished.
Qed.

Lemma date_strings_finished rows :
  map_calls (fun x => d <~ getElement x DATE ;; getValueAsString d) rows <> Pending.
Proof. apply map_calls_finished. intros x. vendor_finished. Qed.

Create HintDb settled.

#[local] Hint Resolve settled_ret settled_raise settled_print settled_log_call
  settled_get_self settled_set_self settled_sendRequest settled_assign settled_attr
  settled_on_request item_finished strftime_finished first_message_finished
  getElement_finished getElementAt_finished getValueAsString_finished
  getValueAsElement_finished call_global_finished loc_row_finished
  to_datetime_finished field_column_finished date_strings_finished
  set_column_finished map_calls_finished : settled.

Ltac settle :=
  repeat first
    [ solve [auto with settled]
    | apply settled_lift
    | apply settled_for_each; intros ?
    | apply settled_if
    | apply settled_bind; [|intros ?] ].

Lemma settled_fillRequest securities fields kw :
  settled (BLPTS.fillRequest securities fields kw).
Proof. unfold BLPTS.fillRequest. settle. Qed.

Lemma settled_get_send newS newF kw : settled (BLPTS.get_send newS newF kw).
Proof. unfold BLPTS.get_send. settle. Qed.

Section SettledCallbacks.

Variable update : Notification -> option exn.
Variable parse_datetime : string -> option Date.

Lemma settled_updateObservers security field data :
  settled (BLPTS.updateObservers update security field data).
Proof.
  unfold BLPTS.updateObservers. settle.
  match goal with |- context [update ?n] => destruct (update n) end; settle.
Qed.

#[local] Hint Resolve settled_updateObservers : settled.

Lemma settled_historical_fields security rows : forall flds df,
  settled (BLPTS.historical_fields update security rows flds df).
Proof. induction flds as [|f flds IH]; intros df; simpl; settle. Qed.

#[local] Hint Resolve settled_historical_fields : settled.

Lemma settled_historical ev : settled (BLPTS.historical update parse_datetime ev).
Proof. unfold BLPTS.historical. settle. Qed.

Lemma settled_reference ev i : settled (BLPTS.reference update ev i).
Proof. unfold BLPTS.reference, BLPTS.reference_field. settle. Qed.

#[local] Hint Resolve settled_historical settled_reference : settled.

Lemma settled_process ev : settled (BLPTS.process update parse_datetime ev).
Proof. unfold BLPTS.process. settle. Qed.

End SettledCallbacks.

(** ** Termination of the polling loops *)

Lemma settled_try_except {A} (body handler : M A) :
  settled body -> settled handler -> settled (try_except body handler).
Proof.
  intros Hb Hh w. unfold try_except. destruct (Hb w) as [H1 H2].
  destruct (body w) as [[a|e|] w1]; simpl in *.
  - split; [discriminate|exact H2].
  - destruct (Hh w1) as [H3 H4]. split; [exact H3|congruence].
  - congruence.
Qed.

Lemma select_finished labels df : select labels df <> Pending.
Proof.
  induction labels as [|l ls IH]; simpl; [discriminate|].
  case_bool_decide; [|discriminate]. destruct (select ls df); congruence.
Qed.

Lemma last_item_finished {A} (x : list A) : last_item x <> Pending.
Proof. unfold last_item. now destruct (last x). Qed.

(** The request a BLP2 call sends and what it does with the RESPONSE
    event. *)
Definition request_of (c : BLP2_call) : Request :=
  match c with
  | Call_bdp s d o1 v1 o2 v2 => BLP2.bdp_request s d o1 v1 o2 v2
  | Call_bdh s d sd ed adj per _ => BLP2.bdh_request s (as_list d) sd ed adj per
  | Call_bsrch domain =>
      set "Domain" domain (createRequest BLP2.refExrSvc "ExcelGetGridRequest")
  | Call_bdhOHLC s sd ed per =>
      BLP2.bdh_request s ["PX_OPEN"; "PX_HIGH"; "PX_LOW"; "PX_LAST"] sd ed per
                       (AStr "DAILY")
  end.

Definition bdh_continuation (strData : list string) (singleFrame : bool)
    (event : Event) : M pyval :=
  output <- lift (BLP2.bdh_table event strData) ;;
  if singleFrame then
    cols <- lift (select strData output) ;;
    lastPrice <- lift (last_item (tolist (length (index output)) cols)) ;;
    ret (PList lastPrice)
  else ret (PDataFrame output).

Definition continuation_of (c : BLP2_call) (event : Event) : M pyval :=
  match c with
  | Call_bdp s d _ _ _ _ =>
      output <- try_except
        (output <- lift (BLP2.bdp_extract event d) ;;
         ret (if bool_decide (output = "#N/A") then "None" else output))
        (u <- print ("error with " +:+ s +:+ " " +:+ d) ;;
         ret "Error with api data field, i.g PX_LAST") ;;
      ret (PStr output)
  | Call_bdh _ d _ _ _ _ single => bdh_continuation (as_list d) single event
  | Call_bsrch _ =>
      per_message <- lift (map_calls BLP2.bsrch_message (messages event)) ;;
      ret (PFrameOfList (concat per_message))
  | Call_bdhOHLC _ _ _ _ =>
      bdh_continuation ["PX_OPEN"; "PX_HIGH"; "PX_LOW"; "PX_LAST"] false event
  end.

Lemma run_call_after_poll evs fuel c :
  run_call evs fuel c = after_poll (request_of c) (continuation_of c) evs fuel.
Proof. destruct c; reflexivity. Qed.

Lemma settled_bdh_continuation flds single ev : settled (bdh_continuation flds single ev).
Proof.
  unfold bdh_continuation. apply settled_bind.
  - apply settled_lift, bdh_table_finished.
  - intros df. destruct single; [|apply settled_ret].
    apply settled_bind; [apply settled_lift, select_finished|]. intros cols.
    apply settled_bind; [apply settled_lift, last_item_finished|]. intros row.
    apply settled_ret.
Qed.

Lemma settled_continuation c ev : settled (continuation_of c ev).
Proof.
  destruct c; simpl; try apply settled_bdh_continuation.
  - apply settled_bind; [|intros; apply settled_ret].
    apply settled_try_except.
    + apply settled_bind; [apply settled_lift, bdp_extract_finished|].
      intros; apply settled_ret.
    + apply settled_bind; [apply settled_print|intros; apply settled_ret].
  - apply settled_bind; [|intros; apply settled_ret].
    apply settled_lift, map_calls_finished, bsrch_message_finished.
Qed.

(** The stream yields a RESPONSE event at or after the queue position of
    the world [w]. *)
Definition response_arrives (evs : nat -> Event) (w : World) : Prop :=
  exists n, eventType (evs (cursor w + n)) = RESPONSE.

(** The claim of C6 as it is written, for a call [run] observed for
    [fuel] turns of its loop: the call ends, by returning or by raising,
    exactly when the stream yields a RESPONSE event. *)
Definition ends_iff_response_arrives (run : nat -> M pyval) (evs : nat -> Event)
    (w : World) : Prop :=
  (exists fuel, fst (run fuel w) <> Pending) <-> response_arrives evs w.

Lemma after_poll_ends r k evs w :
  (forall ev, settled (k ev)) ->
  ends_iff_response_arrives (after_poll r k evs) evs w.
Proof.
  intros Hk. split.
  - intros [fuel Hfin].
    destruct (after_poll_cases r k evs fuel w) as [[_ Hp]|(n & _ & [Hn _] & _)].
    + rewrite Hp in Hfin. now contradiction Hfin.
    + now exists n.
  - intros [n Hn]. exists (S n).
    destruct (after_poll_cases r k evs (S n) w) as [[Hno _]|(m & _ & _ & Hp)].
    + exfalso. apply (Hno n); [lia|exact Hn].
    + rewrite Hp. apply Hk.
Qed.

Lemma after_poll_waits r k evs w :
  (forall n, eventType (evs (cursor w + n)) <> RESPONSE) ->
  forall fuel, fst (after_poll r k evs fuel w) = Pending.
Proof.
  intros Hno fuel.
  destruct (after_poll_cases r k evs fuel w) as [[_ Hp]|(n & _ & [Hn _] & _)].
  - now rewrite Hp.
  - exfalso. now apply (Hno n).
Qed.

Ltac step_cases w :=
  match goal with
  | |- context [(if ?b then ?x else ?y) (advance 1 w)] =>
      destruct ((if b then x else y) (advance 1 w)) as [[?u|?e|] ?w1]
  end.

Section GetTermination.

Variable update : Notification -> option exn.
Variable parse_datetime : string -> option Date.
Variable evs : nat -> Event.

Let get_loop := BLPTS.get_loop update parse_datetime evs.

Lemma settled_data_step ev :
  settled (if bool_decide (carries_data ev)
           then BLPTS.process update parse_datetime ev else ret tt).
Proof. apply settled_if; [apply settled_process|apply settled_ret]. Qed.

(** With a RESPONSE event [n] places ahead, [n + 1] turns end the loop. *)
Lemma get_loop_finishes n : forall w,
  eventType (evs (cursor w + n)) = RESPONSE ->
  fst (get_loop (S n) w) <> Pending.
Proof.
  induction n as [|n IH]; intros w Hn; unfold get_loop; rewrite get_loop_step; cbv zeta;
    destruct (settled_data_step (evs (cursor w)) (advance 1 w)) as [Hfin Hcur];
    revert Hfin Hcur; step_cases w; simpl; intros Hfin Hcur;
    try discriminate; try congruence.
  - replace (cursor w + 0) with (cursor w) in Hn by lia.
    now rewrite bool_decide_eq_true_2.
  - case_bool_decide; [discriminate|]. apply IH.
    rewrite Hcur. now replace (cursor w + 1 + n) with (cursor w + S n) by lia.
Qed.

(** The loop returns only [None], and only after a RESPONSE event. *)
Lemma get_loop_returns fuel : forall w v w',
  get_loop fuel w = (Ok v, w') ->
  v = PNone /\ exists n, n < fuel /\ eventType (evs (cursor w + n)) = RESPONSE.
Proof.
  induction fuel as [|fuel IH]; intros w v w'; [discriminate|].
  unfold get_loop. rewrite get_loop_step. cbv zeta.
  destruct (settled_data_step (evs (cursor w)) (advance 1 w)) as [_ Hcur].
  revert Hcur; step_cases w; simpl; intros Hcur; try discriminate.
  case_bool_decide as Hty.
  - intros [= <- <-]. split; [reflexivity|]. exists 0. split; [lia|].
    now replace (cursor w + 0) with (cursor w) by lia.
  - intros Hloop. apply IH in Hloop as [Hv (n & Hn & Hresp)]. split; [exact Hv|].
    exists (S n). split; [lia|]. rewrite Hcur in Hresp.
    now replace (cursor w + S n) with (cursor w + 1 + n) by lia.
Qed.

(** With no data-carrying event in the stream, the loop waits for ever. *)
Lemma get_loop_waits w :
  (forall k, ~ carries_data (evs (cursor w + k))) ->
  forall fuel, get_loop fuel w = (Pending, advance fuel w).
Proof.
  intros Hno fuel. replace fuel with (fuel + 0) at 1 by lia.
  unfold get_loop. now rewrite get_loop_skip by auto.
Qed.

End GetTermination.

(** A session that keeps delivering partial responses reporting an error
    and never a RESPONSE. *)
Definition partial_error_session : nat -> Event :=
  fun _ => mkEvent PARTIAL_RESPONSE [error_message].

(** C6, counterexample: on a stream of PARTIAL_RESPONSE events that never
    yields a RESPONSE, [BLPTS.get] does not loop for ever: working on the
    first event raises the vendor's NotFoundException, and the call ends
    after one turn. *)
Lemma C6_get_ends_without_response :
  fst (BLPTS.get silent no_parser partial_error_session 1 (Lst []) (Lst []) ∅
                 historical_client) = Raise (NotFoundException "securityData") /\
  ~ ends_iff_response_arrives
      (fun fuel => BLPTS.get silent no_parser partial_error_session fuel
                             (Lst []) (Lst []) ∅)
      partial_error_session historical_client.
Proof.
  assert (fst (BLPTS.get silent no_parser partial_error_session 1 (Lst []) (Lst []) ∅
                         historical_client) = Raise (NotFoundException "securityData"))
    as H by reflexivity.
  split; [exact H|]. intros [Hends _].
  destruct Hends as [n Hn].
  - exists 1. rewrite H. discriminate.
  - discriminate Hn.
Qed.

(** C6, amended: each of [bdp], [bdh], [bsrch] and [bdhOHLC] ends (by
    returning or raising) exactly when the event stream yields a RESPONSE
    event, and waits for ever on a stream that never does: there is no
    timeout, retry limit or cancellation.  [BLPTS.get] ends whenever the
    stream yields a RESPONSE event and returns normally only after one;
    it has no timeout either, and waits for ever when no RESPONSE or
    PARTIAL_RESPONSE event comes; but it also ends, without any RESPONSE
    event, when working on a PARTIAL_RESPONSE event raises. *)
Theorem C6_loops_end_on_response_and_have_no_timeout :
  (forall evs c w,
     ends_iff_response_arrives (fun fuel => run_call evs fuel c) evs w /\
     ((forall n, eventType (evs (cursor w + n)) <> RESPONSE) ->
      forall fuel, fst (run_call evs fuel c w) = Pending)) /\
  (forall update parse_datetime evs newS newF kw w,
     let run := fun fuel => BLPTS.get update parse_datetime evs fuel newS newF kw in
     (response_arrives evs w -> exists fuel, fst (run fuel w) <> Pending) /\
     (forall fuel v, fst (run fuel w) = Ok v -> response_arrives evs w) /\
     (forall w1, BLPTS.get_send newS newF kw w = (Ok tt, w1) ->
                 (forall k, ~ carries_data (evs (cursor w + k))) ->
                 forall fuel, fst (run fuel w) = Pending)).
Proof.
  split.
  - intros evs c w. split.
    + destruct c;
        match goal with
        | |- ends_iff_response_arrives (fun fuel => run_call evs fuel ?c) evs w =>
            exact (after_poll_ends (request_of c) (continuation_of c) evs w
                     (settled_continuation c))
        end.
    + intros Hno fuel. rewrite run_call_after_poll. now apply after_poll_waits.
  - intros update parse_datetime evs newS newF kw w run. subst run. cbv beta.
    destruct (settled_get_send newS newF kw w) as [Hfin Hcur].
    unfold BLPTS.get, bind.
    destruct (BLPTS.get_send newS newF kw w) as [[[]|e|] w1]; simpl in Hfin, Hcur;
      try congruence.
    + split; [|split].
      * intros [n Hn]. exists (S n). apply get_loop_finishes. now rewrite Hcur.
      * intros fuel v Hv.
        destruct (BLPTS.get_loop update parse_datetime evs fuel w1) as [o w2] eqn:Hloop.
        simpl in Hv. subst o.
        apply get_loop_returns in Hloop as [_ (n & _ & Hn)].
        exists n. now rewrite <- Hcur.
      * intros w1' [= <-] Hno fuel. rewrite get_loop_waits; [reflexivity|].
        intros k. rewrite Hcur. apply Hno.
    + split; [|split].
      * intros _. exists 0. discriminate.
      * intros fuel v Hv. discriminate Hv.
      * intros w1' Hw. discriminate Hw.
Qed.

(** C6 at work: [bdh] on the session that answers after one status
    event ends with two turns of fuel, and [get] on that session ends
    too. *)
Lemma C6_history_session_ends :
  (exists fuel, fst (run_call history_session fuel
                       (Call_bdh "SPX Index" (Str "PX_LAST") (mkDate 2014 1 1)
                                 (mkDate 2014 1 9) (ABool false) (AStr "DAILY") false)
                       empty_world) <> Pending) /\
  (exists fuel, fst (BLPTS.get silent no_parser history_session fuel (Lst []) (Lst []) ∅
                               historical_client) <> Pending).
Proof.
  destruct C6_loops_end_on_response_and_have_no_timeout as [Hblp2 Hget].
  assert (response_arrives history_session empty_world) as Harr
    by (exists 1; reflexivity).
  split.
  - apply (Hblp2 history_session _ empty_world). exact Harr.
  - apply (Hget silent no_parser history_session (Lst []) (Lst []) ∅ historical_client).
    exists 1. reflexivity.
Defined.

(** ** The reference-data branch of [BLPTS.get] *)

(** The world after some lines were printed. *)
Definition printing_all (lines : list string) (w : World) : World :=
  mkWorld (sent w) (cursor w) (stdout w ++ lines) (notified w) (self w).

Lemma printing_all_nil w : printing_all [] w = w.
Proof. destruct w; unfold printing_all; simpl. now rewrite app_nil_r. Qed.

Lemma printing_all_app l1 l2 w :
  printing_all l2 (printing_all l1 w) = printing_all (l1 ++ l2) w.
Proof. unfold printing_all; simpl. now rewrite app_assoc. Qed.

(** [_dict_from_element] is bound neither at module level nor as a
    builtin. *)
Lemma dict_from_element_unbound :
  "_dict_from_element" ∉ module_globals ++ builtins.
Proof. apply (bool_decide_eq_false_1 _). vm_compute. reflexivity. Qed.

Lemma call_dict_from_element x :
  call_global "_dict_from_element" x = Raise (NameError "_dict_from_element").
Proof.
  unfold call_global. rewrite bool_decide_eq_false_2; [reflexivity|].
  apply dict_from_element_unbound.
Qed.

(** Entry [i] of the securityData array [sd] is a security called
    [name] with the field data [fd]. *)
Definition security_entry (sd : Element) (i : nat) (name : string) (fd : Element) : Prop :=
  exists s sec,
    getValueAsElement sd i = Ok s /\
    getElement s FIELD_DATA = Ok fd /\
    getElement s SECURITY = Ok sec /\
    getValueAsString sec = Ok name.

Section ReferenceBranch.

Variable update : Notification -> option exn.
Variable parse_datetime : string -> option Date.

(** Working on one field never gets past the call of the unbound name:
    it raises, having changed nothing. *)
Lemma reference_field_raises output security j w :
  exists e, BLPTS.reference_field update output security j w = (Raise e, w).
Proof.
  unfold BLPTS.reference_field, bind, lift.
  destruct (getElement output FIELD_DATA) as [fd|e|] eqn:E1;
    [|eauto|exfalso; revert E1; apply getElement_finished].
  destruct (getElementAt fd j) as [data|e|] eqn:E2;
    [|eauto|exfalso; revert E2; apply getElementAt_finished].
  rewrite call_dict_from_element. eauto.
Qed.



Lemma reference_fields_loop output security n w :
  (n = 0 /\ for_each (seq 0 n) (BLPTS.reference_field update output security) w = (Ok tt, w)) \/
  (0 < n /\ exists e,
     for_each (seq 0 n) (BLPTS.reference_field update output security) w = (Raise e, w)).
Proof.
  destruct n as [|n]; [left; split; reflexivity|]. right. split; [lia|].
  simpl. unfold bind.
  destruct (reference_field_raises output security 0 w) as [e He]. rewrite He. eauto.
Qed.

(** The reference branch never reaches an observer: whatever the event,
    it ends having at most printed a line. *)
Lemma reference_quiet ev i w :
  exists o lines, BLPTS.reference update ev i w = (o, printing_all lines w).
Proof.
  unfold BLPTS.reference, bind, lift.
  destruct (first_message ev) as [msg|e|];
    [|exists (Raise e), []; now rewrite printing_all_nil
     |exists Pending, []; now rewrite printing_all_nil].
  destruct (getElement msg SECURITY_DATA) as [sd|e|];
    [|exists (Raise e), []; now rewrite printing_all_nil
     |exists Pending, []; now rewrite printing_all_nil].
  destruct (getValueAsElement sd i) as [output|e|];
    [|exists (Raise e), []; now rewrite printing_all_nil
     |exists Pending, []; now rewrite printing_all_nil].
  destruct (getElement output FIELD_DATA) as [fd|e|];
    [|exists (Raise e), []; now rewrite printing_all_nil
     |exists Pending, []; now rewrite printing_all_nil].
  destruct (getElement output SECURITY) as [sec|e|];
    [|exists (Raise e), []; now rewrite printing_all_nil
     |exists Pending, []; now rewrite printing_all_nil].
  destruct (getValueAsString sec) as [security|e|];
    [|exists (Raise e), []; now rewrite printing_all_nil
     |exists Pending, []; now rewrite printing_all_nil].
  destruct (reference_fields_loop output security (numElements fd) w)
    as [[Hn Hloop]|[Hn [e Hloop]]]; rewrite Hloop.
  - rewrite bool_decide_eq_false_2 by lia.
    exists (Ok tt), ["Empty response received for " +:+ security]. reflexivity.
  - exists (Raise e), []. now rewrite printing_all_nil.
Qed.


(** On a security without fields, the reference branch prints a line. *)
Lemma reference_empty ev i w msg sd name fd :
  first_message ev = Ok msg -> getElement msg SECURITY_DATA = Ok sd ->
  security_entry sd i name fd -> numElements fd = 0 ->
  BLPTS.reference update ev i w =
  (Ok tt, printing_all ["Empty response received for " +:+ name] w).
Proof.
  intros Hmsg Hsd (s & sec & Hs & Hfd & Hsec & Hname) Hn.
  unfold BLPTS.reference, bind, lift. rewrite Hmsg, Hsd, Hs, Hfd, Hsec, Hname, Hn.
  reflexivity.
Qed.

End ReferenceBranch.

(** Steps that call no observer. *)
Definition unobserved {A} (m : M A) : Prop :=
  forall w, notified (snd (m w)) = notified w.

Lemma unobserved_ret {A} (a : A) : unobserved (ret a).
Proof. intros w. reflexivity. Qed.

Lemma unobserved_raise {A} (e : exn) : unobserved (raise (A:=A) e).
Proof. intros w. reflexivity. Qed.

Lemma unobserved_lift {A} (o : outcome A) : unobserved (lift o).
Proof. intros w. reflexivity. Qed.

Lemma unobserved_bind {A B} (m : M A) (k : A -> M B) :
  unobserved m -> (forall a, unobserved (k a)) -> unobserved (bind m k).
Proof.
  intros Hm Hk w. unfold bind. specialize (Hm w).
  destruct (m w) as [[a|e|] w1]; simpl in *; try exact Hm.
  now rewrite Hk.
Qed.

Lemma unobserved_for_each {A} (l : list A) (body : A -> M unit) :
  (forall x, unobserved (body x)) -> unobserved (for_each l body).
Proof.
  intros Hb. induction l as [|x l IH]; simpl.
  - apply unobserved_ret.
  - apply unobserved_bind; [apply Hb|intros _; exact IH].
Qed.

Lemma unobserved_get_self : unobserved get_self.
Proof. intros w. reflexivity. Qed.

Lemma unobserved_set_self a : unobserved (set_self a).
Proof. intros w. reflexivity. Qed.

Lemma unobserved_sendRequest r : unobserved (sendRequest r).
Proof. intros w. reflexivity. Qed.

Lemma unobserved_if {A} (b : bool) (m1 m2 : M A) :
  unobserved m1 -> unobserved m2 -> unobserved (if b then m1 else m2).
Proof. now destruct b. Qed.

Lemma unobserved_assign f : unobserved (BLPTS.assign f).
Proof.
  apply unobserved_bind; [apply unobserved_get_self|intros a; apply unobserved_set_self].
Qed.

Lemma unobserved_attr {A} name (f : Attrs -> option A) : unobserved (BLPTS.attr name f).
Proof.
  apply unobserved_bind; [apply unobserved_get_self|]. intros a.
  destruct (f a); [apply unobserved_ret|apply unobserved_raise].
Qed.

Lemma unobserved_on_request f : unobserved (BLPTS.on_request f).
Proof. apply unobserved_bind; [apply unobserved_attr|intros r; apply unobserved_assign]. Qed.

Create HintDb unobserved.

#[local] Hint Resolve unobserved_ret unobserved_raise unobserved_lift unobserved_get_self
  unobserved_set_self unobserved_sendRequest unobserved_assign unobserved_attr
  unobserved_on_request : unobserved.

Ltac unobserve :=
  repeat first
    [ solve [auto with unobserved]
    | apply unobserved_for_each; intros ?
    | apply unobserved_if
    | apply unobserved_bind; [|intros ?] ].

(** Filling and sending the request calls no observer. *)
Lemma unobserved_get_send newS newF kw : unobserved (BLPTS.get_send newS newF kw).
Proof. unfold BLPTS.get_send, BLPTS.fillRequest. unobserve. Qed.


Section ReferenceMode.

Variable update : Notification -> option exn.
Variable parse_datetime : string -> option Date.

(** The client is in reference mode: its keyword arguments have no
    startDate. *)
Definition reference_mode (w : World) : Prop := kwargs (self w) !! "startDate" = None.

Let body (ev : Event) (i : nat) : M unit :=
  a <- get_self ;;
  if bool_decide (is_Some (kwargs a !! "startDate"))
  then BLPTS.historical update parse_datetime ev
  else BLPTS.reference update ev i.

Lemma body_reference ev i w :
  reference_mode w -> body ev i w = BLPTS.reference update ev i w.
Proof.
  intros Hmode. unfold body, bind, get_self. rewrite bool_decide_eq_false_2; [reflexivity|].
  unfold reference_mode in Hmode. rewrite Hmode. now intros [x Hx].
Qed.

Lemma securities_loop_quiet ev (l : list nat) : forall w,
  reference_mode w ->
  exists o lines, for_each l (body ev) w = (o, printing_all lines w).
Proof.
  induction l as [|i l IH]; intros w Hmode; simpl.
  - exists (Ok tt), []. unfold ret. now rewrite printing_all_nil.
  - unfold bind at 1. rewrite body_reference by exact Hmode.
    destruct (reference_quiet update ev i w) as (o & lines & Href). rewrite Href.
    destruct o as [[]|e|]; eauto.
    destruct (IH (printing_all lines w) Hmode) as (o' & lines' & Hrest).
    rewrite Hrest, printing_all_app. eauto.
Qed.

Lemma process_unfold ev w msg sd :
  first_message ev = Ok msg -> getElement msg SECURITY_DATA = Ok sd ->
  BLPTS.process update parse_datetime ev w = for_each (seq 0 (numValues sd)) (body ev) w.
Proof. intros H1 H2. unfold BLPTS.process, bind, lift. now rewrite H1, H2. Qed.

(** In reference mode, working on an event calls no observer. *)
Lemma process_reference_quiet ev w :
  reference_mode w ->
  exists o lines, BLPTS.process update parse_datetime ev w = (o, printing_all lines w).
Proof.
  intros Hmode.
  destruct (first_message ev) as [msg|e|] eqn:E1.
  - destruct (getElement msg SECURITY_DATA) as [sd|e|] eqn:E2.
    + rewrite (process_unfold ev w msg sd E1 E2). now apply securities_loop_quiet.
    + exists (Raise e), []. unfold BLPTS.process, bind, lift.
      now rewrite E1, E2, printing_all_nil.
    + exfalso. revert E2. apply getElement_finished.
  - exists (Raise e), []. unfold BLPTS.process, bind, lift.
    now rewrite E1, printing_all_nil.
  - exfalso. revert E1. apply first_message_finished.
Qed.


Variable evs : nat -> Event.


End ReferenceMode.


(** A reference-data response for one security with one field. *)
Definition reference_message : Element :=
  Sequence [("securityData",
             Array [Sequence [("security", Scalar (Some "SPX Index") None None);
                              ("fieldData",
                               Sequence [("PX_LAST",
                                          Scalar (Some "1831.5") (Some 1831.5%float) None)])]])].

Definition reference_session : nat -> Event :=
  fun _ => mkEvent RESPONSE [reference_message].

(** A client with one registered observer and no request yet. *)
Definition one_observer : World :=
  mkWorld [] 0 [] [] (BLPTS.register 1 (BLPTS.init ∅)).


(** ** What the observers of [BLPTS.get] are handed *)



Lemma field_column_lookup f rows col :
  BLPTS.field_column f rows = Ok col ->
  forall i row, rows !! i = Some row ->
    exists c, col !! i = Some c /\
      if hasElement row f
      then exists x, (e <~ getElement row f ;; getValueAsFloat e) = Ok x /\ c = CFloat x
      else c = NaN.
Proof.
  intros Hcol i row Hrow.
  destruct (map_calls_lookup _ _ _ Hcol i row Hrow) as (c & Hc & Hcall).
  exists c. split; [exact Hc|]. revert Hcall. unfold obind.
  destruct (hasElement row f).
  - destruct (getElement row f) as [e| |]; try discriminate.
    destruct (getValueAsFloat e) as [x| |]; try discriminate.
    intros [= <-]. eauto.
  - now intros [= <-].
Qed.

Section Delivery.

Variable update : Notification -> option exn.
Variable parse_datetime : string -> option Date.




End Delivery.


Section GetHistorical.

Variable update : Notification -> option exn.
Variable parse_datetime : string -> option Date.
Variable evs : nat -> Event.



End GetHistorical.


(** pandas reading the two dates of the sample response. *)
Definition parse_january (s : string) : option Date :=
  if bool_decide (s = "2014-01-02") then Some (mkDate 2014 1 2)
  else if bool_decide (s = "2014-01-03") then Some (mkDate 2014 1 3)
  else None.

(** A client with the observers 3 and 7 registered in that order. *)
Definition observed_client : World :=
  mkWorld [] 0 [] [] (BLPTS.register 7 (BLPTS.register 3 (BLPTS.init ∅))).

(** * Further properties of the two clients *)

(** ** The requests BLP2 builds *)

Lemma assoc_append_new k v arrs :
  k ∉ arrs.*1 -> assoc_append k v arrs = arrs ++ [(k, [v])].
Proof.
  induction arrs as [|[k' vs] arrs IH]; intros Hk; simpl; [reflexivity|].
  rewrite bool_decide_eq_false_2.
  - rewrite IH; [reflexivity|]. intros Hin. apply Hk. simpl. now apply list_elem_of_further.
  - intros ->. apply Hk. simpl. apply list_elem_of_here.
Qed.

Lemma assoc_append_last k v vs arrs :
  k ∉ arrs.*1 -> assoc_append k v (arrs ++ [(k, vs)]) = arrs ++ [(k, vs ++ [v])].
Proof.
  induction arrs as [|[k' vs'] arrs IH]; intros Hk; simpl.
  - now rewrite bool_decide_eq_true_2.
  - rewrite bool_decide_eq_false_2.
    + rewrite IH; [reflexivity|]. intros Hin. apply Hk. simpl. now apply list_elem_of_further.
    + intros ->. apply Hk. simpl. apply list_elem_of_here.
Qed.

(** The array element [k] of a request after the values [l] were
    appended to it one by one: absent when there was nothing to append. *)
Definition array_of (k : string) (l : list string) : list (string * list string) :=
  match l with [] => [] | _ :: _ => [(k, l)] end.

Lemma fold_assoc_append k l : forall vs arrs,
  k ∉ arrs.*1 ->
  fold_left (fun a s => assoc_append k s a) l (arrs ++ [(k, vs)]) = arrs ++ [(k, vs ++ l)].
Proof.
  induction l as [|x l IH]; intros vs arrs Hk; simpl.
  - now rewrite app_nil_r.
  - rewrite assoc_append_last by exact Hk. rewrite IH by exact Hk.
    now rewrite <- app_assoc.
Qed.

Lemma fold_assoc_append_new k l arrs :
  k ∉ arrs.*1 ->
  fold_left (fun a s => assoc_append k s a) l arrs = arrs ++ array_of k l.
Proof.
  intros Hk. destruct l as [|x l]; simpl; [now rewrite app_nil_r|].
  rewrite assoc_append_new by exact Hk. now rewrite fold_assoc_append.
Qed.

Lemma arrays_fold_append k l : forall r,
  arrays (fold_left (fun r s => append k s r) l r) =
  fold_left (fun a s => assoc_append k s a) l (arrays r).
Proof. induction l as [|x l IH]; intros r; simpl; [reflexivity|]. now rewrite IH. Qed.

Lemma scalars_fold_append k l : forall r,
  scalars (fold_left (fun r s => append k s r) l r) = scalars r.
Proof. induction l as [|x l IH]; intros r; simpl; [reflexivity|]. now rewrite IH. Qed.

Lemma overrides_fold_append k l : forall r,
  overrides (fold_left (fun r s => append k s r) l r) = overrides r.
Proof. induction l as [|x l IH]; intros r; simpl; [reflexivity|]. now rewrite IH. Qed.

Lemma service_fold_append k l : forall r,
  service (fold_left (fun r s => append k s r) l r) = service r.
Proof. induction l as [|x l IH]; intros r; simpl; [reflexivity|]. now rewrite IH. Qed.

Lemma newly_sent_app w w' rs : sent w' = sent w ++ rs -> newly_sent w w' = rs.
Proof. intros H. unfold newly_sent. rewrite H. apply drop_app_length. Qed.

(** X1: whatever the session does, [bdp] sends exactly one request: a
    ReferenceDataRequest on //BLP/refdata for the one security and the
    one field.  An override is attached for each override field that is
    not the empty string, the first before the second; a value given
    with an empty override field is dropped. *)
Theorem bdp_sends_one_request_with_the_nonempty_overrides
    (evs : nat -> Event) (fuel : nat)
    (strSecurity strData strOverrideField strOverrideValue
     strOverrideField2 strOverrideValue2 : string) (w : World) :
  exists r,
    newly_sent w (snd (BLP2.bdp evs fuel strSecurity strData strOverrideField
                                strOverrideValue strOverrideField2 strOverrideValue2 w))
      = [r] /\
    service r = "//BLP/refdata" /\
    operation r = "ReferenceDataRequest" /\
    arrays r = [("securities", [strSecurity]); ("fields", [strData])] /\
    scalars r = [] /\
    overrides r =
      (if bool_decide (strOverrideField = "") then []
       else [(AStr strOverrideField, AStr strOverrideValue)]) ++
      (if bool_decide (strOverrideField2 = "") then []
       else [(AStr strOverrideField2, AStr strOverrideValue2)]).
Proof.
  exists (BLP2.bdp_request strSecurity strData strOverrideField strOverrideValue
                           strOverrideField2 strOverrideValue2).
  split; [apply newly_sent_app, bdp_sent|].
  unfold BLP2.bdp_request.
  destruct (decide (strOverrideField = "")) as [E1|E1];
    destruct (decide (strOverrideField2 = "")) as [E2|E2];
    repeat first [rewrite (bool_decide_eq_true_2 (_ = "")) by assumption
                 |rewrite (bool_decide_eq_false_2 (_ = "")) by assumption
                 |rewrite (bool_decide_eq_true_2 (_ <> "")) by assumption
                 |rewrite (bool_decide_eq_false_2 (_ <> "")) by (intros H; now apply H)];
    repeat split.
Qed.

(** X2: whatever the session does, [bdh] sends exactly one request: a
    HistoricalDataRequest on //BLP/refdata for the one security and the
    fields in the order given (a single string counting as a list of
    one), with the two dates, the split adjustment and the periodicity as
    its scalar elements.  The split adjustment goes out as the text
    'TRUE' or 'FALSE' after the truth value of the argument, so that any
    non-empty string, the string 'FALSE' included, is sent as 'TRUE'. *)
Theorem bdh_sends_one_request_with_dates_and_truth_value
    (evs : nat -> Event) (fuel : nat) (strSecurity : string) (strData : str_or_list)
    (startdate enddate : Date) (adjustmentSplit periodicity : arg)
    (singleFrame : bool) (w : World) :
  exists r,
    newly_sent w (snd (BLP2.bdh evs fuel strSecurity strData startdate enddate
                                adjustmentSplit periodicity singleFrame w)) = [r] /\
    service r = "//BLP/refdata" /\
    operation r = "HistoricalDataRequest" /\
    arrays r = ("securities", [strSecurity]) :: array_of "fields" (as_list strData) /\
    scalars r = [("startDate", AStr (strftime_Ymd startdate));
                 ("endDate", AStr (strftime_Ymd enddate));
                 ("adjustmentSplit", AStr (if truthy adjustmentSplit then "TRUE" else "FALSE"));
                 ("periodicitySelection", periodicity)] /\
    overrides r = [] /\
    (forall s, adjustmentSplit = AStr s -> s <> "" ->
               assoc "adjustmentSplit" (scalars r) = Some (AStr "TRUE")).
Proof.
  exists (BLP2.bdh_request strSecurity (as_list strData) startdate enddate
                           adjustmentSplit periodicity).
  split; [apply newly_sent_app, bdh_sent|].
  unfold BLP2.bdh_request. cbn [service operation arrays scalars overrides set].
  rewrite service_fold_append, operation_fold_append, arrays_fold_append,
    scalars_fold_append, overrides_fold_append.
  cbn [service operation arrays scalars overrides append createRequest assoc_append assoc_set].
  split; [reflexivity|]. split; [reflexivity|].
  split.
  { rewrite (fold_assoc_append_new "fields" (as_list strData) [("securities", [strSecurity])]).
    - reflexivity.
    - simpl. intros H. apply list_elem_of_singleton in H. discriminate H. }
  split; [reflexivity|]. split; [reflexivity|].
  intros s -> Hs. simpl. now rewrite bool_decide_eq_false_2.
Qed.

(** ** Responses are not matched to requests *)

(** What a call makes of the RESPONSE event it stopped on. *)
Definition answer (c : BLP2_call) (ev : Event) : outcome pyval :=
  fst (continuation_of c ev empty_world).

(** Working on the RESPONSE event looks at nothing but the event and
    changes nothing but the standard output. *)
Lemma continuation_prints c ev :
  exists lines, forall w,
    continuation_of c ev w = (answer c ev, printing_all lines w).
Proof.
  assert (forall flds single, exists lines, forall w,
            bdh_continuation flds single ev w =
            (fst (bdh_continuation flds single ev empty_world), printing_all lines w))
    as Hbdh.
  { intros flds single. exists []. intros w. rewrite printing_all_nil.
    unfold bdh_continuation, bind, lift, ret.
    destruct (BLP2.bdh_table ev flds) as [df| |]; try reflexivity.
    destruct single; [|reflexivity].
    destruct (select flds df) as [cols| |]; try reflexivity.
    destruct (last_item _); reflexivity. }
  unfold answer. destruct c; unfold continuation_of; try apply Hbdh.
  - destruct (BLP2.bdp_extract ev strData) as [s|e|] eqn:E.
    + exists []. intros w. rewrite printing_all_nil.
      unfold bind, try_except, lift, ret. reflexivity.
    + exists ["error with " +:+ strSecurity +:+ " " +:+ strData]. intros w.
      unfold bind, try_except, lift, ret, print. reflexivity.
    + exists []. intros w. rewrite printing_all_nil.
      unfold bind, try_except, lift, ret. reflexivity.
  - exists []. intros w. rewrite printing_all_nil. unfold bind, lift, ret.
    destruct (map_calls _ _); reflexivity.
Qed.

Lemma answer_finished c ev : answer c ev <> Pending.
Proof. unfold answer. apply settled_continuation. Qed.

(** A call is still waiting, or has stopped on the first RESPONSE event
    of the queue and made its answer of it. *)
Lemma run_call_cases evs fuel c w :
  ((forall j, j < fuel -> eventType (evs (cursor w + j)) <> RESPONSE) /\
   run_call evs fuel c w = (Pending, advance fuel (sending (request_of c) w))) \/
  (exists n lines,
     n < fuel /\ first_response_at evs (cursor w) n /\
     run_call evs fuel c w =
       (answer c (evs (cursor w + n)),
        printing_all lines (advance (S n) (sending (request_of c) w)))).
Proof.
  rewrite run_call_after_poll.
  destruct (after_poll_cases (request_of c) (continuation_of c) evs fuel w)
    as [[Hno Hp]|(n & Hn & Hf & Hp)].
  - left. now split.
  - right. destruct (continuation_prints c (evs (cursor w + n))) as [lines Hk].
    exists n, lines. split; [exact Hn|]. split; [exact Hf|]. now rewrite Hp, Hk.
Qed.

(** X3: a BLP2 call stops on the first RESPONSE event of the queue and
    its outcome is read off that event alone.  Two runs of the same call
    that stop on equal events end alike, whatever else was queued before
    (partial responses included: they are taken from the queue and
    dropped), and each has taken from the queue exactly the events up to
    and including that RESPONSE. *)
Theorem blp2_outcome_is_read_off_the_first_response
    (c : BLP2_call) (evs evs' : nat -> Event) (fuel fuel' n n' : nat) (w w' : World) :
  n < fuel -> n' < fuel' ->
  first_response_at evs (cursor w) n ->
  first_response_at evs' (cursor w') n' ->
  evs (cursor w + n) = evs' (cursor w' + n') ->
  fst (run_call evs fuel c w) = fst (run_call evs' fuel' c w') /\
  fst (run_call evs fuel c w) <> Pending /\
  cursor (snd (run_call evs fuel c w)) = cursor w + S n /\
  cursor (snd (run_call evs' fuel' c w')) = cursor w' + S n'.
Proof.
  intros Hn Hn' Hf Hf' Hev.
  destruct (run_call_cases evs fuel c w) as [[Hno _]|(m & lines & Hm & Hfm & Hrun)].
  { exfalso. destruct Hf as [Hf _]. now apply (Hno n). }
  destruct (run_call_cases evs' fuel' c w') as [[Hno _]|(m' & lines' & Hm' & Hfm' & Hrun')].
  { exfalso. destruct Hf' as [Hf' _]. now apply (Hno n'). }
  rewrite (first_response_at_unique _ _ _ _ Hfm Hf) in Hrun.
  rewrite (first_response_at_unique _ _ _ _ Hfm' Hf') in Hrun'.
  rewrite Hrun, Hrun'. simpl. rewrite Hev.
  split; [reflexivity|]. split; [apply answer_finished|]. split; reflexivity.
Qed.

(** A session whose queue holds a status event and a partial response
    before the response, and one that delivers the response at once. *)
Definition slow_session (n : nat) : Event :=
  match n with
  | 0 => mkEvent SESSION_STATUS []
  | 1 => mkEvent PARTIAL_RESPONSE [two_day_history]
  | _ => mkEvent RESPONSE [two_day_history]
  end.

Definition prompt_session : nat -> Event := fun _ => mkEvent RESPONSE [two_day_history].

(** X3 at work: [bdh] ends alike on the two sessions, three events being
    taken from the queue of the first and one from that of the second. *)
Lemma blp2_outcome_slow_and_prompt_session :
  let c := Call_bdh "SPX Index" (Str "PX_LAST") (mkDate 2014 1 1) (mkDate 2014 1 9)
                    (ABool false) (AStr "DAILY") false in
  fst (run_call slow_session 5 c empty_world) = fst (run_call prompt_session 1 c empty_world) /\
  fst (run_call slow_session 5 c empty_world) <> Pending /\
  cursor (snd (run_call slow_session 5 c empty_world)) = 3 /\
  cursor (snd (run_call prompt_session 1 c empty_world)) = 1.
Proof.
  intros c.
  apply (blp2_outcome_is_read_off_the_first_response c slow_session prompt_session
           5 1 2 0 empty_world empty_world).
  - lia.
  - lia.
  - split; [reflexivity|]. intros [|[|k]] Hk; [discriminate|discriminate|simpl in Hk; lia].
  - split; [reflexivity|]. intros k Hk. lia.
  - reflexivity.
Defined.

Lemma answer_bdp sec sec' fld o1 v1 o2 v2 o1' v1' o2' v2' ev :
  answer (Call_bdp sec fld o1 v1 o2 v2) ev = answer (Call_bdp sec' fld o1' v1' o2' v2') ev.
Proof.
  unfold answer. simpl. unfold bind, try_except, lift, ret, print.
  destruct (BLP2.bdp_extract ev fld); reflexivity.
Qed.

Lemma run_call_same_answer evs fuel c c' w :
  (forall ev, answer c ev = answer c' ev) ->
  fst (run_call evs fuel c w) = fst (run_call evs fuel c' w).
Proof.
  intros Hsame.
  destruct (run_call_cases evs fuel c w) as [[Hno Hrun]|(n & lines & Hn & Hf & Hrun)];
    destruct (run_call_cases evs fuel c' w) as [[Hno' Hrun']|(n' & lines' & Hn' & Hf' & Hrun')];
    rewrite Hrun, Hrun'; simpl.
  - reflexivity.
  - exfalso. destruct Hf' as [Hf' _]. now apply (Hno n').
  - exfalso. destruct Hf as [Hf _]. now apply (Hno' n).
  - rewrite (first_response_at_unique _ _ _ _ Hf Hf'). apply Hsame.
Qed.

(** X4: the value a BLP2 call ends with does not depend on what was
    asked for, only on what the queue delivers: [bdp] gives the same
    outcome whatever the security and the overrides, [bdh] whatever the
    security, the dates, the split adjustment and the periodicity, and
    [bsrch] whatever the domain.  The request id that [sendRequest]
    returns is never compared with anything. *)
Theorem blp2_value_does_not_depend_on_what_was_sent
    (evs : nat -> Event) (fuel : nat) (w : World) :
  (forall fld sec o1 v1 o2 v2 sec' o1' v1' o2' v2',
     fst (BLP2.bdp evs fuel sec fld o1 v1 o2 v2 w) =
     fst (BLP2.bdp evs fuel sec' fld o1' v1' o2' v2' w)) /\
  (forall flds single sec sd ed adj per sec' sd' ed' adj' per',
     fst (BLP2.bdh evs fuel sec flds sd ed adj per single w) =
     fst (BLP2.bdh evs fuel sec' flds sd' ed' adj' per' single w)) /\
  (forall domain domain',
     fst (BLP2.bsrch evs fuel domain w) = fst (BLP2.bsrch evs fuel domain' w)).
Proof.
  split; [|split].
  - intros fld sec o1 v1 o2 v2 sec' o1' v1' o2' v2'.
    apply (run_call_same_answer evs fuel (Call_bdp sec fld o1 v1 o2 v2)
             (Call_bdp sec' fld o1' v1' o2' v2') w).
    intros ev. apply answer_bdp.
  - intros flds single sec sd ed adj per sec' sd' ed' adj' per'.
    apply (run_call_same_answer evs fuel (Call_bdh sec flds sd ed adj per single)
             (Call_bdh sec' flds sd' ed' adj' per' single) w).
    reflexivity.
  - intros domain domain'.
    apply (run_call_same_answer evs fuel (Call_bsrch domain) (Call_bsrch domain') w).
    reflexivity.
Qed.

(** ** What [bsrch] makes of a grid *)

(** A well-formed answer to an ExcelGetGridRequest: a message holds
    records, a record holds fields, a field holds a string. *)
Definition grid_field (s : string) : Element :=
  Sequence [("StringValue", Scalar (Some s) None None)].

Definition grid_record (row : list string) : Element :=
  Sequence [("DataFields", Array (grid_field <$> row))].

Definition grid_message (rows : list (list string)) : Element :=
  Sequence [("DataRecords", Array (grid_record <$> rows))].

Lemma map_calls_fmap {A B C} (f : B -> outcome C) (g : A -> B) (h : A -> C) (l : list A) :
  (forall x, f (g x) = Ok (h x)) -> map_calls f (g <$> l) = Ok (h <$> l).
Proof.
  intros Hfg. induction l as [|x l IH]; [reflexivity|].
  rewrite !fmap_cons. cbn [map_calls]. rewrite Hfg, IH. reflexivity.
Qed.

Lemma bsrch_message_grid rows : BLP2.bsrch_message (grid_message rows) = Ok (concat rows).
Proof.
  unfold BLP2.bsrch_message, grid_message. simpl.
  rewrite (map_calls_fmap _ grid_record (fun row => row)).
  - simpl. now rewrite list_fmap_id.
  - intros row. unfold grid_record. simpl.
    rewrite (map_calls_fmap _ grid_field (fun s => s)).
    + now rewrite list_fmap_id.
    + reflexivity.
Qed.

(** X5: [bsrch] reads every message of the RESPONSE event it stopped on
    and returns one column of strings: the StringValue of every field of
    every record of every message, in the order they come.  The
    boundaries between records and between messages are lost. *)
Theorem bsrch_returns_every_string_in_one_column
    (evs : nat -> Event) (fuel n : nat) (domain : arg) (w : World)
    (grids : list (list (list string))) :
  n < fuel ->
  first_response_at evs (cursor w) n ->
  messages (evs (cursor w + n)) = grid_message <$> grids ->
  fst (BLP2.bsrch evs fuel domain w) = Ok (PFrameOfList (concat (@concat string <$> grids))).
Proof.
  intros Hn Hf Hmsgs. rewrite (bsrch_returns evs n fuel) by assumption.
  rewrite Hmsgs, (map_calls_fmap _ grid_message (@concat string)); [reflexivity|].
  apply bsrch_message_grid.
Qed.

(** A session that answers with two messages, of two records and of one
    record. *)
Definition grid_session : nat -> Event :=
  fun _ => mkEvent RESPONSE [grid_message [["XS01"; "ACME 5 2030"]; ["XS02"; "ACME 6 2031"]];
                             grid_message [["XS03"; "ACME 7 2032"]]].

(** X5 at work: six strings in one column. *)
Lemma bsrch_two_messages :
  fst (BLP2.bsrch grid_session 1 (AStr "fi:EX") empty_world) =
  Ok (PFrameOfList ["XS01"; "ACME 5 2030"; "XS02"; "ACME 6 2031"; "XS03"; "ACME 7 2032"]).
Proof.
  apply (bsrch_returns_every_string_in_one_column grid_session 1 0 (AStr "fi:EX") empty_world
           [[["XS01"; "ACME 5 2030"]; ["XS02"; "ACME 6 2031"]]; [["XS03"; "ACME 7 2032"]]]).
  - lia.
  - split; [reflexivity|]. intros k Hk. lia.
  - reflexivity.
Defined.

(** ** Edge cases of the response *)

(** X6: on a RESPONSE event that holds no message, the three operations
    part ways: [bdp] prints its diagnostic and returns the placeholder,
    [bdh] ends with the iterator's StopIteration, and [bsrch] returns an
    empty column. *)
Theorem response_without_message
    (evs : nat -> Event) (fuel n : nat) (w : World) :
  n < fuel ->
  first_response_at evs (cursor w) n ->
  messages (evs (cursor w + n)) = [] ->
  (forall sec fld o1 v1 o2 v2,
     fst (BLP2.bdp evs fuel sec fld o1 v1 o2 v2 w) =
       Ok (PStr "Error with api data field, i.g PX_LAST") /\
     stdout (snd (BLP2.bdp evs fuel sec fld o1 v1 o2 v2 w)) =
       stdout w ++ ["error with " +:+ sec +:+ " " +:+ fld]) /\
  (forall sec flds sd ed adj per single,
     fst (BLP2.bdh evs fuel sec flds sd ed adj per single w) = Raise StopIteration) /\
  (forall domain, fst (BLP2.bsrch evs fuel domain w) = Ok (PFrameOfList [])).
Proof.
  intros Hn Hf Hmsgs. split; [|split].
  - intros sec fld o1 v1 o2 v2. rewrite (bdp_returns evs n fuel) by assumption.
    unfold BLP2.bdp_extract, first_message. rewrite Hmsgs. simpl. split; reflexivity.
  - intros sec flds sd ed adj per single. rewrite (bdh_returns evs n fuel) by assumption.
    unfold BLP2.bdh_table, first_message. rewrite Hmsgs. reflexivity.
  - intros domain. rewrite (bsrch_returns evs n fuel) by assumption.
    rewrite Hmsgs. reflexivity.
Qed.

(** X6 at work on a queue of bare RESPONSE events. *)
Lemma response_without_message_bare :
  fst (BLP2.bdp bare_response 1 "SPX Index" "PX_LAST" "" "" "" "" empty_world) =
    Ok (PStr "Error with api data field, i.g PX_LAST") /\
  fst (BLP2.bdh bare_response 1 "SPX Index" (Str "PX_LAST") (mkDate 2014 1 1)
                (mkDate 2014 1 9) (ABool false) (AStr "DAILY") false empty_world) =
    Raise StopIteration /\
  fst (BLP2.bsrch bare_response 1 (AStr "fi:EX") empty_world) = Ok (PFrameOfList []).
Proof.
  destruct (response_without_message bare_response 1 0 empty_world) as (Hbdp & Hbdh & Hbsrch).
  - lia.
  - split; [reflexivity|]. intros k Hk. lia.
  - reflexivity.
  - split; [apply Hbdp|]. split; [apply Hbdh|apply Hbsrch].
Defined.

Lemma select_ok labels df :
  (forall l, l ∈ labels -> l ∈ columns df) -> exists cs, select labels df = Ok cs.
Proof.
  induction labels as [|l labels IH]; intros Hin; simpl; [eauto|].
  rewrite bool_decide_eq_true_2 by apply Hin, list_elem_of_here.
  destruct IH as [cs Hcs]; [intros x Hx; apply Hin; now apply list_elem_of_further|].
  rewrite Hcs. eauto.
Qed.

(** X7: when the historical response holds no row, [bdh] returns an
    empty table with the requested columns, but with [singleFrame] set it
    ends with an IndexError: there is no last row to return. *)
Theorem bdh_single_frame_needs_a_row
    (evs : nat -> Event) (fuel n : nat) (sec : string) (flds : str_or_list)
    (sd ed : Date) (adj per : arg) (w : World) :
  n < fuel ->
  first_response_at evs (cursor w) n ->
  field_data_array (evs (cursor w + n)) = Ok (Array []) ->
  fst (BLP2.bdh evs fuel sec flds sd ed adj per true w) = Raise IndexError /\
  exists df,
    fst (BLP2.bdh evs fuel sec flds sd ed adj per false w) = Ok (PDataFrame df) /\
    index df = [] /\ columns df = as_list flds.
Proof.
  intros Hn Hf Harr.
  destruct (bdh_table_ok (evs (cursor w + n)) (as_list flds)) as [df Hdf].
  { exists (Array []). split; [exact Harr|]. simpl. intros i Hi. lia. }
  destruct (bdh_table_spec _ _ _ Hdf) as (arr & Harr' & Hidx & Hcols & _).
  rewrite Harr in Harr'. injection Harr' as <-. simpl in Hidx.
  rewrite !(bdh_returns evs n fuel) by assumption. rewrite Hdf. simpl. split.
  - destruct (select_ok (as_list flds) df) as [cs Hcs]; [now rewrite Hcols|].
    rewrite Hcs, Hidx. reflexivity.
  - exists df. split; [reflexivity|]. split; [|exact Hcols].
    now apply nil_length_inv.
Qed.

(** A historical response without rows. *)
Definition empty_history : Element :=
  Sequence [("securityData",
             Sequence [("security", Scalar (Some "SPX Index") None None);
                       ("fieldData", Array [])])].

Definition empty_history_session : nat -> Event :=
  fun _ => mkEvent RESPONSE [empty_history].

(** X7 at work. *)
Lemma bdh_single_frame_of_empty_history :
  fst (BLP2.bdh empty_history_session 1 "SPX Index" (Str "PX_LAST") (mkDate 2014 1 1)
                (mkDate 2014 1 9) (ABool false) (AStr "DAILY") true empty_world) =
    Raise IndexError /\
  exists df,
    fst (BLP2.bdh empty_history_session 1 "SPX Index" (Str "PX_LAST") (mkDate 2014 1 1)
                  (mkDate 2014 1 9) (ABool false) (AStr "DAILY") false empty_world) =
      Ok (PDataFrame df) /\
    index df = [] /\ columns df = ["PX_LAST"].
Proof.
  apply (bdh_single_frame_needs_a_row empty_history_session 1 0 "SPX Index" (Str "PX_LAST")
           (mkDate 2014 1 1) (mkDate 2014 1 9) (ABool false) (AStr "DAILY") empty_world).
  - lia.
  - split; [reflexivity|]. intros k Hk. lia.
  - reflexivity.
Defined.

Lemma rows_of_array rows :
  map_calls (getValueAsElement (Array rows)) (seq 0 (length rows)) = Ok rows.
Proof.
  destruct (map_calls_ok (getValueAsElement (Array rows)) (seq 0 (length rows)))
    as [ys Hys].
  { intros i Hi. apply elem_of_seq in Hi. simpl.
    destruct (rows !! i) as [row|] eqn:Hrow; [eauto|].
    apply lookup_ge_None in Hrow. lia. }
  rewrite Hys. f_equal. apply list_eq. intros i.
  pose proof (map_calls_length _ _ _ Hys) as Hlen. rewrite length_seq in Hlen.
  destruct (decide (i < length rows)) as [Hi|Hi].
  - destruct (map_calls_lookup _ _ _ Hys i i) as (y & Hy & Hget);
      [now apply lookup_seq_lt|].
    rewrite Hy. simpl in Hget. destruct (rows !! i); [congruence|discriminate].
  - rewrite !lookup_ge_None_2 by lia. reflexivity.
Qed.

(** The first call of a comprehension that fails decides how the
    comprehension ends. *)
Lemma map_calls_raise {A B} (f : A -> outcome B) (l : list A) (e : exn) :
  (forall x, x ∈ l -> f x = Raise e \/ exists y, f x = Ok y) ->
  (exists x, x ∈ l /\ f x = Raise e) ->
  map_calls f l = Raise e.
Proof.
  induction l as [|x l IH]; intros Hall (x0 & Hin & Hx0).
  - now apply elem_of_nil in Hin.
  - simpl. destruct (Hall x) as [Hx|[y Hy]]; [apply list_elem_of_here| |].
    + now rewrite Hx.
    + rewrite Hy. simpl. rewrite IH; [reflexivity| |].
      * intros z Hz. apply Hall. now apply list_elem_of_further.
      * apply elem_of_cons in Hin as [->|Hin]; [congruence|eauto].
Qed.

Lemma getElementAsFloat_missing row f d :
  getElementAsDatetime row DATE = Ok d -> hasElement row f = false ->
  getElementAsFloat row f = Raise (NotFoundException f).
Proof.
  destruct row as [| |fs]; try discriminate. intros _ Hhas.
  unfold getElementAsFloat, getElement, hasElement in *.
  apply bool_decide_eq_false_1 in Hhas.
  destruct (assoc f fs) as [x|]; [|reflexivity].
  exfalso. apply Hhas. eauto.
Qed.

(** X8: the two clients treat a row that lacks a requested field
    differently.  [bdh] ends with the vendor's NotFoundException and
    returns no table at all, even though every row holds its date and
    every field that is there is a number; over the same rows the
    historical branch of [BLPTS.get] builds the column with NaN in the
    place of every missing value. *)
Theorem bdh_raises_where_get_fills_NaN
    (evs : nat -> Event) (fuel n : nat) (sec f : string) (sd ed : Date)
    (adj per : arg) (single : bool) (w : World) (rows : list Element) :
  n < fuel ->
  first_response_at evs (cursor w) n ->
  field_data_array (evs (cursor w + n)) = Ok (Array rows) ->
  (forall row, row ∈ rows -> exists d, getElementAsDatetime row DATE = Ok d) ->
  (forall row, row ∈ rows -> hasElement row f = true ->
               exists x, getElementAsFloat row f = Ok x) ->
  (exists row, row ∈ rows /\ hasElement row f = false) ->
  fst (BLP2.bdh evs fuel sec (Str f) sd ed adj per single w) = Raise (NotFoundException f) /\
  exists col,
    BLPTS.field_column f rows = Ok col /\
    length col = length rows /\
    forall i row, rows !! i = Some row -> hasElement row f = false -> col !! i = Some NaN.
Proof.
  intros Hn Hf Harr Hdates Hfloats (bad & Hbad & Hmiss). split.
  - rewrite (bdh_returns evs n fuel) by assumption. simpl as_list.
    rewrite bdh_table_unfold, Harr. simpl obind at 1. cbn [numValues].
    rewrite rows_of_array. simpl obind at 1.
    destruct (map_calls_ok (fun x => getElementAsDatetime x DATE) rows Hdates)
      as [dates Edates].
    rewrite Edates. simpl obind at 1. cbn [BLP2.fill_columns].
    rewrite (map_calls_raise (fun x => getElementAsFloat x f) rows (NotFoundException f)).
    + reflexivity.
    + intros row Hrow. destruct (hasElement row f) eqn:Hhas.
      * right. now apply Hfloats.
      * left. destruct (Hdates row Hrow) as [d Hd].
        now apply (getElementAsFloat_missing row f d).
    + exists bad. split; [exact Hbad|]. destruct (Hdates bad Hbad) as [d Hd].
      now apply (getElementAsFloat_missing bad f d).
  - destruct (map_calls_ok
                (fun row => if hasElement row f
                            then e <~ getElement row f ;; x <~ getValueAsFloat e ;; Ok (CFloat x)
                            else Ok NaN) rows) as [col Hcol].
    { intros row Hrow. destruct (hasElement row f) eqn:Hhas; [|eauto].
      destruct (Hfloats row Hrow Hhas) as [x Hx]. unfold getElementAsFloat in Hx.
      destruct (getElement row f) as [e| |]; try discriminate. simpl in Hx |- *.
      rewrite Hx. simpl. eauto. }
    exists col. split; [exact Hcol|]. split; [now apply map_calls_length in Hcol|].
    intros i row Hrow Hhas.
    destruct (field_column_lookup f rows col Hcol i row Hrow) as (c & Hc & Hcell).
    rewrite Hhas in Hcell. now subst c.
Qed.

(** A two-day history whose second row has no price. *)
Definition sparse_history : Element :=
  Sequence [("securityData",
             Sequence [("security", Scalar (Some "SPX Index") None None);
                       ("fieldData",
                        Array [daily_row 2 "2014-01-02" 1831.5;
                               Sequence [("date", Scalar (Some "2014-01-03") None
                                                         (Some (mkDate 2014 1 3)))]])])].

Definition sparse_session : nat -> Event := fun _ => mkEvent RESPONSE [sparse_history].

(** X8 at work. *)
Lemma bdh_raises_on_sparse_history :
  fst (BLP2.bdh sparse_session 1 "SPX Index" (Str "PX_LAST") (mkDate 2014 1 1)
                (mkDate 2014 1 9) (ABool false) (AStr "DAILY") false empty_world) =
    Raise (NotFoundException "PX_LAST") /\
  exists col,
    BLPTS.field_column "PX_LAST"
      [daily_row 2 "2014-01-02" 1831.5;
       Sequence [("date", Scalar (Some "2014-01-03") None (Some (mkDate 2014 1 3)))]]
      = Ok col /\
    length col = 2 /\
    forall i row,
      [daily_row 2 "2014-01-02" 1831.5;
       Sequence [("date", Scalar (Some "2014-01-03") None (Some (mkDate 2014 1 3)))]] !! i
        = Some row ->
      hasElement row "PX_LAST" = false -> col !! i = Some NaN.
Proof.
  apply (bdh_raises_where_get_fills_NaN sparse_session 1 0 "SPX Index" "PX_LAST"
           (mkDate 2014 1 1) (mkDate 2014 1 9) (ABool false) (AStr "DAILY") false
           empty_world).
  - lia.
  - split; [reflexivity|]. intros k Hk. lia.
  - reflexivity.
  - intros row Hrow. apply elem_of_cons in Hrow as [->|Hrow]; [eexists; reflexivity|].
    apply list_elem_of_singleton in Hrow as ->. eexists; reflexivity.
  - intros row Hrow Hhas. apply elem_of_cons in Hrow as [->|Hrow]; [eexists; reflexivity|].
    apply list_elem_of_singleton in Hrow as ->. discriminate Hhas.
  - eexists. split; [apply list_elem_of_further, list_elem_of_here|reflexivity].
Defined.

(** ** What [fillRequest] leaves in the client *)

(** The world with the client's attributes replaced. *)
Definition with_self (a : Attrs) (w : World) : World :=
  mkWorld (sent w) (cursor w) (stdout w) (notified w) a.

Lemma with_request_same r a : request a = Some r -> BLPTS.with_request r a = a.
Proof. destruct a; simpl. now intros ->. Qed.

Lemma with_self_same w : with_self (self w) w = w.
Proof. now destruct w. Qed.

Lemma on_request_ok f w r :
  request (self w) = Some r ->
  BLPTS.on_request f w = (Ok tt, with_self (BLPTS.with_request (f r) (self w)) w).
Proof.
  intros Hr. unfold BLPTS.on_request, BLPTS.attr, BLPTS.assign, bind, get_self, set_self, ret.
  rewrite Hr. reflexivity.
Qed.

Lemma for_each_on_request_append k l : forall w r,
  request (self w) = Some r ->
  for_each l (fun s => BLPTS.on_request (append k s)) w =
  (Ok tt, with_self (BLPTS.with_request (fold_left (fun r s => append k s r) l r) (self w)) w).
Proof.
  induction l as [|x l IH]; intros w r Hr.
  - simpl. unfold ret. now rewrite (with_request_same r), with_self_same.
  - cbn [for_each fold_left]. unfold bind. rewrite (on_request_ok _ w r Hr).
    rewrite (IH _ (append k x r)); [|reflexivity]. reflexivity.
Qed.

Lemma request_eta r :
  r = mkRequest (service r) (operation r) (arrays r) (scalars r) (overrides r).
Proof. now destruct r. Qed.

(** The request after the securities and then the fields were appended
    to a request [r0] that held no array yet. *)
Lemma appended_request secs flds r0 :
  arrays r0 = [] ->
  fold_left (fun r s => append "fields" s r) flds
    (fold_left (fun r s => append "securities" s r) secs r0) =
  mkRequest (service r0) (operation r0)
            (array_of "securities" secs ++ array_of "fields" flds)
            (scalars r0) (overrides r0).
Proof.
  intros Harr.
  rewrite (request_eta (fold_left _ flds _)).
  rewrite !service_fold_append, !operation_fold_append, !scalars_fold_append,
    !overrides_fold_append, !arrays_fold_append, Harr.
  f_equal.
  rewrite (fold_assoc_append_new "securities" secs []) by apply not_elem_of_nil.
  rewrite fold_assoc_append_new; [reflexivity|].
  destruct secs; simpl; [apply not_elem_of_nil|].
  intros H. apply list_elem_of_singleton in H. discriminate H.
Qed.

Lemma bind_ok {A B} (m : M A) (k : A -> M B) w a w' :
  m w = (Ok a, w') -> bind m k w = k a w'.
Proof. intros H. unfold bind. now rewrite H. Qed.

Lemma bind_raise {A B} (m : M A) (k : A -> M B) w e w' :
  m w = (Raise e, w') -> bind m k w = (Raise e, w').
Proof. intros H. unfold bind. now rewrite H. Qed.

(** The closing statements of [fillRequest]: the two lists are kept and
    appended to the request, the securities before the fields. *)
Lemma fillRequest_tail secs flds w r0 :
  request (self w) = Some r0 ->
  (u <- BLPTS.assign (BLPTS.with_securities secs) ;;
   u <- BLPTS.assign (BLPTS.with_fields flds) ;;
   u <- for_each secs (fun s => BLPTS.on_request (append "securities" s)) ;;
   for_each flds (fun f => BLPTS.on_request (append "fields" f))) w =
  (Ok tt,
   with_self (BLPTS.with_request
                (fold_left (fun r s => append "fields" s r) flds
                   (fold_left (fun r s => append "securities" s r) secs r0))
                (BLPTS.with_fields flds (BLPTS.with_securities secs (self w)))) w).
Proof.
  intros Hr.
  rewrite (bind_ok _ _ w tt (with_self (BLPTS.with_securities secs (self w)) w))
    by reflexivity.
  rewrite (bind_ok _ _ _ tt
             (with_self (BLPTS.with_fields flds (BLPTS.with_securities secs (self w))) w))
    by reflexivity.
  erewrite bind_ok; [|apply (for_each_on_request_append "securities" secs _ r0); exact Hr].
  rewrite (for_each_on_request_append "fields" flds _
             (fold_left (fun r s => append "securities" s r) secs r0)) by reflexivity.
  reflexivity.
Qed.

(** X9: with a startDate and an endDate that are dates among the keyword
    arguments, [fillRequest] leaves the client with a fresh
    HistoricalDataRequest that holds the securities and the fields in the
    order given, the two dates as YYYYMMDD and the periodicity, 'DAILY'
    when none is given.  The request held before is discarded, so
    nothing accumulates from one call to the next; the request has no
    override whatever the keyword arguments say; the observers are
    kept. *)
Theorem fillRequest_historical_request
    (secs flds : str_or_list) (kw : gmap string arg) (w : World) (d1 d2 : Date) :
  kw !! "startDate" = Some (ADate d1) ->
  kw !! "endDate" = Some (ADate d2) ->
  let p := default (AStr "DAILY") (kw !! "periodicity") in
  let r := mkRequest "//BLP/refdata" "HistoricalDataRequest"
             (array_of "securities" (as_list secs) ++
              array_of "fields" (as_list flds))
             [("startDate", AStr (strftime_Ymd d1));
              ("endDate", AStr (strftime_Ymd d2));
              ("periodicitySelection", p)]
             [] in
  BLPTS.fillRequest secs flds kw w =
  (Ok tt,
   with_self (mkAttrs (observers (self w)) kw (Some r) (Some (ADate d1)) (Some (ADate d2))
                      (Some p) (output (self w))
                      (Some (as_list secs)) (Some (as_list flds))) w).
Proof.
  intros Hsd Hed p r. unfold BLPTS.fillRequest.
  rewrite (bind_ok _ _ w tt (with_self (BLPTS.with_kwargs kw (self w)) w)) by reflexivity.
  rewrite bool_decide_eq_true_2 by (rewrite Hsd; eauto).
  set (r0 := mkRequest "//BLP/refdata" "HistoricalDataRequest" []
               [("startDate", AStr (strftime_Ymd d1));
                ("endDate", AStr (strftime_Ymd d2));
                ("periodicitySelection", p)] []).
  set (a0 := mkAttrs (observers (self w)) kw (Some r0) (Some (ADate d1)) (Some (ADate d2))
                     (Some p) (output (self w)) (Run.securities (self w))
                     (Run.fields (self w))).
  erewrite (bind_ok _ _ _ tt (with_self a0 w)).
  - rewrite (fillRequest_tail (as_list secs) (as_list flds) _ r0) by reflexivity.
    rewrite appended_request by reflexivity. reflexivity.
  - unfold bind, BLPTS.assign, get_self, set_self, lift, BLPTS.item, BLPTS.attr, ret,
      BLPTS.on_request. cbn [self fst snd]. rewrite Hsd, Hed.
    subst a0 r0 p. destruct (kw !! "periodicity") as [q|]; reflexivity.
Qed.

(** X9 at work: the request of a historical lookup of one security and
    one field. *)
Lemma fillRequest_historical_spx :
  request (self (snd (BLPTS.fillRequest (Str "SPX Index") (Lst ["PX_LAST"])
                                        historical_kwargs empty_world))) =
  Some (mkRequest "//BLP/refdata" "HistoricalDataRequest"
          [("securities", ["SPX Index"]); ("fields", ["PX_LAST"])]
          [("startDate", AStr "20140101"); ("endDate", AStr "20140109");
           ("periodicitySelection", AStr "DAILY")]
          []).
Proof.
  rewrite (fillRequest_historical_request (Str "SPX Index") (Lst ["PX_LAST"])
             historical_kwargs empty_world (mkDate 2014 1 1) (mkDate 2014 1 9))
    by (vm_compute; reflexivity).
  vm_compute. reflexivity.
Defined.

(** X10: without a startDate among the keyword arguments, [fillRequest]
    leaves the client with a fresh ReferenceDataRequest that holds the
    securities and the fields in the order given and, when a
    strOverrideField is given with its strOverrideValue, that one
    override; and with an all-NaN table of the securities by the fields
    as [output].  An endDate or a periodicity among the keyword
    arguments is not looked at, and the dates and the periodicity the
    client held before stay as they were. *)
Theorem fillRequest_reference_request
    (secs flds : str_or_list) (kw : gmap string arg) (w : World) :
  kw !! "startDate" = None ->
  (is_Some (kw !! "strOverrideField") -> is_Some (kw !! "strOverrideValue")) ->
  let ov := match kw !! "strOverrideField", kw !! "strOverrideValue" with
            | Some f, Some v => [(f, v)]
            | _, _ => []
            end in
  let r := mkRequest "//BLP/refdata" "ReferenceDataRequest"
             (array_of "securities" (as_list secs) ++ array_of "fields" (as_list flds))
             [] ov in
  BLPTS.fillRequest secs flds kw w =
  (Ok tt,
   with_self (mkAttrs (observers (self w)) kw (Some r)
                      (startDate (self w)) (endDate (self w)) (periodicity (self w))
                      (Some (DataFrame_new (LStr <$> as_list secs) (as_list flds)))
                      (Some (as_list secs)) (Some (as_list flds))) w).
Proof.
  intros Hsd Hov ov r. unfold BLPTS.fillRequest.
  rewrite (bind_ok _ _ w tt (with_self (BLPTS.with_kwargs kw (self w)) w)) by reflexivity.
  rewrite bool_decide_eq_false_2 by (rewrite Hsd; now intros [x Hx]).
  set (r0 := mkRequest "//BLP/refdata" "ReferenceDataRequest" [] [] ov).
  set (a0 := mkAttrs (observers (self w)) kw (Some r0)
                     (startDate (self w)) (endDate (self w)) (periodicity (self w))
                     (Some (DataFrame_new (LStr <$> as_list secs) (as_list flds)))
                     (Run.securities (self w)) (Run.fields (self w))).
  erewrite (bind_ok _ _ _ tt (with_self a0 w)).
  - rewrite (fillRequest_tail (as_list secs) (as_list flds) _ r0) by reflexivity.
    rewrite appended_request by reflexivity. reflexivity.
  - unfold bind, BLPTS.assign, get_self, set_self, lift, BLPTS.item, BLPTS.attr, ret,
      BLPTS.on_request. cbn [self fst snd]. subst a0 r0 ov.
    destruct (kw !! "strOverrideField") as [f|].
    + destruct Hov as [v Hv]; [eauto|]. rewrite Hv. reflexivity.
    + reflexivity.
Qed.

(** Keyword arguments that name an override. *)
Definition override_kwargs : gmap string arg :=
  <["strOverrideField" := AStr "PX_BID"]> (<["strOverrideValue" := AStr "200"]> ∅).

(** X10 at work: the example of the class documentation. *)
Lemma fillRequest_reference_with_override :
  request (self (snd (BLPTS.fillRequest (Str "US900123AL40 Govt") (Str "YLD_YTM_BID")
                                        override_kwargs empty_world))) =
  Some (mkRequest "//BLP/refdata" "ReferenceDataRequest"
          [("securities", ["US900123AL40 Govt"]); ("fields", ["YLD_YTM_BID"])]
          []
          [(AStr "PX_BID", AStr "200")]).
Proof.
  rewrite (fillRequest_reference_request (Str "US900123AL40 Govt") (Str "YLD_YTM_BID")
             override_kwargs empty_world)
    by (vm_compute; first [reflexivity | intros _; eexists; reflexivity]).
  vm_compute. reflexivity.
Defined.


(** X11: [fillRequest] stops half-way when the end date is missing or
    the start date is not a date, and by then it has already replaced
    the keyword arguments and the request of the client.  With a
    startDate but no endDate it ends with KeyError 'endDate'; with a
    startDate that is not a date object it ends with an AttributeError
    for strftime.  In both cases the client is left with the new keyword
    arguments, a fresh HistoricalDataRequest holding no date, no
    security and no field, and the securities and fields it had before;
    a call of [get] without new securities and fields then sends that
    empty request. *)
Theorem fillRequest_stops_half_way
    (secs flds : str_or_list) (kw : gmap string arg) (w : World) :
  let left_with := fun (e : exn) (sd ed : option arg) =>
    let r := createRequest "//BLP/refdata" "HistoricalDataRequest" in
    exists w',
      BLPTS.fillRequest secs flds kw w = (Raise e, w') /\
      kwargs (self w') = kw /\
      request (self w') = Some r /\
      startDate (self w') = sd /\ endDate (self w') = ed /\
      Run.securities (self w') = Run.securities (self w) /\
      Run.fields (self w') = Run.fields (self w) /\
      sent w' = sent w /\
      forall kw', BLPTS.get_send (Lst []) (Lst []) kw' w' = (Ok tt, sending r w') in
  (forall sd, kw !! "startDate" = Some sd -> kw !! "endDate" = None ->
     left_with (KeyError "endDate") (Some sd) (endDate (self w))) /\
  (forall sd ed, kw !! "startDate" = Some sd -> kw !! "endDate" = Some ed ->
     (forall d, sd <> ADate d) ->
     left_with (AttributeError "strftime") (Some sd) (Some ed)).
Proof.
  intros left_with. subst left_with. cbv beta zeta.
  split.
  - intros sd Hsd Hed. eexists. split.
    + unfold BLPTS.fillRequest.
      rewrite (bind_ok _ _ w tt (with_self (BLPTS.with_kwargs kw (self w)) w))
        by reflexivity.
      rewrite bool_decide_eq_true_2 by (rewrite Hsd; eauto).
      apply bind_raise.
      unfold bind, BLPTS.assign, get_self, set_self, lift, BLPTS.item.
      cbn [self fst snd]. rewrite Hsd, Hed. reflexivity.
    + repeat split.
  - intros sd ed Hsd Hed Hnot.
    exists (with_self
              (BLPTS.with_periodicity (default (AStr "DAILY") (kw !! "periodicity"))
                 (BLPTS.with_endDate ed
                    (BLPTS.with_startDate sd
                       (BLPTS.with_request
                          (createRequest "//BLP/refdata" "HistoricalDataRequest")
                          (BLPTS.with_kwargs kw (self w)))))) w).
    split.
    + unfold BLPTS.fillRequest.
      rewrite (bind_ok _ _ w tt (with_self (BLPTS.with_kwargs kw (self w)) w))
        by reflexivity.
      rewrite bool_decide_eq_true_2 by (rewrite Hsd; eauto).
      apply bind_raise.
      unfold bind, BLPTS.assign, get_self, set_self, lift, BLPTS.item, BLPTS.attr, ret.
      cbn [self fst snd]. rewrite Hsd, Hed.
      destruct (kw !! "periodicity") as [q|]; cbn;
        (destruct sd as [s|b|d]; [reflexivity|reflexivity|now contradiction (Hnot d)]).
    + repeat split.
Qed.

(** Keyword arguments with a startDate and nothing else. *)
Definition start_only_kwargs : gmap string arg :=
  <["startDate" := ADate (mkDate 2014 1 1)]> ∅.

(** X11 at work: a lookup with a startDate and no endDate. *)
Lemma fillRequest_without_endDate :
  exists w',
    BLPTS.fillRequest (Str "SPX Index") (Lst ["PX_LAST"]) start_only_kwargs empty_world =
      (Raise (KeyError "endDate"), w') /\
    kwargs (self w') = start_only_kwargs /\
    request (self w') = Some (createRequest "//BLP/refdata" "HistoricalDataRequest") /\
    BLPTS.get_send (Lst []) (Lst []) ∅ w' =
      (Ok tt, sending (createRequest "//BLP/refdata" "HistoricalDataRequest") w').
Proof.
  destruct (fillRequest_stops_half_way (Str "SPX Index") (Lst ["PX_LAST"])
              start_only_kwargs empty_world) as [Hend _].
  destruct (Hend (ADate (mkDate 2014 1 1))) as (w' & Hrun & Hkw & Hreq & _ & _ & _ & _ & _ & Hget).
  - vm_compute. reflexivity.
  - vm_compute. reflexivity.
  - exists w'. split; [exact Hrun|]. split; [exact Hkw|]. split; [exact Hreq|]. apply Hget.
Defined.

(** ** Calling [get] again, and the constructor *)

Lemma get_without_request update parse_datetime evs fuel newS newF kw w :
  len newS = 0 -> len newF = 0 -> request (self w) = None ->
  BLPTS.get update parse_datetime evs fuel newS newF kw w =
  (Raise (AttributeError "request"), w).
Proof.
  intros HS HF Hr. unfold BLPTS.get. apply bind_raise. unfold BLPTS.get_send.
  rewrite bool_decide_eq_false_2 by lia.
  unfold BLPTS.attr, bind, get_self, ret, raise. rewrite Hr. reflexivity.
Qed.

(** Steps that change nothing in the world but attributes of the client,
    and among these not the one [f] reads. *)
Definition keeps {B A} (f : Attrs -> B) (m : M A) : Prop :=
  forall w, exists a, snd (m w) = with_self a w /\ f a = f (self w).

Lemma keeps_ret {B A} (f : Attrs -> B) (x : A) : keeps f (ret x).
Proof. intros w. exists (self w). now rewrite with_self_same. Qed.

Lemma keeps_raise {B A} (f : Attrs -> B) (e : exn) : keeps f (raise (A:=A) e).
Proof. intros w. exists (self w). now rewrite with_self_same. Qed.

Lemma keeps_lift {B A} (f : Attrs -> B) (o : outcome A) : keeps f (lift o).
Proof. intros w. exists (self w). now rewrite with_self_same. Qed.

Lemma keeps_bind {B A C} (f : Attrs -> B) (m : M A) (k : A -> M C) :
  keeps f m -> (forall x, keeps f (k x)) -> keeps f (bind m k).
Proof.
  intros Hm Hk w. unfold bind. destruct (Hm w) as (a & Hw & Ha).
  destruct (m w) as [[x|e|] w1]; simpl in Hw; subst w1; simpl; eauto.
  destruct (Hk x (with_self a w)) as (a' & Hw' & Ha'). exists a'.
  rewrite Hw'. split; [reflexivity|]. simpl in Ha'. congruence.
Qed.

Lemma keeps_for_each {B A} (f : Attrs -> B) (l : list A) (body : A -> M unit) :
  (forall x, keeps f (body x)) -> keeps f (for_each l body).
Proof.
  intros Hbody. induction l as [|x l IH]; simpl; [apply keeps_ret|].
  apply keeps_bind; [apply Hbody|intros; exact IH].
Qed.

Lemma keeps_if {B A} (f : Attrs -> B) (b : bool) (m1 m2 : M A) :
  keeps f m1 -> keeps f m2 -> keeps f (if b then m1 else m2).
Proof. now destruct b. Qed.

Lemma keeps_assign {B} (f : Attrs -> B) (g : Attrs -> Attrs) :
  (forall a, f (g a) = f a) -> keeps f (BLPTS.assign g).
Proof. intros Hg w. exists (g (self w)). split; [reflexivity|apply Hg]. Qed.

Lemma keeps_attr {B A} (f : Attrs -> B) name (g : Attrs -> option A) :
  keeps f (BLPTS.attr name g).
Proof.
  intros w. exists (self w). rewrite with_self_same.
  unfold BLPTS.attr, bind, get_self. split; [|reflexivity]. now destruct (g (self w)).
Qed.

Lemma keeps_on_request {B} (f : Attrs -> B) (g : Request -> Request) :
  (forall r a, f (BLPTS.with_request r a) = f a) -> keeps f (BLPTS.on_request g).
Proof.
  intros Hf. unfold BLPTS.on_request. apply keeps_bind; [apply keeps_attr|].
  intros r. apply keeps_assign. intros a. apply Hf.
Qed.

Create HintDb keeps.

#[local] Hint Resolve keeps_ret keeps_raise keeps_lift keeps_attr : keeps.

Ltac keep :=
  repeat first
    [ solve [auto with keeps]
    | apply keeps_on_request; intros ? ?; reflexivity
    | apply keeps_assign; intros ?; reflexivity
    | apply keeps_for_each; intros ?
    | apply keeps_if
    | apply keeps_bind; [|intros ?] ].

Lemma fillRequest_keeps_observers secs flds kw :
  keeps observers (BLPTS.fillRequest secs flds kw).
Proof. unfold BLPTS.fillRequest. keep. Qed.

Lemma fillRequest_kwargs secs flds kw w :
  kwargs (self (snd (BLPTS.fillRequest secs flds kw w))) = kw.
Proof.
  unfold BLPTS.fillRequest.
  rewrite (bind_ok _ _ w tt (with_self (BLPTS.with_kwargs kw (self w)) w)) by reflexivity.
  cbv beta.
  match goal with
  | |- kwargs (self (snd (?m ?w0))) = kw =>
      assert (keeps kwargs m) as Hk by keep; destruct (Hk w0) as (a & Hw & Ha)
  end.
  rewrite Hw. exact Ha.
Qed.



(** X13: the constructor fills the request only when it is given at
    least one security and at least one field; otherwise the new client
    holds no request, and a [get] without securities and fields on it
    ends with an AttributeError, nothing being sent, taken from the queue
    or told to an observer.  Given both, the constructor is
    [fillRequest] on the new client. *)
Theorem constructor_fills_the_request_given_both
    (secs flds : str_or_list) (kw : gmap string arg) :
  let fresh := mkWorld [] 0 [] [] (BLPTS.init kw) in
  (len secs = 0 \/ len flds = 0 ->
   BLPTS.construct secs flds kw = (Ok tt, fresh) /\
   forall update parse_datetime evs fuel newS newF kw',
     len newS = 0 -> len newF = 0 ->
     BLPTS.get update parse_datetime evs fuel newS newF kw'
               (snd (BLPTS.construct secs flds kw)) =
     (Raise (AttributeError "request"), fresh)) /\
  (0 < len secs -> 0 < len flds ->
   BLPTS.construct secs flds kw = BLPTS.fillRequest secs flds kw fresh /\
   kwargs (self (snd (BLPTS.construct secs flds kw))) = kw /\
   observers (self (snd (BLPTS.construct secs flds kw))) = []).
Proof.
  intros fresh. split.
  - intros Hempty.
    assert (BLPTS.construct secs flds kw = (Ok tt, fresh)) as Hnew.
    { unfold BLPTS.construct. now rewrite bool_decide_eq_false_2 by lia. }
    split; [exact Hnew|]. intros update parse_datetime evs fuel newS newF kw' HS HF.
    rewrite Hnew. simpl snd.
    now apply get_without_request.
  - intros HS HF.
    assert (BLPTS.construct secs flds kw = BLPTS.fillRequest secs flds kw fresh) as Hnew.
    { unfold BLPTS.construct. now rewrite bool_decide_eq_true_2 by lia. }
    split; [exact Hnew|]. rewrite Hnew. split.
    + apply fillRequest_kwargs.
    + destruct (fillRequest_keeps_observers secs flds kw fresh) as (a & Hw & Ha).
      rewrite Hw. exact Ha.
Qed.

(** X13 at work: a client made without securities. *)
Lemma constructor_without_securities :
  BLPTS.construct (Lst []) (Lst ["PX_LAST"]) ∅ = (Ok tt, empty_world) /\
  forall update parse_datetime evs fuel newS newF kw',
    len newS = 0 -> len newF = 0 ->
    BLPTS.get update parse_datetime evs fuel newS newF kw'
              (snd (BLPTS.construct (Lst []) (Lst ["PX_LAST"]) ∅)) =
    (Raise (AttributeError "request"), empty_world).
Proof.
  apply (constructor_fills_the_request_given_both (Lst []) (Lst ["PX_LAST"]) ∅).
  left. reflexivity.
Defined.

(** X14: whatever its arguments and however it ends, [fillRequest]
    touches nothing but attributes of the client: it sends nothing,
    takes no event from the queue, prints nothing and calls no observer.
    It keeps the list of observers, and the keyword arguments of the
    client are afterwards those of this call, also when it ends with an
    exception. *)
Theorem fillRequest_changes_only_attributes
    (secs flds : str_or_list) (kw : gmap string arg) (w : World) :
  let w' := snd (BLPTS.fillRequest secs flds kw w) in
  sent w' = sent w /\ cursor w' = cursor w /\ stdout w' = stdout w /\
  notified w' = notified w /\
  observers (self w') = observers (self w) /\
  kwargs (self w') = kw.
Proof.
  intros w'. subst w'.
  destruct (fillRequest_keeps_observers secs flds kw w) as (a & Hw & Ha).
  split; [now rewrite Hw|]. split; [now rewrite Hw|]. split; [now rewrite Hw|].
  split; [now rewrite Hw|]. split; [now rewrite Hw|]. apply fillRequest_kwargs.
Qed.

(** ** What [get] takes from the queue *)

Section GetQueue.

Variable update : Notification -> option exn.
Variable parse_datetime : string -> option Date.
Variable evs : nat -> Event.

(** How far into the queue a run of the loop went, by the way it
    ended. *)
Definition queue_use (fuel : nat) (c : nat) (o : outcome pyval) (c' : nat) : Prop :=
  match o with
  | Ok _ =>
      exists n, n < fuel /\ first_response_at evs c n /\ c' = c + S n
  | Raise _ =>
      exists m, m < fuel /\ carries_data (evs (c + m)) /\
                (forall k, k < m -> eventType (evs (c + k)) <> RESPONSE) /\
                c' = c + S m
  | Pending =>
      (forall k, k < fuel -> eventType (evs (c + k)) <> RESPONSE) /\ c' = c + fuel
  end.

Lemma queue_use_shift fuel c o c' :
  eventType (evs c) <> RESPONSE ->
  queue_use fuel (S c) o c' -> queue_use (S fuel) c o c'.
Proof.
  intros Hc. destruct o as [v|e|]; simpl.
  - intros (n & Hn & Hf & ->). exists (S n). split; [lia|].
    split; [now apply first_response_at_shift|lia].
  - intros (m & Hm & Hd & Hk & ->). exists (S m). split; [lia|].
    split; [now replace (c + S m) with (S c + m) by lia|]. split; [|lia].
    intros [|k] Hlt.
    + now replace (c + 0) with c by lia.
    + replace (c + S k) with (S c + k) by lia. apply Hk. lia.
  - intros [Hk ->]. split; [|lia]. intros [|k] Hlt.
    + now replace (c + 0) with c by lia.
    + replace (c + S k) with (S c + k) by lia. apply Hk. lia.
Qed.

Lemma get_loop_queue fuel : forall w,
  queue_use fuel (cursor w)
            (fst (BLPTS.get_loop update parse_datetime evs fuel w))
            (cursor (snd (BLPTS.get_loop update parse_datetime evs fuel w))).
Proof.
  induction fuel as [|fuel IH]; intros w.
  - simpl. split; [intros k Hk; lia|lia].
  - rewrite get_loop_step. cbv zeta.
    destruct (settled_data_step update parse_datetime (evs (cursor w)) (advance 1 w))
      as [Hfin Hcur].
    revert Hfin Hcur. case_bool_decide as Hdata.
    + destruct (BLPTS.process update parse_datetime (evs (cursor w)) (advance 1 w))
        as [[u|e|] w1]; simpl; intros Hfin Hcur.
      * case_bool_decide as Hresp; simpl.
        -- exists 0. split; [lia|]. split; [|lia]. split.
           ++ now replace (cursor w + 0) with (cursor w) by lia.
           ++ intros k Hk. lia.
        -- apply queue_use_shift; [exact Hresp|].
           replace (S (cursor w)) with (cursor w1) by lia. apply IH.
      * exists 0. split; [lia|].
        split; [now replace (cursor w + 0) with (cursor w) by lia|].
        split; [intros k Hk; lia|lia].
      * now contradiction Hfin.
    + unfold ret. simpl. intros _ _.
      rewrite bool_decide_eq_false_2 by now apply not_carries_data_not_response.
      apply queue_use_shift; [now apply not_carries_data_not_response|].
      replace (S (cursor w)) with (cursor (advance 1 w)) by (simpl; lia). apply IH.
Qed.

End GetQueue.

(** X15: once its request is sent, [get] takes from the queue the events
    up to and including the first RESPONSE, and never one beyond it.
    When it returns, that is exactly what it took; when it ends with an
    exception, it stopped right after the RESPONSE or PARTIAL_RESPONSE
    event it was working on, no RESPONSE having come before; while it
    waits, every event taken so far was no RESPONSE. *)
Theorem get_takes_the_queue_up_to_the_response
    (update : Notification -> option exn) (parse_datetime : string -> option Date)
    (evs : nat -> Event) (fuel : nat) (newS newF : str_or_list)
    (kw : gmap string arg) (w w1 : World) :
  BLPTS.get_send newS newF kw w = (Ok tt, w1) ->
  let result := BLPTS.get update parse_datetime evs fuel newS newF kw w in
  queue_use evs fuel (cursor w) (fst result) (cursor (snd result)).
Proof.
  intros Hsend result. subst result.
  rewrite (get_after_send update parse_datetime evs fuel newS newF kw w w1 Hsend).
  destruct (settled_get_send newS newF kw w) as [_ Hcur]. rewrite Hsend in Hcur.
  simpl in Hcur. rewrite <- Hcur. apply get_loop_queue.
Qed.

(** X15 at work: on the session that delivers a status event and then
    the response, [get] returns having taken two events. *)
Lemma get_takes_two_events :
  queue_use history_session 5 0
    (fst (BLPTS.get silent parse_january history_session 5 (Lst []) (Lst []) ∅
                    historical_client))
    (cursor (snd (BLPTS.get silent parse_january history_session 5 (Lst []) (Lst []) ∅
                            historical_client))).
Proof.
  apply (get_takes_the_queue_up_to_the_response silent parse_january history_session 5
           (Lst []) (Lst []) ∅ historical_client
           (snd (BLPTS.get_send (Lst []) (Lst []) ∅ historical_client))).
  vm_compute. reflexivity.
Defined.

(** ** Reference mode writes nothing *)

Section ReferenceFrame.

Variable update : Notification -> option exn.
Variable parse_datetime : string -> option Date.
Variable evs : nat -> Event.

Lemma get_loop_reference_frame fuel : forall w,
  reference_mode w ->
  exists lines k,
    snd (BLPTS.get_loop update parse_datetime evs fuel w) =
    printing_all lines (advance k w).
Proof.
  induction fuel as [|fuel IH]; intros w Hmode.
  - exists [], 0. simpl. now rewrite advance_0, printing_all_nil.
  - rewrite get_loop_step. cbv zeta. case_bool_decide as Hdata.
    + destruct (process_reference_quiet update parse_datetime (evs (cursor w))
                  (advance 1 w) Hmode) as (o & lines & Hproc). rewrite Hproc.
      destruct o as [[]|e|]; try (exists lines, 1; reflexivity).
      case_bool_decide; [exists lines, 1; reflexivity|].
      destruct (IH (printing_all lines (advance 1 w)) Hmode) as (lines' & k & Hrest).
      rewrite Hrest. exists (lines ++ lines'), (1 + k).
      unfold printing_all, advance. simpl. f_equal; [lia|now rewrite app_assoc].
    + unfold ret. case_bool_decide.
      * exists [], 1. now rewrite printing_all_nil.
      * destruct (IH (advance 1 w) Hmode) as (lines' & k & Hrest).
        rewrite Hrest. exists lines', (1 + k). now rewrite advance_advance.
Qed.

End ReferenceFrame.

(** X16: in reference mode (no startDate among the keyword arguments of
    the client) the loop of [get] changes no attribute of the client,
    however it ends and whatever the queue delivers: in particular no
    value is ever written into the table [output] that [fillRequest]
    made, which stays as it was.  The loop sends nothing either; it only
    takes events from the queue and prints. *)
Theorem reference_get_never_writes_output
    (update : Notification -> option exn) (parse_datetime : string -> option Date)
    (evs : nat -> Event) (fuel : nat) (newS newF : str_or_list)
    (kw : gmap string arg) (w w1 : World) :
  BLPTS.get_send newS newF kw w = (Ok tt, w1) ->
  reference_mode w1 ->
  let w2 := snd (BLPTS.get update parse_datetime evs fuel newS newF kw w) in
  self w2 = self w1 /\ output (self w2) = output (self w1) /\
  sent w2 = sent w1 /\ stdout w1 `prefix_of` stdout w2.
Proof.
  intros Hsend Hmode w2. subst w2.
  rewrite (get_after_send update parse_datetime evs fuel newS newF kw w w1 Hsend).
  destruct (get_loop_reference_frame update parse_datetime evs fuel w1 Hmode)
    as (lines & k & Hloop).
  rewrite Hloop. simpl. split; [reflexivity|]. split; [reflexivity|].
  split; [reflexivity|]. now exists lines.
Qed.

(** X16 at work: after the lookup of PX_LAST in reference mode the
    table of the client still holds NaN. *)
Lemma reference_lookup_leaves_NaN :
  output (self (snd (BLPTS.get silent no_parser reference_session 1
                               (Lst ["SPX Index"]) (Lst ["PX_LAST"]) ∅ one_observer))) =
  Some (mkDataFrame [LStr "SPX Index"] ["PX_LAST"] [[NaN]]).
Proof.
  destruct (reference_get_never_writes_output silent no_parser reference_session 1
              (Lst ["SPX Index"]) (Lst ["PX_LAST"]) ∅ one_observer
              (snd (BLPTS.get_send (Lst ["SPX Index"]) (Lst ["PX_LAST"]) ∅ one_observer)))
    as (_ & Hout & _).
  - vm_compute. reflexivity.
  - vm_compute. reflexivity.
  - rewrite Hout. vm_compute. reflexivity.
Defined.

(** ** The order of the observer calls in historical mode *)

(** An observer call without its data: who was called, for which
    security and under which field name. *)
Definition call_of (n : Notification) : nat * string * string :=
  (n_observer n, n_security n, n_field n).






Section CallOrder.

Variable update : Notification -> option exn.
Variable parse_datetime : string -> option Date.



End CallOrder.



(** ** Registering and unregistering *)

Lemma list_remove_last o l : o ∉ l -> BLPTS.list_remove o (l ++ [o]) = l.
Proof.
  induction l as [|x l IH]; intros Hout; simpl.
  - now rewrite bool_decide_eq_true_2.
  - rewrite bool_decide_eq_false_2.
    + rewrite IH; [reflexivity|]. intros Hin. apply Hout. now apply list_elem_of_further.
    + intros ->. apply Hout. apply list_elem_of_here.
Qed.

Lemma with_observers_same a : BLPTS.with_observers (observers a) a = a.
Proof. now destruct a. Qed.

(** X18: registering an observer that is not registered and then
    unregistering it gives back the client as it was.  The other way
    round is no round trip: on a list without duplicates, unregistering
    a registered observer and registering it again moves it to the end
    of the list, so that it is called last from then on. *)
Theorem register_then_unregister_restores
    (o : nat) (a : Attrs) :
  (o ∉ observers a -> BLPTS.unregister o (BLPTS.register o a) = a) /\
  (o ∈ observers a -> NoDup (observers a) ->
   observers (BLPTS.register o (BLPTS.unregister o a)) =
   filter (fun x => x <> o) (observers a) ++ [o]).
Proof.
  split.
  - intros Hout. unfold BLPTS.register. rewrite bool_decide_eq_true_2 by exact Hout.
    unfold BLPTS.unregister. cbn [observers BLPTS.with_observers].
    rewrite bool_decide_eq_true_2
      by (apply elem_of_app; right; apply list_elem_of_here).
    rewrite list_remove_last by exact Hout.
    destruct a; reflexivity.
  - intros Hin Hnd. rewrite register_observers, unregister_observers by exact Hnd.
    rewrite bool_decide_eq_false_2; [reflexivity|].
    intros Hin'. apply list_elem_of_filter in Hin' as [Hne _]. now apply Hne.
Qed.

(** X18 at work on the client with the observers 3 and 7. *)
Lemma register_then_unregister_3_and_7 :
  BLPTS.unregister 9 (BLPTS.register 9 (self observed_client)) = self observed_client /\
  observers (BLPTS.register 3 (BLPTS.unregister 3 (self observed_client))) = [7; 3].
Proof.
  destruct (register_then_unregister_restores 9 (self observed_client)) as [Hback _].
  destruct (register_then_unregister_restores 3 (self observed_client)) as [_ Hmove].
  split.
  - apply Hback. vm_compute. intros H.
    repeat (apply elem_of_cons in H as [H|H]; [discriminate H|]).
    now apply elem_of_nil in H.
  - rewrite Hmove.
    + vm_compute. reflexivity.
    + vm_compute. apply list_elem_of_here.
    + vm_compute. repeat constructor.
      * intros H. apply list_elem_of_singleton in H. discriminate H.
      * apply not_elem_of_nil.
Defined.

(** ** The marker for missing data *)

(** X19: [bdp] never returns the vendor's marker '#N/A': a field that
    holds it comes back as the string 'None', with nothing printed,
    which is also what a field holding the text 'None' comes back as. *)
Theorem bdp_never_returns_the_NA_marker
    (evs : nat -> Event) (fuel : nat) (sec fld o1 v1 o2 v2 : string) (w : World) :
  fst (BLP2.bdp evs fuel sec fld o1 v1 o2 v2 w) <> Ok (PStr "#N/A") /\
  (forall n s,
     n < fuel -> first_response_at evs (cursor w) n ->
     BLP2.bdp_extract (evs (cursor w + n)) fld = Ok s ->
     s = "#N/A" \/ s = "None" ->
     fst (BLP2.bdp evs fuel sec fld o1 v1 o2 v2 w) = Ok (PStr "None") /\
     stdout (snd (BLP2.bdp evs fuel sec fld o1 v1 o2 v2 w)) = stdout w).
Proof.
  split.
  - destruct (bdp_cases evs fuel sec fld o1 v1 o2 v2 w)
      as [Hp|(n & s & _ & _ & Hs & Hval)]; [now rewrite Hp|].
    rewrite Hs. intros [= Hna]. subst s.
    destruct (BLP2.bdp_extract _ _) as [v| |]; try discriminate Hval.
    revert Hval. case_bool_decide as Hv; [discriminate|]. intros <-. now apply Hv.
  - intros n s Hn Hf Hext Hs. rewrite (bdp_returns evs n fuel) by assumption.
    rewrite Hext. simpl. destruct Hs as [-> | ->]; split; reflexivity.
Qed.

(** A reference-data response whose field holds the marker. *)
Definition not_available_session : nat -> Event :=
  fun _ => mkEvent RESPONSE
    [Sequence [("securityData",
                Array [Sequence [("security", Scalar (Some "SPX Index") None None);
                                 ("fieldData",
                                  Sequence [("PX_LAST",
                                             Scalar (Some "#N/A") None None)])]])]].

(** X19 at work. *)
Lemma bdp_of_a_field_not_available :
  fst (BLP2.bdp not_available_session 1 "SPX Index" "PX_LAST" "" "" "" "" empty_world) =
    Ok (PStr "None") /\
  stdout (snd (BLP2.bdp not_available_session 1 "SPX Index" "PX_LAST" "" "" "" ""
                        empty_world)) = [].
Proof.
  destruct (bdp_never_returns_the_NA_marker not_available_session 1
              "SPX Index" "PX_LAST" "" "" "" "" empty_world) as [_ Hnone].
  apply (Hnone 0 "#N/A").
  - lia.
  - split; [reflexivity|]. intros k Hk. lia.
  - reflexivity.
  - left. reflexivity.
Defined.

(** ** Partial responses in historical mode *)




Section PartialResponses.

Variable update : Notification -> option exn.
Variable parse_datetime : string -> option Date.
Variable evs : nat -> Event.




End PartialResponses.





(** ** An observer that raises ends [get] *)

Section Orderly.

Variable update : Notification -> option exn.

(** The observer calls [ns] of a run that ended with [o] went well: they
    all returned, or all but the last returned and the exception of the
    last is what the run ended with. *)
Definition went_well {A} (o : outcome A) (ns : list Notification) : Prop :=
  Forall (fun n => update n = None) ns \/
  exists pre n e,
    ns = pre ++ [n] /\ Forall (fun n => update n = None) pre /\
    update n = Some e /\ o = Raise e.

(** Steps all of whose runs go well. *)
Definition orderly {A} (m : M A) : Prop :=
  forall w, exists ns,
    notified (snd (m w)) = notified w ++ ns /\ went_well (fst (m w)) ns.

Lemma unobserved_orderly {A} (m : M A) : unobserved m -> orderly m.
Proof.
  intros Hm w. exists []. rewrite app_nil_r. split; [apply Hm|]. left. constructor.
Qed.

Lemma orderly_bind {A B} (m : M A) (k : A -> M B) :
  orderly m -> (forall a, orderly (k a)) -> orderly (bind m k).
Proof.
  intros Hm Hk w. unfold bind. destruct (Hm w) as (ns & Hns & Hwell).
  destruct (m w) as [[a|e|] w1]; simpl in *.
  - destruct (Hk a w1) as (ns' & Hns' & Hwell').
    exists (ns ++ ns'). split; [now rewrite Hns', Hns, app_assoc|].
    destruct Hwell as [Hall|(pre & n & e & _ & _ & _ & Habs)]; [|discriminate Habs].
    destruct Hwell' as [Hall'|(pre & n & e & -> & Hpre & Hn & Ho)].
    + left. apply Forall_app. now split.
    + right. exists (ns ++ pre), n, e. split; [now rewrite app_assoc|].
      split; [apply Forall_app; now split|]. now split.
  - exists ns. split; [exact Hns|].
    destruct Hwell as [Hall|(pre & n & e0 & Hpre & Hall & Hn & [= ->])]; [now left|].
    right. exists pre, n, e0. auto.
  - exists ns. split; [exact Hns|].
    destruct Hwell as [Hall|(pre & n & e0 & _ & _ & _ & Habs)]; [now left|discriminate Habs].
Qed.

Lemma orderly_for_each {A} (l : list A) (body : A -> M unit) :
  (forall x, orderly (body x)) -> orderly (for_each l body).
Proof.
  intros Hb. induction l as [|x l IH]; simpl.
  - apply unobserved_orderly, unobserved_ret.
  - apply orderly_bind; [apply Hb|intros _; exact IH].
Qed.

Lemma orderly_if {A} (b : bool) (m1 m2 : M A) :
  orderly m1 -> orderly m2 -> orderly (if b then m1 else m2).
Proof. now destruct b. Qed.

Lemma orderly_print s : orderly (print s).
Proof. apply unobserved_orderly. intros w. reflexivity. Qed.

Lemma orderly_nextEvent evs : orderly (nextEvent evs).
Proof. apply unobserved_orderly. intros w. reflexivity. Qed.

Lemma orderly_updateObservers security field data :
  orderly (BLPTS.updateObservers update security field data).
Proof.
  intros w.
  destruct (first_raising update (fun o => mkNotification o security field data)
              (observers (self w))) as [Hall|(pre & o & post & e & Hobs & Hpre & Ho)].
  - rewrite (updateObservers_all update security field data w Hall).
    eexists. split; [reflexivity|]. left.
    apply Forall_fmap, Forall_forall. intros o Ho. now apply Hall.
  - rewrite (updateObservers_stops update security field data w pre o post e Hobs Hpre Ho).
    eexists. split; [reflexivity|]. right.
    exists ((fun o => mkNotification o security field data) <$> pre),
           (mkNotification o security field data), e.
    split; [now rewrite fmap_app|].
    split; [apply Forall_fmap, Forall_forall; intros x Hx; now apply Hpre|].
    now split.
Qed.

Ltac order :=
  repeat first
    [ apply orderly_updateObservers
    | apply orderly_print
    | solve [apply unobserved_orderly; unobserve]
    | apply orderly_for_each; intros ?
    | apply orderly_if
    | apply orderly_bind; [|intros ?] ].

Variable parse_datetime : string -> option Date.

Lemma orderly_historical_fields security rows : forall flds df,
  orderly (BLPTS.historical_fields update security rows flds df).
Proof.
  induction flds as [|f flds IH]; intros df; cbn [BLPTS.historical_fields].
  - apply unobserved_orderly, unobserved_ret.
  - apply orderly_bind; [apply unobserved_orderly, unobserved_lift|]. intros col.
    apply orderly_bind; [apply unobserved_orderly, unobserved_lift|]. intros df1.
    apply orderly_bind; [apply orderly_updateObservers|]. intros u. apply IH.
Qed.

Lemma orderly_historical ev : orderly (BLPTS.historical update parse_datetime ev).
Proof.
  unfold BLPTS.historical.
  repeat first
    [ apply orderly_updateObservers
    | apply orderly_historical_fields
    | solve [apply unobserved_orderly; unobserve]
    | apply orderly_bind; [|intros ?] ].
Qed.

Lemma orderly_reference ev i : orderly (BLPTS.reference update ev i).
Proof. unfold BLPTS.reference, BLPTS.reference_field. order. Qed.

Lemma orderly_process ev : orderly (BLPTS.process update parse_datetime ev).
Proof.
  unfold BLPTS.process.
  apply orderly_bind; [apply unobserved_orderly, unobserved_lift|]. intros msg.
  apply orderly_bind; [apply unobserved_orderly, unobserved_lift|]. intros sd.
  apply orderly_for_each. intros i.
  apply orderly_bind; [apply unobserved_orderly, unobserved_get_self|]. intros a.
  apply orderly_if; [apply orderly_historical|apply orderly_reference].
Qed.

Lemma orderly_get_loop evs fuel :
  orderly (BLPTS.get_loop update parse_datetime evs fuel).
Proof.
  induction fuel as [|fuel IH]; cbn [BLPTS.get_loop].
  - apply unobserved_orderly. intros w. reflexivity.
  - apply orderly_bind; [apply orderly_nextEvent|]. intros event.
    apply orderly_bind.
    + apply orderly_if; [apply orderly_process|apply unobserved_orderly, unobserved_ret].
    + intros u. apply orderly_if; [apply unobserved_orderly, unobserved_ret|exact IH].
Qed.

Lemma orderly_get evs fuel newS newF kw :
  orderly (BLPTS.get update parse_datetime evs fuel newS newF kw).
Proof.
  unfold BLPTS.get. apply orderly_bind.
  - apply unobserved_orderly, unobserved_get_send.
  - intros u. apply orderly_get_loop.
Qed.

End Orderly.

(** X21: [get] neither swallows nor outlives an exception of an
    observer.  In every run of [get], whatever the mode, the arguments
    and the queue, all the observer calls it made returned normally,
    except possibly the last one; and when the last one raised, no
    further observer was called and [get] ended with that very
    exception.  In particular, when [get] returns, every call it made
    had returned. *)
Theorem get_ends_with_the_exception_of_an_observer
    (update : Notification -> option exn) (parse_datetime : string -> option Date)
    (evs : nat -> Event) (fuel : nat) (newS newF : str_or_list)
    (kw : gmap string arg) (w : World) :
  let result := BLPTS.get update parse_datetime evs fuel newS newF kw w in
  notified (snd result) = notified w ++ newly_notified w (snd result) /\
  went_well update (fst result) (newly_notified w (snd result)) /\
  (forall v, fst result = Ok v ->
             Forall (fun n => update n = None) (newly_notified w (snd result))).
Proof.
  intros result. subst result.
  destruct (orderly_get update parse_datetime evs fuel newS newF kw w) as (ns & Hns & Hwell).
  assert (newly_notified w (snd (BLPTS.get update parse_datetime evs fuel newS newF kw w))
          = ns) as Hnew.
  { unfold newly_notified. rewrite Hns. apply drop_app_length. }
  rewrite Hnew. split; [exact Hns|]. split; [exact Hwell|].
  intros v Hv. destruct Hwell as [Hall|(pre & n & e & _ & _ & _ & Habs)]; [exact Hall|].
  rewrite Hv in Habs. discriminate Habs.
Qed.

(** An observer 7 that fails on every call. *)
Definition seven_raises (n : Notification) : option exn :=
  if bool_decide (n_observer n = 7) then Some (UserError 1) else None.

(** X21 at work: with the observers 3 and 7, the first call of 7 ends
    the lookup; the field was told to 3 and to 7, 'ALL' to no one. *)
Lemma get_ends_when_observer_7_raises :
  let result := BLPTS.get seven_raises parse_january history_session 2
                          (Lst ["SPX Index"]) (Lst ["PX_LAST"]) historical_kwargs
                          observed_client in
  fst result = Raise (UserError 1) /\
  call_of <$> notified (snd result) =
    [(3, "SPX Index", "PX_LAST"); (7, "SPX Index", "PX_LAST")] /\
  went_well seven_raises (fst result) (newly_notified observed_client (snd result)).
Proof.
  intros result. split; [vm_compute; reflexivity|]. split; [vm_compute; reflexivity|].
  apply (get_ends_with_the_exception_of_an_observer seven_raises parse_january
           history_session 2 (Lst ["SPX Index"]) (Lst ["PX_LAST"]) historical_kwargs
           observed_client).
Defined.

(** ** Reference responses without fields *)

(** The line [get] prints for a security without field data. *)
Definition empty_line (security : string) : string :=
  "Empty response received for " +:+ security.

Section EmptyReference.

Variable update : Notification -> option exn.
Variable parse_datetime : string -> option Date.
Variable evs : nat -> Event.

Lemma securities_loop_empty ev msg sd : forall (l : list nat) (names : list string) w,
  reference_mode w ->
  first_message ev = Ok msg -> getElement msg SECURITY_DATA = Ok sd ->
  Forall2 (fun i name => exists fd, security_entry sd i name fd /\ numElements fd = 0)
          l names ->
  for_each l (fun i =>
                a <- get_self ;;
                if bool_decide (is_Some (kwargs a !! "startDate"))
                then BLPTS.historical update parse_datetime ev
                else BLPTS.reference update ev i) w =
  (Ok tt, printing_all (empty_line <$> names) w).
Proof.
  intros l names w Hmode Hmsg Hsd Hall. revert w Hmode.
  induction Hall as [|i name l names (fd & Hent & Hzero) _ IH]; intros w Hmode.
  - simpl. unfold ret. now rewrite printing_all_nil.
  - cbn [for_each]. unfold bind at 1. unfold bind at 1. unfold get_self.
    rewrite bool_decide_eq_false_2
      by (unfold reference_mode in Hmode; rewrite Hmode; now intros [x Hx]).
    rewrite (reference_empty update ev i w msg sd name fd Hmsg Hsd Hent Hzero).
    rewrite IH by exact Hmode. rewrite printing_all_app. reflexivity.
Qed.

End EmptyReference.

(** X22: in reference mode, when the first data-carrying event is a
    RESPONSE in which no security has any field data, [get] returns
    None having printed one line 'Empty response received for
    <security>' per security, in the order of the response, and nothing
    else; no observer hears of it. *)
Theorem reference_get_prints_for_securities_without_fields
    (update : Notification -> option exn) (parse_datetime : string -> option Date)
    (evs : nat -> Event) (fuel m : nat) (newS newF : str_or_list)
    (kw : gmap string arg) (w w1 : World) (msg sd : Element) (names : list string) :
  BLPTS.get_send newS newF kw w = (Ok tt, w1) ->
  reference_mode w1 ->
  m < fuel ->
  (forall k, k < m -> ~ carries_data (evs (cursor w1 + k))) ->
  eventType (evs (cursor w1 + m)) = RESPONSE ->
  first_message (evs (cursor w1 + m)) = Ok msg ->
  getElement msg SECURITY_DATA = Ok sd ->
  Forall2 (fun i name => exists fd, security_entry sd i name fd /\ numElements fd = 0)
          (seq 0 (numValues sd)) names ->
  BLPTS.get update parse_datetime evs fuel newS newF kw w =
  (Ok PNone, printing_all (empty_line <$> names) (advance (S m) w1)).
Proof.
  intros Hsend Hmode Hm Hskip Hresp Hmsg Hsd Hall.
  rewrite (get_after_send update parse_datetime evs fuel newS newF kw w w1 Hsend).
  replace fuel with (m + S (fuel - S m)) by lia.
  rewrite get_loop_skip by exact Hskip. rewrite get_loop_step. cbv zeta.
  change (cursor (advance m w1)) with (cursor w1 + m).
  rewrite advance_advance. replace (m + 1) with (S m) by lia.
  rewrite bool_decide_eq_true_2
    by (unfold carries_data; rewrite Hresp; apply list_elem_of_here).
  rewrite (process_unfold update parse_datetime _ _ msg sd Hmsg Hsd).
  rewrite (securities_loop_empty update parse_datetime _ msg sd _ names) by assumption.
  now rewrite bool_decide_eq_true_2 by exact Hresp.
Qed.

(** A reference-data response for two securities, neither with a field. *)
Definition fieldless_message : Element :=
  Sequence [("securityData",
             Array [Sequence [("security", Scalar (Some "ESA Index") None None);
                              ("fieldData", Sequence [])];
                    Sequence [("security", Scalar (Some "VGA Index") None None);
                              ("fieldData", Sequence [])]])].

Definition fieldless_session : nat -> Event :=
  fun _ => mkEvent RESPONSE [fieldless_message].

(** X22 at work. *)
Lemma reference_get_prints_two_lines :
  fst (BLPTS.get silent no_parser fieldless_session 1
                 (Lst ["ESA Index"; "VGA Index"]) (Lst ["BID"; "ASK"]) ∅ one_observer) =
    Ok PNone /\
  stdout (snd (BLPTS.get silent no_parser fieldless_session 1
                         (Lst ["ESA Index"; "VGA Index"]) (Lst ["BID"; "ASK"]) ∅
                         one_observer)) =
    ["Empty response received for ESA Index"; "Empty response received for VGA Index"] /\
  notified (snd (BLPTS.get silent no_parser fieldless_session 1
                           (Lst ["ESA Index"; "VGA Index"]) (Lst ["BID"; "ASK"]) ∅
                           one_observer)) = [].
Proof.
  rewrite (reference_get_prints_for_securities_without_fields silent no_parser
             fieldless_session 1 0 (Lst ["ESA Index"; "VGA Index"]) (Lst ["BID"; "ASK"]) ∅
             one_observer
             (snd (BLPTS.get_send (Lst ["ESA Index"; "VGA Index"]) (Lst ["BID"; "ASK"]) ∅
                                  one_observer))
             fieldless_message
             (Array [Sequence [("security", Scalar (Some "ESA Index") None None);
                               ("fieldData", Sequence [])];
                     Sequence [("security", Scalar (Some "VGA Index") None None);
                               ("fieldData", Sequence [])]])
             ["ESA Index"; "VGA Index"]).
  - vm_compute. repeat split.
  - vm_compute. reflexivity.
  - vm_compute. reflexivity.
  - lia.
  - intros k Hk. lia.
  - vm_compute. reflexivity.
  - vm_compute. reflexivity.
  - vm_compute. reflexivity.
  - constructor.
    { exists (Sequence []). split; [|reflexivity]. eexists _, _.
      split; [reflexivity|]. split; [reflexivity|]. split; reflexivity. }
    constructor; [|constructor].
    exists (Sequence []). split; [|reflexivity]. eexists _, _.
    split; [reflexivity|]. split; [reflexivity|]. split; reflexivity.
Defined.

(** ** The list [bdh] returns with [singleFrame] *)

Lemma filter_zip_absent (l : string) (cols : list string) : forall (ds : list (list cell)),
  l ∉ cols -> filter (fun p => fst p = l) (zip cols ds) = [].
Proof.
  induction cols as [|c cols IH]; intros ds Hout; [reflexivity|].
  destruct ds as [|d ds]; [reflexivity|]. simpl.
  apply not_elem_of_cons in Hout as [Hne Hout].
  rewrite filter_cons_False by (simpl; congruence). now apply IH.
Qed.

Lemma columns_named_nodup (cols : list string) : forall (ds : list (list cell)) j l d,
  NoDup cols -> cols !! j = Some l -> ds !! j = Some d ->
  snd <$> filter (fun p => fst p = l) (zip cols ds) = [d].
Proof.
  induction cols as [|c cols IH]; intros ds j l d Hnd Hl Hd; [discriminate Hl|].
  destruct ds as [|d0 ds]; [discriminate Hd|].
  apply NoDup_cons in Hnd as [Hc Hnd]. destruct j as [|j]; simpl in *.
  - injection Hl as ->. injection Hd as ->.
    rewrite filter_cons_True by reflexivity.
    now rewrite filter_zip_absent.
  - rewrite filter_cons_False.
    + now apply (IH ds j).
    + simpl. intros ->. apply Hc. now apply list_elem_of_lookup_2 in Hl.
Qed.

Lemma select_columns df : forall labels ds,
  Forall2 (fun l d => columns_named l df = [d]) labels ds ->
  (forall l, l ∈ labels -> l ∈ columns df) ->
  select labels df = Ok ds.
Proof.
  intros labels ds Hall. induction Hall as [|l d labels ds Hl _ IH]; intros Hin.
  - reflexivity.
  - simpl. rewrite bool_decide_eq_true_2 by apply Hin, list_elem_of_here.
    rewrite IH by (intros x Hx; apply Hin; now apply list_elem_of_further).
    now rewrite Hl.
Qed.

(** Selecting all the columns of a table with distinct labels gives its
    columns. *)
Lemma select_all df :
  NoDup (columns df) -> length (data df) = length (columns df) ->
  select (columns df) df = Ok (data df).
Proof.
  intros Hnd Hlen. apply select_columns; [|auto].
  apply Forall2_same_length_lookup_2; [now symmetry|].
  intros j l d Hl Hd. unfold columns_named.
  now apply (columns_named_nodup (columns df) (data df) j).
Qed.

Lemma last_seq n : last (seq 0 (S n)) = Some n.
Proof. rewrite seq_S. simpl. apply last_snoc. Qed.

Lemma tolist_last n cols row :
  last (tolist n cols) = Some row ->
  0 < n /\ row = map (fun col => nth (n - 1) col NaN) cols.
Proof.
  unfold tolist. destruct n as [|n]; [discriminate|].
  change (map ?f (seq 0 (S n))) with (f <$> seq 0 (S n)).
  rewrite fmap_last, last_seq. simpl. intros [= <-]. split; [lia|].
  now replace (n - 0) with n by lia.
Qed.

(** X23: with [singleFrame] set and distinct fields, the list [bdh]
    returns holds the values of the last row of the response, one float
    per requested field in the order of the request; the response has at
    least one row then. *)
Theorem bdh_single_frame_is_the_last_row
    (evs : nat -> Event) (fuel : nat) (sec : string) (flds : str_or_list)
    (sd ed : Date) (adj per : arg) (w : World) (v : pyval) :
  NoDup (as_list flds) ->
  fst (BLP2.bdh evs fuel sec flds sd ed adj per true w) = Ok v ->
  exists n arr lastrow row,
    n < fuel /\ first_response_at evs (cursor w) n /\
    field_data_array (evs (cursor w + n)) = Ok arr /\
    0 < numValues arr /\
    getValueAsElement arr (numValues arr - 1) = Ok lastrow /\
    v = PList row /\ length row = length (as_list flds) /\
    forall j f, as_list flds !! j = Some f ->
      exists x, getElementAsFloat lastrow f = Ok x /\ row !! j = Some (CFloat x).
Proof.
  intros Hnd Hv.
  destruct (bdh_cases evs fuel sec flds sd ed adj per true w)
    as [Hp|(n & Hn & Hf & Hp)]; rewrite Hp in Hv; [discriminate|].
  destruct (BLP2.bdh_table _ _) as [df| |] eqn:Htab; try discriminate.
  destruct (bdh_table_spec _ _ _ Htab) as (arr & Harr & Hidx & Hcols & Hlen & Hrows & Hcells).
  rewrite <- Hcols in Hv. rewrite select_all in Hv;
    [|now rewrite Hcols|now rewrite Hlen, Hcols].
  simpl in Hv. unfold last_item in Hv.
  destruct (last _) as [row|] eqn:Hlast; try discriminate.
  injection Hv as <-. apply tolist_last in Hlast as [Hpos ->].
  rewrite Hidx in Hpos.
  destruct (Hrows (numValues arr - 1)) as (lastrow & d & Hlastrow & _); [lia|].
  exists n, arr, lastrow, (map (fun col => nth (length (index df) - 1) col NaN) (data df)).
  split; [exact Hn|]. split; [exact Hf|]. split; [exact Harr|]. split; [exact Hpos|].
  split; [exact Hlastrow|]. split; [reflexivity|].
  split; [now rewrite length_map|].
  intros j f Hj.
  destruct (Hcells (numValues arr - 1) j f) as (row & x & Hrow & Hx & Hcell);
    [lia|exact Hj|].
  rewrite Hlastrow in Hrow. injection Hrow as <-.
  exists x. split; [exact Hx|].
  unfold cell_at in Hcell.
  destruct (data df !! j) as [col|] eqn:Hcol; [|discriminate]. simpl in Hcell.
  change (map ?g (data df)) with (g <$> data df).
  rewrite list_lookup_fmap, Hcol. simpl. f_equal.
  rewrite Hidx. now apply nth_lookup_Some.
Qed.

(** X23 at work: of the two-day history, the price of the second day. *)
Lemma bdh_single_frame_of_two_day_history :
  exists n arr lastrow row,
    n < 2 /\ first_response_at history_session (cursor empty_world) n /\
    field_data_array (history_session (cursor empty_world + n)) = Ok arr /\
    0 < numValues arr /\
    getValueAsElement arr (numValues arr - 1) = Ok lastrow /\
    PList [CFloat 1832.25] = PList row /\ length row = length (as_list (Str "PX_LAST")) /\
    forall j f, as_list (Str "PX_LAST") !! j = Some f ->
      exists x, getElementAsFloat lastrow f = Ok x /\ row !! j = Some (CFloat x).
Proof.
  apply (bdh_single_frame_is_the_last_row history_session 2 "SPX Index" (Str "PX_LAST")
           (mkDate 2014 1 1) (mkDate 2014 1 9) (ABool false) (AStr "DAILY") empty_world
           (PList [CFloat 1832.25])).
  - apply NoDup_singleton.
  - vm_compute. reflexivity.
Defined.
